(** * Gowershell: command dispatch and output normalisation

    A shallow embedding of [main.go] (the executor with UTF-16 output
    normalisation) and of [type.go] (the earlier executor without it),
    together with the parts of the Go standard library their behaviour
    depends on: [unicode/utf16.Decode], the [[]rune -> string]
    conversion, [strings.TrimSpace], the verbs of [fmt.Sprintf] that
    the trace uses, binary64 arithmetic and the field decoding of
    [encoding/json].

    Go values are represented as follows:
    - [[]byte] is [list byte];
    - [string] is [string] (a sequence of 8-bit characters);
    - [uint16], [rune], [int] and [int64] are [Z], wrap-around written
      out where the code can reach it;
    - [float64] is [spec_float] at precision 53, exponent bound 1024. *)

From Stdlib Require Import ZArith List String Ascii Strings.Byte Bool Lia QArith.
From Stdlib Require Import Floats.SpecFloat.
From Stdlib Require Import DecimalString.
Import ListNotations.

Local Open Scope list_scope.
Local Open Scope string_scope.
Local Open Scope Z_scope.

(** ** Bytes and characters *)

(** [uint16(b)], [rune(b)], [int(b)] for a byte [b]. *)
Definition u8 (b : byte) : Z := Z.of_N (Byte.to_N b).

(** [byte(z)]: the low eight bits. *)
Definition byte_of_Z (z : Z) : byte :=
  match Byte.of_N (Z.to_N (z mod 256)) with
  | Some b => b
  | None => x00
  end.

(** The character of a string holding [byte(z)]. *)
Definition chr (z : Z) : ascii := ascii_of_byte (byte_of_Z z).

(** The string ["\n"] *)
Definition nl : string := String (ascii_of_byte x0a) EmptyString.

(** [s[i]] read as an integer. *)
Definition ord (a : ascii) : Z := u8 (byte_of_ascii a).

(** The bytes of a string, as integers *)
Definition bytes_of_string (s : string) : list Z := map ord (list_ascii_of_string s).

(** [data[i]]; the callers only read below [len(data)]. *)
Definition at_ (data : list byte) (i : nat) : byte := nth i data x00.

(** [len(data)] *)
Definition len (data : list byte) : Z := Z.of_nat (List.length data).

(** Conversion to [uint16] and to [uint32]: the low 16 and 32 bits *)
Definition uint16 (z : Z) : Z := z mod 65536.
Definition uint32 (z : Z) : Z := z mod 4294967296.

(** ** binary64 *)

Module Float64.

Definition prec : Z := 53.
Definition emax : Z := 1024.

(** [float64(n)] for an [int] *)
Definition of_int (n : Z) : spec_float := binary_normalize prec emax n 0 false.

Definition div (x y : spec_float) : spec_float := SFdiv prec emax x y.

(** [x > y] *)
Definition gt (x y : spec_float) : bool := SFltb y x.

(** The constant [0.3] converted to float64: 0x3FD3333333333333. *)
Definition c0_3 : spec_float := S754_finite false 5404319552844595 (-54).

End Float64.

(** ** unicode/utf16 and the rune-to-string conversion *)

Module Utf16.

Definition surr1 : Z := 0xd800.
Definition surr2 : Z := 0xdc00.
Definition surr3 : Z := 0xe000.
Definition surrSelf : Z := 0x10000.
Definition replacementChar : Z := 0xFFFD.

(** [utf16.DecodeRune] on a pair already known to be a surrogate pair *)
Definition DecodeRune (r1 r2 : Z) : Z :=
  if (surr1 <=? r1) && (r1 <? surr2) && (surr2 <=? r2) && (r2 <? surr3)
  then Z.lor (Z.shiftl (r1 - surr1) 10) (r2 - surr2) + surrSelf
  else replacementChar.

(** [utf16.Decode]: one rune per code unit outside the surrogate
    range, one per well-formed surrogate pair, U+FFFD for every other
    code unit. *)
Fixpoint Decode (s : list Z) : list Z :=
  match s with
  | [] => []
  | r :: rest =>
      if (r <? surr1) || (surr3 <=? r) then r :: Decode rest
      else
        match rest with
        | r2 :: rest' =>
            if (surr1 <=? r) && (r <? surr2) && (surr2 <=? r2) && (r2 <? surr3)
            then DecodeRune r r2 :: Decode rest'
            else replacementChar :: Decode rest
        | [] => [replacementChar]
        end
  end.

End Utf16.

Module Utf8.

Definition RuneError : Z := 0xFFFD.
Definition RuneSelf : Z := 0x80.
Definition MaxRune : Z := 0x10FFFF.
Definition UTFMax : nat := 4.
Definition surrogateMin : Z := 0xD800.
Definition surrogateMax : Z := 0xDFFF.
Definition rune1Max : Z := 0x7F.
Definition rune2Max : Z := 0x7FF.
Definition rune3Max : Z := 0xFFFF.
Definition maskx : Z := 0x3F.
Definition locb : Z := 0x80.
Definition hicb : Z := 0xBF.

Definition enc3 (r : Z) : list Z :=
  [Z.lor 0xE0 (Z.shiftr r 12);
   Z.lor 0x80 (Z.land (Z.shiftr r 6) maskx);
   Z.lor 0x80 (Z.land r maskx)].

(** The bytes Go writes for one rune when it converts [[]rune] to
    [string] ([encoderune]). *)
Definition encoderune (r : Z) : list Z :=
  let i := uint32 r in
  if i <=? rune1Max then [r]
  else if i <=? rune2Max then
    [Z.lor 0xC0 (Z.shiftr r 6); Z.lor 0x80 (Z.land r maskx)]
  else if (MaxRune <? i) || ((surrogateMin <=? i) && (i <=? surrogateMax))
    then enc3 RuneError
  else if i <=? rune3Max then enc3 r
  else
    [Z.lor 0xF0 (Z.shiftr r 18);
     Z.lor 0x80 (Z.land (Z.shiftr r 12) maskx);
     Z.lor 0x80 (Z.land (Z.shiftr r 6) maskx);
     Z.lor 0x80 (Z.land r maskx)].

Fixpoint string_of_Zs (l : list Z) : string :=
  match l with
  | [] => EmptyString
  | z :: l' => String (chr z) (string_of_Zs l')
  end.

(** [string(runes)] *)
Fixpoint string_of_runes (runes : list Z) : string :=
  match runes with
  | [] => EmptyString
  | r :: rest => string_of_Zs (encoderune r) ++ string_of_runes rest
  end.

Definition in_range (lo hi b : Z) : bool := (lo <=? b) && (b <=? hi).

(** [utf8.DecodeRuneInString] on the byte values of the string: the
    rune and its width. The table [first] and the accept ranges are
    written as the byte intervals they stand for. *)
Definition DecodeRune (s : list Z) : Z * nat :=
  match s with
  | [] => (RuneError, 0%nat)
  | s0 :: t =>
      if s0 <? RuneSelf then (s0, 1%nat)
      else if (s0 <? 0xC2) || (0xF4 <? s0) then (RuneError, 1%nat)
      else
        let sz : nat :=
          if s0 <? 0xE0 then 2%nat else if s0 <? 0xF0 then 3%nat else 4%nat in
        let accept_lo :=
          if s0 =? 0xE0 then 0xA0 else if s0 =? 0xF0 then 0x90 else locb in
        let accept_hi :=
          if s0 =? 0xED then 0x9F else if s0 =? 0xF4 then 0x8F else hicb in
        if (List.length s <? sz)%nat then (RuneError, 1%nat)
        else
          match t with
          | [] => (RuneError, 1%nat)
          | s1 :: t1 =>
              if negb (in_range accept_lo accept_hi s1) then (RuneError, 1%nat)
              else if (sz <=? 2)%nat then
                (Z.lor (Z.shiftl (Z.land s0 0x1F) 6) (Z.land s1 maskx), 2%nat)
              else
                match t1 with
                | [] => (RuneError, 1%nat)
                | s2 :: t2 =>
                    if negb (in_range locb hicb s2) then (RuneError, 1%nat)
                    else if (sz <=? 3)%nat then
                      (Z.lor (Z.lor (Z.shiftl (Z.land s0 0x0F) 12)
                                    (Z.shiftl (Z.land s1 maskx) 6))
                             (Z.land s2 maskx), 3%nat)
                    else
                      match t2 with
                      | [] => (RuneError, 1%nat)
                      | s3 :: _ =>
                          if negb (in_range locb hicb s3) then (RuneError, 1%nat)
                          else
                            (Z.lor (Z.lor (Z.lor (Z.shiftl (Z.land s0 0x07) 18)
                                                 (Z.shiftl (Z.land s1 maskx) 12))
                                          (Z.shiftl (Z.land s2 maskx) 6))
                                   (Z.land s3 maskx), 4%nat)
                      end
                end
          end
  end.

(** [utf8.RuneStart] *)
Definition RuneStart (b : Z) : bool := negb (Z.land b 0xC0 =? 0x80).

(** The backwards scan of [utf8.DecodeLastRuneInString]: [start]
    moves down from [end - 2] to [lim], stopping at a rune start.
    The result is the final [start] as the code leaves the loop
    ([lim - 1] when no rune start was met). *)
Fixpoint scan_back (fuel : nat) (s : list Z) (start lim : Z) : Z :=
  match fuel with
  | O => start
  | S fuel' =>
      if start <? lim then start
      else if RuneStart (nth (Z.to_nat start) s 0) then start
      else scan_back fuel' s (start - 1) lim
  end.

(** [utf8.DecodeLastRuneInString] *)
Definition DecodeLastRune (s : list Z) : Z * nat :=
  let end_ := Z.of_nat (List.length s) in
  if end_ =? 0 then (RuneError, 0%nat)
  else
    let r := nth (Z.to_nat (end_ - 1)) s 0 in
    if r <? RuneSelf then (r, 1%nat)
    else
      let lim := Z.max (end_ - Z.of_nat UTFMax) 0 in
      let start := Z.max (scan_back UTFMax s (end_ - 2) lim) 0 in
      let '(r', size) := DecodeRune (skipn (Z.to_nat start) s) in
      if negb (start + Z.of_nat size =? end_) then (RuneError, 1%nat)
      else (r', size).

(** [[]rune(s)] on the bytes of the string: one rune per decoded
    sequence, U+FFFD for a byte that starts none. *)
Fixpoint runes_of_bytes (fuel : nat) (s : list Z) : list Z :=
  match fuel with
  | O => []
  | S fuel' =>
      match s with
      | [] => []
      | _ :: _ =>
          let '(r, w) := DecodeRune s in
          r :: runes_of_bytes fuel' (skipn w s)
      end
  end.

(** [[]rune(s)] *)
Definition runes_of_string (s : string) : list Z :=
  runes_of_bytes (String.length s) (bytes_of_string s).

End Utf8.

(** ** unicode.IsSpace and strings.TrimSpace *)

Module Strings.

Definition MaxLatin1 : Z := 0xFF.

(** [unicode.IsSpace]: the Latin-1 cases of the switch, then the
    [White_Space] table without its Latin-1 entries. *)
Definition IsSpace (r : Z) : bool :=
  if uint32 r <=? MaxLatin1 then
    (r =? 9) || (r =? 10) || (r =? 11) || (r =? 12) || (r =? 13) || (r =? 32)
    || (r =? 0x85) || (r =? 0xA0)
  else
    (r =? 0x1680) || ((0x2000 <=? r) && (r <=? 0x200a))
    || ((0x2028 <=? r) && (r <=? 0x2029)) || (r =? 0x202f) || (r =? 0x205f)
    || (r =? 0x3000).

(** The table [asciiSpace] *)
Definition asciiSpace (c : Z) : bool :=
  (c =? 9) || (c =? 10) || (c =? 11) || (c =? 12) || (c =? 13) || (c =? 32).

(** [strings.TrimLeftFunc(s, unicode.IsSpace)]: [indexFunc] ranges
    over the runes of [s] until the first one that is no space. *)
Fixpoint TrimLeftFunc (fuel : nat) (s : list Z) : list Z :=
  match fuel with
  | O => s
  | S fuel' =>
      match s with
      | [] => []
      | _ :: _ =>
          let '(r, w) := Utf8.DecodeRune s in
          if IsSpace r then TrimLeftFunc fuel' (skipn w s) else s
      end
  end.

(** [lastIndexFunc(s, unicode.IsSpace, false)] from index [i] down *)
Fixpoint lastIndexFunc (fuel : nat) (s : list Z) (i : Z) : Z :=
  match fuel with
  | O => -1
  | S fuel' =>
      if 0 <? i then
        let '(r, size) := Utf8.DecodeLastRune (firstn (Z.to_nat i) s) in
        let i' := i - Z.of_nat size in
        if negb (IsSpace r) then i' else lastIndexFunc fuel' s i'
      else -1
  end.

(** [strings.TrimRightFunc(s, unicode.IsSpace)] *)
Definition TrimRightFunc (s : list Z) : list Z :=
  let i := lastIndexFunc (List.length s) s (Z.of_nat (List.length s)) in
  let i :=
    if (0 <=? i) && (Utf8.RuneSelf <=? nth (Z.to_nat i) s 0)
    then i + Z.of_nat (snd (Utf8.DecodeRune (skipn (Z.to_nat i) s)))
    else i + 1 in
  firstn (Z.to_nat i) s.

Definition TrimFunc (s : list Z) : list Z :=
  TrimRightFunc (TrimLeftFunc (List.length s) s).

(** One of the two ASCII loops of [TrimSpace]: skip ASCII spaces;
    the flag tells that the loop met a byte at or above [RuneSelf]. *)
Fixpoint skip_ascii (s : list Z) : list Z * bool :=
  match s with
  | [] => ([], false)
  | c :: t =>
      if Utf8.RuneSelf <=? c then (s, true)
      else if asciiSpace c then skip_ascii t
      else (s, false)
  end.

Definition TrimSpace_bytes (s : list Z) : list Z :=
  let '(from_start, non_ascii) := skip_ascii s in
  if non_ascii then TrimFunc from_start
  else
    (* the loop on [stop] reads [s[start:]] from its end *)
    let '(rev_kept, non_ascii) := skip_ascii (rev from_start) in
    if non_ascii then TrimRightFunc (rev rev_kept)
    else rev rev_kept.

(** [strings.TrimSpace] *)
Definition TrimSpace (s : string) : string :=
  Utf8.string_of_Zs (TrimSpace_bytes (bytes_of_string s)).

(** The [strings.Builder] of the trace: the chunks written so far,
    oldest first. *)
Definition Builder : Type := list string.

Definition WriteString (b : Builder) (s : string) : Builder := (b ++ [s])%list.

(** [b.String()] *)
Definition String_ (b : Builder) : string := String.concat EmptyString b.

End Strings.

(** ** The verbs of fmt.Sprintf used by the trace *)

Module Fmt.

(** [%t] *)
Definition verb_t (b : bool) : string := if b then "true" else "false".

(** [%d] on an [int64] *)
Definition verb_d (n : Z) : string := NilZero.string_of_int (Z.to_int n).

(** [%v] on a [[]string] *)
Definition verb_v (l : list string) : string :=
  "[" ++ String.concat " " l ++ "]".

End Fmt.

(** ** The output normaliser of main.go *)

(** [data[0] == 0xFF && data[1] == 0xFE] *)
Definition is_bom_le (data : list byte) : bool :=
  Byte.eqb (at_ data 0) xff && Byte.eqb (at_ data 1) xfe.

(** [data[0] == 0xFE && data[1] == 0xFF] *)
Definition is_bom_be (data : list byte) : bool :=
  Byte.eqb (at_ data 0) xfe && Byte.eqb (at_ data 1) xff.

(** The loop of [isUTF16]: [for i := 1; i < len(data); i += 2], with
    [nullCount] as accumulator. *)
Fixpoint count_nulls (fuel : nat) (data : list byte) (i : nat) (nullCount : Z) : Z :=
  match fuel with
  | O => nullCount
  | S fuel' =>
      if (i <? List.length data)%nat then
        count_nulls fuel' data (i + 2)%nat
          (if Byte.eqb (at_ data i) x00 then nullCount + 1 else nullCount)
      else nullCount
  end.

Definition isUTF16 (data : list byte) : bool :=
  if (2 <=? len data) && is_bom_le data then true
  else if (2 <=? len data) && is_bom_be data then true
  else if (len data mod 2 =? 0) && (10 <? len data) then
    let nullCount := count_nulls (List.length data) data 1 0 in
    Float64.gt
      (Float64.div (Float64.of_int nullCount) (Float64.of_int (len data / 2)))
      Float64.c0_3
  else false.

(** [utf16Data[i]] as the loop of [decodeUTF16] sets it *)
Definition code_unit (littleEndian : bool) (data : list byte) (i : nat) : Z :=
  if littleEndian then
    Z.lor (u8 (at_ data (i * 2))) (uint16 (Z.shiftl (u8 (at_ data (i * 2 + 1))) 8))
  else
    Z.lor (u8 (at_ data (i * 2 + 1))) (uint16 (Z.shiftl (u8 (at_ data (i * 2))) 8)).

Definition decodeUTF16 (data : list byte) : string :=
  let '(start, littleEndian) :=
    if (2 <=? len data) then
      if is_bom_le data then (2%nat, true)
      else if is_bom_be data then (2%nat, false)
      else (0%nat, true)
    else (0%nat, true) in
  let data := skipn start data in
  if negb (len data mod 2 =? 0) then string_of_list_byte data
  else
    let utf16Data :=
      map (code_unit littleEndian data) (seq 0 (Z.to_nat (len data / 2))) in
    Utf8.string_of_runes (Utf16.Decode utf16Data).

(** [processOutput]: the text and the trace after it *)
Definition processOutput (data : list byte) (verbose : bool)
    (debugInfo : Strings.Builder) : string * Strings.Builder :=
  if len data =? 0 then (EmptyString, debugInfo)
  else if isUTF16 data then
    (decodeUTF16 data,
     if verbose
     then Strings.WriteString debugInfo ("UTF-16 encoding detected, decoding..." ++ nl)
     else debugInfo)
  else
    (string_of_list_byte data,
     if verbose
     then Strings.WriteString debugInfo ("Using standard UTF-8 processing" ++ nl)
     else debugInfo).

(** ** Processes and the host *)

(** [syscall.SysProcAttr] (the two fields the code sets) *)
Record SysProcAttr := {
  HideWindow : bool;
  CreationFlags : Z
}.

(** [exec.Cmd]: the name given to [exec.Command], the argument vector
    (the name first) and the process attributes. *)
Record Cmd := {
  Path : string;
  Args : list string;
  Attr : option SysProcAttr
}.

(** [exec.Command(name, arg...)] *)
Definition exec_Command (name : string) (arg : list string) : Cmd :=
  {| Path := name; Args := name :: arg; Attr := None |}.

Definition with_attr (c : Cmd) (a : SysProcAttr) : Cmd :=
  {| Path := Path c; Args := Args c; Attr := Some a |}.

(** What the program observes of its host: [runtime.GOOS], what
    [cmd.CombinedOutput()] returns for a command (the captured bytes
    and the error, if any, as its [Error()] text) and the milliseconds
    [time.Since(start)] reports after it. *)
Record World := {
  GOOS : string;
  CombinedOutput : Cmd -> list byte * option string;
  SinceMs : Cmd -> Z
}.

Record Response := {
  Output : string;
  Error : string;
  Duration : Z;
  Debug : string
}.

Definition set_Error (r : Response) (e : string) : Response :=
  {| Output := Output r; Error := e; Duration := Duration r; Debug := Debug r |}.

Definition set_Debug (r : Response) (d : string) : Response :=
  {| Output := Output r; Error := Error r; Duration := Duration r; Debug := d |}.

(** One run of [executeCommand]: the command handed to the host, the
    trace as it stood after each group of statements, and the
    response. *)
Record Run := {
  run_cmd : Cmd;
  run_trace : list Strings.Builder;
  run_resp : Response
}.

Definition CREATE_NEW_CONSOLE : Z := 0x00000010.

(** [case "powershell", "ps":] *)
Definition is_powershell (t : string) : bool :=
  String.eqb t "powershell" || String.eqb t "ps".

(** [case "wsl":] *)
Definition is_wsl (t : string) : bool := String.eqb t "wsl".

Import Strings.

(** ** encoding/json: decoding an already scanned value

    The scanner of [json.Unmarshal] is outside this development; a line
    is taken together with the value it scans to, if it scans. *)

#[local] Unset Elimination Schemes.
Inductive JSON :=
| JNull
| JBool (b : bool)
| JNumber (literal : string)
| JString (s : string)
| JArray (items : list JSON)
| JObject (members : list (string * JSON)).
#[local] Set Elimination Schemes.

(** Key folding of [encoding/json]: ASCII letters without case, and
    the two letters outside ASCII whose simple case folding reaches an
    ASCII letter, U+017F (bytes C5 BF, folds to s) and U+212A (bytes
    E2 84 AA, folds to k). *)
Fixpoint fold_key_bytes (fuel : nat) (s : list Z) : list Z :=
  match fuel with
  | O => s
  | S fuel' =>
      match s with
      | [] => []
      | 0xC5 :: 0xBF :: t => 0x73 :: fold_key_bytes fuel' t
      | 0xE2 :: 0x84 :: 0xAA :: t => 0x6B :: fold_key_bytes fuel' t
      | c :: t =>
          (if (0x41 <=? c) && (c <=? 0x5A) then c + 0x20 else c)
            :: fold_key_bytes fuel' t
      end
  end.

Definition fold_key (k : string) : string :=
  let bs := bytes_of_string k in
  Utf8.string_of_Zs (fold_key_bytes (List.length bs) bs).

(** Does the object key [k] select the field tagged [name]? (Every
    tag of [Request] is lower-case ASCII.) *)
Definition key_is (k name : string) : bool := String.eqb (fold_key k) name.

(** ** main.go *)

Module MainGo.

Record Request := {
  Command : string;
  Type_ : string;
  Headless : bool;
  Verbose : bool;
  PersistWindow : bool
}.

Definition executeCommand_run (w : World) (req : Request) : Run :=
  let debugInfo0 : Builder := [] in
  let debugInfo1 :=
    if Verbose req then
      WriteString
        (WriteString debugInfo0 ("Executing command: " ++ Command req ++ nl))
        ("Type: " ++ Type_ req ++ ", Headless: " ++ Fmt.verb_t (Headless req)
         ++ ", PersistWindow: " ++ Fmt.verb_t (PersistWindow req) ++ nl)
    else debugInfo0 in
  let cmd0 :=
    if is_powershell (Type_ req) then
      exec_Command "powershell" ["-Command"; Command req]
    else if is_wsl (Type_ req) then
      exec_Command "wsl" ["--"; "bash"; "-c"; Command req]
    else exec_Command "cmd" ["/C"; Command req] in
  let '(cmd1, debugInfo2) :=
    if Headless req then
      (with_attr cmd0 {| HideWindow := true; CreationFlags := 0 |},
       if Verbose req
       then WriteString debugInfo1 ("Running in headless mode (window hidden)" ++ nl)
       else debugInfo1)
    else
      (if String.eqb (GOOS w) "windows" then
         with_attr
           (if is_powershell (Type_ req) then
              exec_Command "powershell" ["-NoExit"; "-Command"; Command req]
            else if is_wsl (Type_ req) then
              exec_Command "cmd" ["/C"; "start"; "wsl"; "--"; "bash"; "-c";
                             Command req ++ "; read -p 'Press Enter to close...'"]
            else exec_Command "cmd" ["/C"; "start"; "cmd"; "/K"; Command req])
           {| HideWindow := false; CreationFlags := CREATE_NEW_CONSOLE |}
       else
         with_attr
           (if is_powershell (Type_ req) then
              exec_Command "pwsh" ["-Command"; Command req]
            else exec_Command "bash" ["-c"; Command req])
           {| HideWindow := false; CreationFlags := 0 |},
       if Verbose req
       then WriteString debugInfo1 ("Running in headed mode (new window created)" ++ nl)
       else debugInfo1) in
  let debugInfo3 :=
    if Verbose req
    then WriteString debugInfo2 ("Command args: " ++ Fmt.verb_v (Args cmd1) ++ nl)
    else debugInfo2 in
  let '(output, err) := CombinedOutput w cmd1 in
  let duration := SinceMs w cmd1 in
  let '(processedOutput, debugInfo4) :=
    processOutput output (Verbose req) debugInfo3 in
  let resp0 :=
    {| Output := TrimSpace processedOutput; Error := EmptyString;
       Duration := duration; Debug := EmptyString |} in
  let '(resp1, debugInfo5) :=
    match err with
    | Some e =>
        (set_Error resp0 e,
         if Verbose req
         then WriteString debugInfo4 ("Command failed with error: " ++ e ++ nl)
         else debugInfo4)
    | None => (resp0, debugInfo4)
    end in
  let '(resp2, debugInfo6) :=
    if Verbose req then
      let d :=
        WriteString debugInfo5
          ("Execution completed in " ++ Fmt.verb_d duration ++ "ms" ++ nl) in
      (set_Debug resp1 (String_ d), d)
    else (resp1, debugInfo5) in
  {| run_cmd := cmd1;
     run_trace := [debugInfo0; debugInfo1; debugInfo2; debugInfo3;
                   debugInfo4; debugInfo5; debugInfo6];
     run_resp := resp2 |}.

Definition executeCommand (w : World) (req : Request) : Response :=
  run_resp (executeCommand_run w req).

Definition set_Command (r : Request) (v : string) : Request :=
  {| Command := v; Type_ := Type_ r; Headless := Headless r;
     Verbose := Verbose r; PersistWindow := PersistWindow r |}.
Definition set_Type (r : Request) (v : string) : Request :=
  {| Command := Command r; Type_ := v; Headless := Headless r;
     Verbose := Verbose r; PersistWindow := PersistWindow r |}.
Definition set_Headless (r : Request) (v : bool) : Request :=
  {| Command := Command r; Type_ := Type_ r; Headless := v;
     Verbose := Verbose r; PersistWindow := PersistWindow r |}.
Definition set_Verbose (r : Request) (v : bool) : Request :=
  {| Command := Command r; Type_ := Type_ r; Headless := Headless r;
     Verbose := v; PersistWindow := PersistWindow r |}.
Definition set_PersistWindow (r : Request) (v : bool) : Request :=
  {| Command := Command r; Type_ := Type_ r; Headless := Headless r;
     Verbose := Verbose r; PersistWindow := v |}.

(** A string field: a JSON string sets it, [null] leaves it, any
    other value is a type error and leaves it. *)
Definition decode_string (set : string -> Request) (r : Request) (v : JSON)
    : Request * bool :=
  match v with
  | JString s => (set s, false)
  | JNull => (r, false)
  | _ => (r, true)
  end.

Definition decode_bool (set : bool -> Request) (r : Request) (v : JSON)
    : Request * bool :=
  match v with
  | JBool b => (set b, false)
  | JNull => (r, false)
  | _ => (r, true)
  end.

(** One member of the object, by the tags of [Request]; a key that
    selects no field is skipped. *)
Definition decode_member (r : Request) (k : string) (v : JSON) : Request * bool :=
  if key_is k "command" then decode_string (set_Command r) r v
  else if key_is k "type" then decode_string (set_Type r) r v
  else if key_is k "headless" then decode_bool (set_Headless r) r v
  else if key_is k "verbose" then decode_bool (set_Verbose r) r v
  else if key_is k "persist_window" then decode_bool (set_PersistWindow r) r v
  else (r, false).

Fixpoint decode_members (ms : list (string * JSON)) (r : Request) (err : bool)
    : Request * bool :=
  match ms with
  | [] => (r, err)
  | (k, v) :: ms' =>
      let '(r', e) := decode_member r k v in
      decode_members ms' r' (err || e)
  end.

(** [json.Unmarshal(line, &req)] on a scanned value: the request as
    decoding leaves it and whether an error is returned. Decoding goes
    on after a type error. *)
Definition Unmarshal (v : JSON) (req : Request) : Request * bool :=
  match v with
  | JNull => (req, false)
  | JObject ms => decode_members ms req false
  | _ => (req, true)
  end.

(** [var req Request] *)
Definition zero_Request : Request :=
  {| Command := EmptyString; Type_ := EmptyString; Headless := false; Verbose := false;
     PersistWindow := false |}.

(** The request [main] builds from a line: [scanned] is the value the
    line scans to, [None] when it is not JSON. *)
Definition request_of_line (line : string) (scanned : option JSON) : Request :=
  let '(req, err) :=
    match scanned with
    | Some v => Unmarshal v zero_Request
    | None => (zero_Request, true)
    end in
  if err then set_Headless (set_Type (set_Command req line) "cmd") true
  else req.

(** One iteration of the loop of [main]: the response printed for
    the line, none for an empty line. *)
Definition main_step (w : World) (line : string) (scanned : option JSON)
    : option Response :=
  if String.eqb line EmptyString then None
  else Some (executeCommand w (request_of_line line scanned)).

End MainGo.

(** ** type.go *)

Module TypeGo.

Record Request := {
  Command : string;
  Type_ : string;
  Headless : bool;
  Verbose : bool
}.

Definition CreateNewConsole : Z := 0x00000010.

Definition executeCommand_run (w : World) (req : Request) : Run :=
  let debugInfo0 : Builder := [] in
  let debugInfo1 :=
    if Verbose req then
      WriteString
        (WriteString debugInfo0 ("Executing command: " ++ Command req ++ nl))
        ("Type: " ++ Type_ req ++ ", Headless: " ++ Fmt.verb_t (Headless req) ++ nl)
    else debugInfo0 in
  let cmd0 :=
    if is_powershell (Type_ req) then
      exec_Command "powershell" ["-Command"; Command req]
    else if is_wsl (Type_ req) then
      exec_Command "wsl" ["--"; "bash"; "-c"; Command req]
    else exec_Command "cmd" ["/C"; Command req] in
  let '(cmd1, debugInfo2) :=
    if Headless req then
      (with_attr cmd0 {| HideWindow := true; CreationFlags := 0 |},
       if Verbose req
       then WriteString debugInfo1 ("Running in headless mode (window hidden)" ++ nl)
       else debugInfo1)
    else
      (if String.eqb (GOOS w) "windows" then
         with_attr
           (if is_powershell (Type_ req) then
              exec_Command "powershell" ["-NoExit"; "-Command"; Command req]
            else if is_wsl (Type_ req) then
              exec_Command "cmd" ["/C"; "start"; "wsl"; "--"; "bash"; "-c";
                             Command req ++ "; read -p 'Press Enter to close...'"]
            else exec_Command "cmd" ["/C"; "start"; "cmd"; "/K"; Command req])
           {| HideWindow := false; CreationFlags := CreateNewConsole |}
       else
         with_attr
           (if is_powershell (Type_ req) then
              exec_Command "pwsh" ["-Command"; Command req]
            else exec_Command "bash" ["-c"; Command req])
           {| HideWindow := false; CreationFlags := 0 |},
       if Verbose req
       then WriteString debugInfo1 ("Running in headed mode (new window created)" ++ nl)
       else debugInfo1) in
  let debugInfo3 :=
    if Verbose req
    then WriteString debugInfo2 ("Command args: " ++ Fmt.verb_v (Args cmd1) ++ nl)
    else debugInfo2 in
  let '(output, err) := CombinedOutput w cmd1 in
  let duration := SinceMs w cmd1 in
  let resp0 :=
    {| Output := TrimSpace (string_of_list_byte output); Error := EmptyString;
       Duration := duration; Debug := EmptyString |} in
  let '(resp1, debugInfo4) :=
    match err with
    | Some e =>
        (set_Error resp0 e,
         if Verbose req
         then WriteString debugInfo3 ("Command failed with error: " ++ e ++ nl)
         else debugInfo3)
    | None => (resp0, debugInfo3)
    end in
  let '(resp2, debugInfo5) :=
    if Verbose req then
      let d :=
        WriteString debugInfo4
          ("Execution completed in " ++ Fmt.verb_d duration ++ "ms" ++ nl) in
      (set_Debug resp1 (String_ d), d)
    else (resp1, debugInfo4) in
  {| run_cmd := cmd1;
     run_trace := [debugInfo0; debugInfo1; debugInfo2; debugInfo3;
                   debugInfo4; debugInfo5];
     run_resp := resp2 |}.

Definition executeCommand (w : World) (req : Request) : Response :=
  run_resp (executeCommand_run w req).

Definition set_Command (r : Request) (v : string) : Request :=
  {| Command := v; Type_ := Type_ r; Headless := Headless r; Verbose := Verbose r |}.
Definition set_Type (r : Request) (v : string) : Request :=
  {| Command := Command r; Type_ := v; Headless := Headless r; Verbose := Verbose r |}.
Definition set_Headless (r : Request) (v : bool) : Request :=
  {| Command := Command r; Type_ := Type_ r; Headless := v; Verbose := Verbose r |}.
Definition set_Verbose (r : Request) (v : bool) : Request :=
  {| Command := Command r; Type_ := Type_ r; Headless := Headless r; Verbose := v |}.

(** A string field: a JSON string sets it, [null] leaves it, any
    other value is a type error and leaves it. *)
Definition decode_string (set : string -> Request) (r : Request) (v : JSON)
    : Request * bool :=
  match v with
  | JString s => (set s, false)
  | JNull => (r, false)
  | _ => (r, true)
  end.

Definition decode_bool (set : bool -> Request) (r : Request) (v : JSON)
    : Request * bool :=
  match v with
  | JBool b => (set b, false)
  | JNull => (r, false)
  | _ => (r, true)
  end.

(** One member of the object, by the four tags of this [Request]; a
    key that selects no field, [persist_window] among them, is
    skipped. *)
Definition decode_member (r : Request) (k : string) (v : JSON) : Request * bool :=
  if key_is k "command" then decode_string (set_Command r) r v
  else if key_is k "type" then decode_string (set_Type r) r v
  else if key_is k "headless" then decode_bool (set_Headless r) r v
  else if key_is k "verbose" then decode_bool (set_Verbose r) r v
  else (r, false).

Fixpoint decode_members (ms : list (string * JSON)) (r : Request) (err : bool)
    : Request * bool :=
  match ms with
  | [] => (r, err)
  | (k, v) :: ms' =>
      let '(r', e) := decode_member r k v in
      decode_members ms' r' (err || e)
  end.

(** [json.Unmarshal(line, &req)] on a scanned value *)
Definition Unmarshal (v : JSON) (req : Request) : Request * bool :=
  match v with
  | JNull => (req, false)
  | JObject ms => decode_members ms req false
  | _ => (req, true)
  end.

(** [var req Request] *)
Definition zero_Request : Request :=
  {| Command := EmptyString; Type_ := EmptyString; Headless := false;
     Verbose := false |}.

(** The request [main] builds from a line: [scanned] is the value the
    line scans to, [None] when it is not JSON. *)
Definition request_of_line (line : string) (scanned : option JSON) : Request :=
  let '(req, err) :=
    match scanned with
    | Some v => Unmarshal v zero_Request
    | None => (zero_Request, true)
    end in
  if err then set_Headless (set_Type (set_Command req line) "cmd") true
  else req.

(** One iteration of the loop of [main] *)
Definition main_step (w : World) (line : string) (scanned : option JSON)
    : option Response :=
  if String.eqb line EmptyString then None
  else Some (executeCommand w (request_of_line line scanned)).

End TypeGo.

(** ** Reference definitions, after the words of the specification *)

(** "count bytes at odd positions (0-indexed) that are zero" *)
Definition zero_odd_count (data : list byte) : Z :=
  Z.of_nat
    (List.length
       (filter (fun i => Nat.odd i && Byte.eqb (at_ data i) x00)
          (seq 0 (List.length data)))).

(** "ratio = zero-odd-byte-count / (length/2)" *)
Definition odd_zero_ratio (data : list byte) : Q :=
  (inject_Z (zero_odd_count data) / inject_Z (len data / 2))%Q.

(** The three steps of the detection heuristic, the ratio compared
    with 3/10 as a rational number. *)
Definition is_utf16_ref (data : list byte) : bool :=
  match data with
  | b0 :: b1 :: _ =>
      if (Byte.eqb b0 xff && Byte.eqb b1 xfe) || (Byte.eqb b0 xfe && Byte.eqb b1 xff)
      then true
      else if Z.even (len data) && (10 <? len data)
      then negb (Qle_bool (odd_zero_ratio data) (3 # 10))
      else false
  | _ => false
  end.

(** UTF-16 code units of a code point: itself in the basic plane, a
    surrogate pair beyond it. *)
Definition utf16_units (c : Z) : list Z :=
  if c <? 0x10000 then [c]
  else [0xD800 + Z.shiftr (c - 0x10000) 10; 0xDC00 + Z.land (c - 0x10000) 0x3FF].

Definition utf16_encode (text : list Z) : list Z := flat_map utf16_units text.

(** The two bytes of a code unit, low byte first ([true]) or high byte
    first. *)
Definition unit_bytes (littleEndian : bool) (u : Z) : list byte :=
  if littleEndian then [byte_of_Z u; byte_of_Z (Z.shiftr u 8)]
  else [byte_of_Z (Z.shiftr u 8); byte_of_Z u].

Definition utf16_bytes (littleEndian : bool) (text : list Z) : list byte :=
  flat_map (unit_bytes littleEndian) (utf16_encode text).

(** A Unicode scalar value: a code point that is no surrogate. *)
Definition scalar_value (c : Z) : Prop :=
  (0 <= c < 0xD800) \/ (0xE000 <= c <= 0x10FFFF).

(** A text is a sequence of scalar values; as a Go string it is its
    UTF-8 encoding. *)
Definition go_string (text : list Z) : string := Utf8.string_of_runes text.

(** "normalize(bytes) -> text": the text [processOutput] returns. *)
Definition normalized (data : list byte) : string :=
  if isUTF16 data then decodeUTF16 data else string_of_list_byte data.

(** Do the bytes start with FF FE or FE FF? *)
Definition has_bom (data : list byte) : bool :=
  match data with
  | b0 :: b1 :: _ =>
      (Byte.eqb b0 xff && Byte.eqb b1 xfe) || (Byte.eqb b0 xfe && Byte.eqb b1 xff)
  | _ => false
  end.

(** The bytes that remain once a leading byte-order mark is removed. *)
Definition strip_bom (data : list byte) : list byte :=
  if has_bom data then skipn 2 data else data.

(** ** Definitions used by the statements *)

(** The command [executeCommand] hands to the host, by interpreter
    kind, headless flag and host. *)
Definition dispatch (goos t c : string) (headless : bool) : Cmd :=
  if headless then
    with_attr
      (if is_powershell t then exec_Command "powershell" ["-Command"; c]
       else if is_wsl t then exec_Command "wsl" ["--"; "bash"; "-c"; c]
       else exec_Command "cmd" ["/C"; c])
      {| HideWindow := true; CreationFlags := 0 |}
  else if String.eqb goos "windows" then
    with_attr
      (if is_powershell t then exec_Command "powershell" ["-NoExit"; "-Command"; c]
       else if is_wsl t then
         exec_Command "cmd" ["/C"; "start"; "wsl"; "--"; "bash"; "-c";
                             c ++ "; read -p 'Press Enter to close...'"]
       else exec_Command "cmd" ["/C"; "start"; "cmd"; "/K"; c])
      {| HideWindow := false; CreationFlags := 0x10 |}
  else
    with_attr
      (if is_powershell t then exec_Command "pwsh" ["-Command"; c]
       else exec_Command "bash" ["-c"; c])
      {| HideWindow := false; CreationFlags := 0 |}.

(** The text of the error the host reported, empty when there was none *)
Definition error_text (err : option string) : string :=
  match err with Some e => e | None => EmptyString end.

(** A host that answers every command with the same bytes, error and
    elapsed time. *)
Definition fixed_host (goos : string) (captured : list byte)
    (err : option string) (ms : Z) : World :=
  {| GOOS := goos; CombinedOutput := fun _ => (captured, err);
     SinceMs := fun _ => ms |}.

(** C2 as the specification words it: [cmd /C <command>] on Windows and
    [bash -c <command>] on every other host. *)
Definition default_shell_as_specified (w : World) (req : MainGo.Request) : Prop :=
  Args (run_cmd (MainGo.executeCommand_run w req))
  = if String.eqb (GOOS w) "windows" then ["cmd"; "/C"; MainGo.Command req]
    else ["bash"; "-c"; MainGo.Command req].

(** Does some member of the object select the field tagged [name]? *)
Definition has_key (name : string) (ms : list (string * JSON)) : bool :=
  existsb (fun kv => key_is (fst kv) name) ms.

(** C1 as the specification words it, for the members [ms] of a request
    object that has neither a [type] nor a [headless] key: the request
    is dispatched and answered as the one with ["type": "cmd"] and
    ["headless": true] added. *)
Definition omitted_as_cmd_headless (w : World) (line line' : string)
    (ms : list (string * JSON)) : Prop :=
  let r := MainGo.request_of_line line (Some (JObject ms)) in
  let r' :=
    MainGo.request_of_line line'
      (Some (JObject (ms ++ [("type", JString "cmd"); ("headless", JBool true)]))) in
  run_cmd (MainGo.executeCommand_run w r) = run_cmd (MainGo.executeCommand_run w r')
  /\ MainGo.executeCommand w r = MainGo.executeCommand w r'.

(** The double quote character *)
Definition dq : string := String (ascii_of_byte x22) EmptyString.

(** A request line with the key [command] only, the same line with
    the key [type] added, and with the keys [type] and [headless]
    added. *)
Definition line_plain : string :=
  "{" ++ dq ++ "command" ++ dq ++ ":" ++ dq ++ "echo hi" ++ dq ++ "}".


Definition line_typed : string :=
  "{" ++ dq ++ "command" ++ dq ++ ":" ++ dq ++ "echo hi" ++ dq ++ ","
  ++ dq ++ "type" ++ dq ++ ":" ++ dq ++ "cmd" ++ dq ++ "}".

Definition line_explicit : string :=
  "{" ++ dq ++ "command" ++ dq ++ ":" ++ dq ++ "echo hi" ++ dq ++ ","
  ++ dq ++ "type" ++ dq ++ ":" ++ dq ++ "cmd" ++ dq ++ ","
  ++ dq ++ "headless" ++ dq ++ ":true}".

(** A value of a [uint16] *)
Definition unit_ok (u : Z) : Prop := 0 <= u < 65536.

(** A value of a [byte] *)
Definition byte_ok (z : Z) : Prop := 0 <= z < 256.

(** What [decodeUTF16] does with the bytes that follow the mark, or
    with all bytes when there is none. *)
Definition decode_units (littleEndian : bool) (data : list byte) : string :=
  if negb (len data mod 2 =? 0) then string_of_list_byte data
  else
    Utf8.string_of_runes
      (Utf16.Decode
         (map (code_unit littleEndian data) (seq 0 (Z.to_nat (len data / 2))))).

(** Does the text begin with U+FEFF or U+FFFE, whose little-endian
    bytes are those of a byte-order mark? *)
Definition starts_with_mark (text : list Z) : bool :=
  match text with
  | c :: _ => (c =? 0xFEFF) || (c =? 0xFFFE)
  | [] => false
  end.

(** A text with a letter, a code point beyond the basic plane and a
    Latin-1 letter: U+0041, U+1D11E, U+00E9. *)
Definition sample_text : list Z := [0x41; 0x1D11E; 0xE9].

(** The mantissa of [Float64.c0_3]; ten times it is [3 * 2^54 - 2]. *)
Definition C03 : Z := 5404319552844595.

(** Rounding to nearest, ties to even, as [binary_round_aux] does it *)
Definition rne := round_nearest_even.

(** The sticky bit a location leaves behind after a shift *)
Definition sticky (l : location) : bool :=
  match l with loc_Exact => false | _ => true end.

(** The location read off a round bit and a sticky bit *)
Definition loc2 (rb sb : bool) : location :=
  loc_of_shr_record {| shr_m := 0; shr_r := rb; shr_s := sb |}.

(** Where a quotient with remainder [r0] by [m] lies between two
    integers *)
Definition loc0 (r0 m : Z) : location :=
  if r0 =? 0 then loc_Exact else loc_Inexact (2 * r0 ?= m).

(** The test the specification words: an odd position holding zero *)
Definition odd_zero (data : list byte) (i : nat) : bool :=
  Nat.odd i && Byte.eqb (at_ data i) x00.

(** The bytes of "hello!" in UTF-16, little-endian, without a mark *)
Definition sample_utf16 : list byte :=
  [x68; x00; x65; x00; x6c; x00; x6c; x00; x6f; x00; x21; x00].

(** The three invocations of a default shell for the command [c]:
    hidden [cmd], [cmd] in a console of its own, and [bash]. *)
Definition default_shells (c : string) : list (list string) :=
  [["cmd"; "/C"; c]; ["cmd"; "/C"; "start"; "cmd"; "/K"; c]; ["bash"; "-c"; c]].

(** A white-space character: the code points with the Unicode
    property White_Space *)
Definition white_space (c : Z) : Prop :=
  9 <= c <= 13 \/ c = 0x20 \/ c = 0x85 \/ c = 0xA0 \/ c = 0x1680
  \/ 0x2000 <= c <= 0x200A \/ c = 0x2028 \/ c = 0x2029 \/ c = 0x202F
  \/ c = 0x205F \/ c = 0x3000.

(** A well-formed UTF-8 sequence and the code point it stands for *)
Inductive utf8_seq : list Z -> Z -> Prop :=
| utf8_seq_1 (c : Z) : 0 <= c < 0x80 -> utf8_seq [c] c
| utf8_seq_2 (y x : Z) :
    2 <= y < 32 -> 0 <= x < 64 -> utf8_seq [0xC0 + y; 0x80 + x] (y * 64 + x)
| utf8_seq_3 (z y x : Z) :
    0 <= z < 16 -> 0 <= y < 64 -> 0 <= x < 64 ->
    (z = 0 -> 32 <= y) -> (z = 13 -> y < 32) ->
    utf8_seq [0xE0 + z; 0x80 + y; 0x80 + x] (z * 4096 + y * 64 + x)
| utf8_seq_4 (w z y x : Z) :
    0 <= w <= 4 -> 0 <= z < 64 -> 0 <= y < 64 -> 0 <= x < 64 ->
    (w = 0 -> 16 <= z) -> (w = 4 -> z < 16) ->
    utf8_seq [0xF0 + w; 0x80 + z; 0x80 + y; 0x80 + x]
      (w * 262144 + z * 4096 + y * 64 + x).

(** Bytes that are white space only: the UTF-8 of white-space
    characters, one after the other *)
Definition blank_bytes (l : list Z) : Prop :=
  exists cs, Forall white_space cs /\ l = flat_map Utf8.encoderune cs.

(** The bytes do not begin with a white-space character. *)
Definition no_space_first (t : list Z) : Prop :=
  forall c rest, white_space c -> t <> (Utf8.encoderune c ++ rest)%list.

(** The bytes do not end with a white-space character. *)
Definition no_space_last (t : list Z) : Prop :=
  forall c pre, white_space c -> t <> (pre ++ Utf8.encoderune c)%list.

(** A string of white space only *)
Definition blank (s : string) : Prop :=
  exists cs, Forall white_space cs /\ s = go_string cs.

(** [t] is [s] with the white space at its two ends removed: what is
    cut off on either side is white space only, and [t] neither begins
    nor ends with a white-space character. *)
Definition trimmed_of (s t : string) : Prop :=
  (exists l r, s = l ++ t ++ r /\ blank l /\ blank r)
  /\ (forall c rest, white_space c -> t <> go_string [c] ++ rest)
  /\ (forall c pre, white_space c -> t <> pre ++ go_string [c]).

(** UTF-16 decoding of a sequence of code units: a code unit outside
    the surrogate range stands for itself, a high surrogate followed
    by a low surrogate for the code point beyond the basic plane that
    the pair encodes, and every other surrogate for U+FFFD. *)
Inductive utf16_decodes : list Z -> list Z -> Prop :=
| utf16_decodes_nil : utf16_decodes [] []
| utf16_decodes_unit (u : Z) (us cs : list Z) :
    u < 0xD800 \/ 0xE000 <= u ->
    utf16_decodes us cs -> utf16_decodes (u :: us) (u :: cs)
| utf16_decodes_pair (hi lo : Z) (us cs : list Z) :
    0xD800 <= hi < 0xDC00 -> 0xDC00 <= lo < 0xE000 ->
    utf16_decodes us cs ->
    utf16_decodes (hi :: lo :: us)
      (0x10000 + (hi - 0xD800) * 0x400 + (lo - 0xDC00) :: cs)
| utf16_decodes_lone (u : Z) (us cs : list Z) :
    0xD800 <= u < 0xE000 ->
    match us with
    | lo :: _ => ~ (u < 0xDC00 /\ 0xDC00 <= lo < 0xE000)
    | [] => True
    end ->
    utf16_decodes us cs -> utf16_decodes (u :: us) (0xFFFD :: cs).

(** Do the bytes start with the big-endian mark FE FF? *)
Definition big_endian_mark (data : list byte) : bool :=
  match data with
  | b0 :: b1 :: _ => Byte.eqb b0 xfe && Byte.eqb b1 xff
  | _ => false
  end.

(** "decode_utf16(bytes) -> text" in the words of the specification:
    a leading mark is stripped and fixes the byte order, little-endian
    without one; an odd remainder is text as it is; otherwise the
    bytes are paired into code units, which are decoded as UTF-16. *)
Definition utf16_text (data : list byte) (text : string) : Prop :=
  let rest := strip_bom data in
  if Z.odd (len rest) then text = string_of_list_byte rest
  else
    exists units cs : list Z,
      Forall unit_ok units
      /\ rest = flat_map (unit_bytes (negb (big_endian_mark data))) units
      /\ utf16_decodes units cs
      /\ text = go_string cs.

(** "normalize(bytes) -> text" in the words of the specification:
    bytes classified as UTF-16 are decoded, all others are text as
    they are. *)
Definition normalized_ref (data : list byte) (text : string) : Prop :=
  if is_utf16_ref data then utf16_text data text
  else text = string_of_list_byte data.

(** The bytes of " hi", a carriage return and a line feed in UTF-16,
    little-endian, after the mark FF FE *)
Definition sample_marked : list byte :=
  [xff; xfe; x20; x00; x68; x00; x69; x00; x0d; x00; x0a; x00].

(** ** Definitions used by the further properties *)

(** A request of [main.go] read as a request of [type.go]. *)
Definition forget (r : MainGo.Request) : TypeGo.Request :=
  {| TypeGo.Command := MainGo.Command r; TypeGo.Type_ := MainGo.Type_ r;
     TypeGo.Headless := MainGo.Headless r; TypeGo.Verbose := MainGo.Verbose r |}.

(** The members of a scanned line, none for a line that is no object. *)
Definition members_of (scanned : option JSON) : list (string * JSON) :=
  match scanned with
  | Some (JObject ms) => ms
  | _ => []
  end.

(** Every trace in the list extends the one before it. *)
Fixpoint growing (l : list Builder) : Prop :=
  match l with
  | a :: (b :: _) as rest => (exists tail, b = (a ++ tail)%list) /\ growing rest
  | _ => True
  end.

(** [s] contains [sub]. *)
Definition contains (s sub : string) : Prop :=
  exists pre post, s = pre ++ sub ++ post.

(** [s] ends with [suffix]. *)
Definition ends_with (s suffix : string) : Prop :=
  exists pre, s = pre ++ suffix.

(** What headed WSL on Windows appends to the command *)
Definition pause_suffix : string := "; read -p 'Press Enter to close...'".

(** The program names [executeCommand] can hand to [exec.Command] *)
Definition known_programs : list string :=
  ["cmd"; "powershell"; "wsl"; "bash"; "pwsh"].

(** Every byte pair with its two bytes exchanged; a last single byte
    stays. *)
Fixpoint swap_pairs (data : list byte) : list byte :=
  match data with
  | a :: b :: rest => b :: a :: swap_pairs rest
  | _ => data
  end.

(** An ASCII white space byte: tab, line feed, vertical tab, form feed,
    carriage return or space. *)
Definition space_byte (b : byte) : bool := asciiSpace (u8 b).

(** A byte below 0x80 *)
Definition ascii_byte (b : byte) : bool := u8 b <? 0x80.

(** No byte at an odd position is zero. *)
Definition no_odd_zero (data : list byte) : Prop :=
  forall i : nat,
    Nat.odd i = true -> (i < List.length data)%nat -> at_ data i <> x00.

(** A code point of Latin-1 *)
Definition latin1 (c : Z) : Prop := 0 <= c < 256.

(** The line [{"command": 5, "verbose": true}], a number where a
    string is expected *)
Definition line_bad_command : string :=
  "{" ++ dq ++ "command" ++ dq ++ ": 5, " ++ dq ++ "verbose" ++ dq ++ ": true}".

(** The bytes of "hello world" and a line feed *)
Definition sample_ascii : list byte :=
  [x68; x65; x6c; x6c; x6f; x20; x77; x6f; x72; x6c; x64; x0a].

(** The text "hello!" *)
Definition sample_latin1 : list Z := [0x68; 0x65; 0x6c; 0x6c; 0x6f; 0x21].

(** The bytes from the first one that is no white space on *)
Fixpoint drop_spaces (l : list byte) : list byte :=
  match l with
  | [] => []
  | b :: t => if space_byte b then drop_spaces t else l
  end.

(** A request line that names the kind under the key [TYPE] *)
Definition line_ps : string :=
  "{" ++ dq ++ "command" ++ dq ++ ":" ++ dq ++ "dir" ++ dq ++ ","
  ++ dq ++ "TYPE" ++ dq ++ ":" ++ dq ++ "ps" ++ dq ++ "}".

(** * Properties *)

(** ** Strings and the trace *)

Lemma append_empty_r (s : string) : s ++ EmptyString = s.
Proof. induction s as [|a s IH]; simpl; [reflexivity | now rewrite IH]. Qed.

Lemma append_assoc (s t u : string) : (s ++ t) ++ u = s ++ (t ++ u).
Proof. induction s as [|a s IH]; simpl; [reflexivity | now rewrite IH]. Qed.

Lemma concat_empty_cons (x : string) (l : list string) :
  String.concat EmptyString (x :: l) = x ++ String.concat EmptyString l.
Proof.
  destruct l as [|y l]; simpl.
  - now rewrite append_empty_r.
  - reflexivity.
Qed.

Lemma String_WriteString (b : Builder) (s : string) :
  String_ (WriteString b s) = String_ b ++ s.
Proof.
  unfold String_, WriteString.
  induction b as [|x b IH].
  - simpl. reflexivity.
  - change ((x :: b) ++ [s])%list with (x :: (b ++ [s]))%list.
    rewrite !concat_empty_cons, IH, append_assoc. reflexivity.
Qed.

Lemma append_not_empty (s t : string) : s <> EmptyString -> s ++ t <> EmptyString.
Proof. destruct s; simpl; [congruence | discriminate]. Qed.

(** ** The normaliser *)

Lemma isUTF16_nil : isUTF16 [] = false.
Proof. reflexivity. Qed.

Lemma len_zero (data : list byte) : (len data =? 0) = true -> data = [].
Proof.
  unfold len. destruct data; [reflexivity | ].
  intros H. apply Z.eqb_eq in H. simpl List.length in H. lia.
Qed.

Lemma processOutput_text (data : list byte) (verbose : bool) (b : Builder) :
  fst (processOutput data verbose b) = normalized data.
Proof.
  unfold processOutput, normalized.
  destruct (len data =? 0) eqn:E.
  - apply len_zero in E. subst data. reflexivity.
  - destruct (isUTF16 data); reflexivity.
Qed.

Lemma processOutput_quiet (data : list byte) (b : Builder) :
  snd (processOutput data false b) = b.
Proof.
  unfold processOutput.
  destruct (len data =? 0); [reflexivity | ].
  destruct (isUTF16 data); reflexivity.
Qed.

Lemma processOutput_grows (data : list byte) (verbose : bool) (b : Builder) :
  exists tail, snd (processOutput data verbose b) = (b ++ tail)%list.
Proof.
  unfold processOutput, WriteString.
  destruct (len data =? 0); [exists []; now rewrite app_nil_r | ].
  destruct (isUTF16 data), verbose; simpl;
    solve [eexists; reflexivity | exists []; now rewrite app_nil_r].
Qed.

(** ** The dispatcher as a decision table *)

Section Executor.

(** The host the program runs on *)
Variable w : World.

Ltac run_cases req w :=
  destruct (CombinedOutput w _) as [?out [?e|]];
  try (destruct (processOutput _ _ _) as [?text ?dbg] eqn:?);
  cbn [run_cmd run_resp run_trace Output Error Duration Debug set_Error set_Debug
       fst snd error_text].

Lemma MainGo_run_cmd (req : MainGo.Request) :
  run_cmd (MainGo.executeCommand_run w req)
  = dispatch (GOOS w) (MainGo.Type_ req) (MainGo.Command req) (MainGo.Headless req).
Proof.
  unfold MainGo.executeCommand_run, dispatch.
  destruct (MainGo.Headless req), (MainGo.Verbose req); cbv zeta;
    run_cases req w; reflexivity.
Qed.

Lemma TypeGo_run_cmd (req : TypeGo.Request) :
  run_cmd (TypeGo.executeCommand_run w req)
  = dispatch (GOOS w) (TypeGo.Type_ req) (TypeGo.Command req) (TypeGo.Headless req).
Proof.
  unfold TypeGo.executeCommand_run, dispatch.
  destruct (TypeGo.Headless req), (TypeGo.Verbose req); cbv zeta;
    run_cases req w; reflexivity.
Qed.

(** The three fields of the response that do not depend on [verbose] *)
Lemma MainGo_response_fields (req : MainGo.Request) :
  let cmd := dispatch (GOOS w) (MainGo.Type_ req) (MainGo.Command req)
               (MainGo.Headless req) in
  let resp := MainGo.executeCommand w req in
  Output resp = TrimSpace (normalized (fst (CombinedOutput w cmd)))
  /\ Error resp = error_text (snd (CombinedOutput w cmd))
  /\ Duration resp = SinceMs w cmd.
Proof.
  cbv zeta. unfold MainGo.executeCommand, MainGo.executeCommand_run, dispatch.
  destruct (MainGo.Headless req), (MainGo.Verbose req); cbv zeta;
    run_cases req w;
    match goal with
    | H : processOutput ?o ?v ?b = (?t, _) |- _ =>
        pose proof (processOutput_text o v b) as Ht; rewrite H in Ht;
        cbn [fst] in Ht; subst t
    end; repeat split; reflexivity.
Qed.

Lemma TypeGo_response_fields (req : TypeGo.Request) :
  let cmd := dispatch (GOOS w) (TypeGo.Type_ req) (TypeGo.Command req)
               (TypeGo.Headless req) in
  let resp := TypeGo.executeCommand w req in
  Output resp = TrimSpace (string_of_list_byte (fst (CombinedOutput w cmd)))
  /\ Error resp = error_text (snd (CombinedOutput w cmd))
  /\ Duration resp = SinceMs w cmd.
Proof.
  cbv zeta. unfold TypeGo.executeCommand, TypeGo.executeCommand_run, dispatch.
  destruct (TypeGo.Headless req), (TypeGo.Verbose req); cbv zeta;
    run_cases req w; repeat split; reflexivity.
Qed.

Lemma MainGo_quiet_debug (req : MainGo.Request) :
  MainGo.Verbose req = false -> Debug (MainGo.executeCommand w req) = EmptyString.
Proof.
  intros Hv. unfold MainGo.executeCommand, MainGo.executeCommand_run.
  rewrite Hv. destruct (MainGo.Headless req); cbv zeta;
    run_cases req w; reflexivity.
Qed.

Lemma TypeGo_quiet_debug (req : TypeGo.Request) :
  TypeGo.Verbose req = false -> Debug (TypeGo.executeCommand w req) = EmptyString.
Proof.
  intros Hv. unfold TypeGo.executeCommand, TypeGo.executeCommand_run.
  rewrite Hv. destruct (TypeGo.Headless req); cbv zeta;
    run_cases req w; reflexivity.
Qed.

Lemma Response_ext (r1 r2 : Response) :
  Output r1 = Output r2 -> Error r1 = Error r2 -> Duration r1 = Duration r2 ->
  Debug r1 = Debug r2 -> r1 = r2.
Proof. destruct r1, r2; simpl; intros; subst; reflexivity. Qed.

(** ** C6: the trace follows [verbose] *)

Lemma MainGo_quiet_trace (req : MainGo.Request) :
  MainGo.Verbose req = false ->
  Forall (fun b : Builder => b = []) (run_trace (MainGo.executeCommand_run w req)).
Proof.
  intros Hv. unfold MainGo.executeCommand_run. rewrite Hv.
  destruct (MainGo.Headless req); cbv zeta; run_cases req w;
    match goal with
    | H : processOutput ?o false ?b = (_, ?d) |- _ =>
        pose proof (processOutput_quiet o b) as Hq; rewrite H in Hq;
        cbn [snd] in Hq; subst d
    end; repeat constructor.
Qed.

Lemma MainGo_verbose_debug (req : MainGo.Request) :
  MainGo.Verbose req = true ->
  exists post,
    Debug (MainGo.executeCommand w req)
    = "Executing command: " ++ MainGo.Command req ++ post.
Proof.
  intros Hv. unfold MainGo.executeCommand, MainGo.executeCommand_run.
  rewrite Hv. cbv zeta.
  destruct (MainGo.Headless req); run_cases req w;
    match goal with
    | H : processOutput ?o true ?b = (_, ?d) |- _ =>
        destruct (processOutput_grows o true b) as [tl Htl]; rewrite H in Htl;
        cbn [snd] in Htl; subst d
    end;
    unfold WriteString; cbn [app];
    rewrite concat_empty_cons, !append_assoc;
    eexists; reflexivity.
Qed.

(** C6. With [verbose] off the response carries an empty [Debug] and
    the trace is empty after every group of statements of
    [executeCommand] (nothing is ever written to it); with [verbose] on
    [Debug] is not empty and contains the command text of the request
    as it was given. *)
Theorem C6_debug_follows_verbose (req : MainGo.Request) :
  if MainGo.Verbose req then
    Debug (MainGo.executeCommand w req) <> EmptyString
    /\ exists pre post,
         Debug (MainGo.executeCommand w req) = pre ++ MainGo.Command req ++ post
  else
    Debug (MainGo.executeCommand w req) = EmptyString
    /\ Forall (fun b : Builder => b = []) (run_trace (MainGo.executeCommand_run w req)).
Proof.
  destruct (MainGo.Verbose req) eqn:Hv.
  - destruct (MainGo_verbose_debug req Hv) as [post Hd]. split.
    + rewrite Hd. discriminate.
    + exists "Executing command: ", post. exact Hd.
  - split.
    + now apply MainGo_quiet_debug.
    + now apply MainGo_quiet_trace.
Qed.

(** ** C7: errors of the host end in the response *)

(** C7. Whatever the host reports for the command, [executeCommand]
    returns a response, in [main.go] and in [type.go] alike: its
    [Error] is the text of the reported error (empty when none was
    reported), and [Output] and [Duration] are determined by the
    captured bytes and the clock alone, so they are the same with and
    without an error. *)
Theorem C7_error_is_captured (req : MainGo.Request)
    (req' : TypeGo.Request) :
  (let cmd := run_cmd (MainGo.executeCommand_run w req) in
   let resp := MainGo.executeCommand w req in
   Error resp = error_text (snd (CombinedOutput w cmd))
   /\ Output resp = TrimSpace (normalized (fst (CombinedOutput w cmd)))
   /\ Duration resp = SinceMs w cmd)
  /\
  (let cmd := run_cmd (TypeGo.executeCommand_run w req') in
   let resp := TypeGo.executeCommand w req' in
   Error resp = error_text (snd (CombinedOutput w cmd))
   /\ Output resp = TrimSpace (string_of_list_byte (fst (CombinedOutput w cmd)))
   /\ Duration resp = SinceMs w cmd).
Proof.
  cbv zeta. rewrite MainGo_run_cmd, TypeGo_run_cmd.
  destruct (MainGo_response_fields req) as (Ho & He & Hd).
  destruct (TypeGo_response_fields req') as (Ho' & He' & Hd').
  cbv zeta in *. repeat split; assumption.
Qed.

(** ** C9: PersistWindow does not interfere *)

(** C9. Two requests that differ in [PersistWindow] only are handed to
    the host as the same command (name, arguments and window
    attributes) and get the same [Output], [Error] and [Duration]; with
    [verbose] off the whole responses are equal. *)
Theorem C9_persist_window_noninterference (c t : string)
    (headless verbose p1 p2 : bool) :
  let req v p :=
    {| MainGo.Command := c; MainGo.Type_ := t; MainGo.Headless := headless;
       MainGo.Verbose := v; MainGo.PersistWindow := p |} in
  run_cmd (MainGo.executeCommand_run w (req verbose p1))
  = run_cmd (MainGo.executeCommand_run w (req verbose p2))
  /\ Output (MainGo.executeCommand w (req verbose p1))
     = Output (MainGo.executeCommand w (req verbose p2))
  /\ Error (MainGo.executeCommand w (req verbose p1))
     = Error (MainGo.executeCommand w (req verbose p2))
  /\ Duration (MainGo.executeCommand w (req verbose p1))
     = Duration (MainGo.executeCommand w (req verbose p2))
  /\ MainGo.executeCommand w (req false p1) = MainGo.executeCommand w (req false p2).
Proof.
  intros req.
  assert (Hf : forall v,
             Output (MainGo.executeCommand w (req v p1))
             = Output (MainGo.executeCommand w (req v p2))
             /\ Error (MainGo.executeCommand w (req v p1))
                = Error (MainGo.executeCommand w (req v p2))
             /\ Duration (MainGo.executeCommand w (req v p1))
                = Duration (MainGo.executeCommand w (req v p2))).
  { intros v.
    destruct (MainGo_response_fields (req v p1)) as (Ho1 & He1 & Hd1).
    destruct (MainGo_response_fields (req v p2)) as (Ho2 & He2 & Hd2).
    cbv zeta in *. rewrite Ho1, Ho2, He1, He2, Hd1, Hd2. repeat split. }
  split; [rewrite !MainGo_run_cmd; reflexivity | ].
  destruct (Hf verbose) as (Ho & He & Hd).
  split; [exact Ho | split; [exact He | split; [exact Hd | ]]].
  destruct (Hf false) as (Ho' & He' & Hd').
  apply Response_ext; try assumption.
  rewrite !MainGo_quiet_debug; reflexivity.
Qed.

(** ** C10: main.go against type.go *)

(** C10. With [verbose] off and captured bytes that [isUTF16] does not
    classify as UTF-16, [executeCommand] of [main.go] and of [type.go]
    hand the same command to the host and return equal responses. *)
Theorem C10_variants_agree (c t : string) (headless p : bool) :
  let req :=
    {| MainGo.Command := c; MainGo.Type_ := t; MainGo.Headless := headless;
       MainGo.Verbose := false; MainGo.PersistWindow := p |} in
  let req' :=
    {| TypeGo.Command := c; TypeGo.Type_ := t; TypeGo.Headless := headless;
       TypeGo.Verbose := false |} in
  isUTF16 (fst (CombinedOutput w (run_cmd (TypeGo.executeCommand_run w req')))) = false ->
  run_cmd (MainGo.executeCommand_run w req) = run_cmd (TypeGo.executeCommand_run w req')
  /\ MainGo.executeCommand w req = TypeGo.executeCommand w req'.
Proof.
  intros req req'. rewrite MainGo_run_cmd, TypeGo_run_cmd. cbn [req req'
    MainGo.Command MainGo.Type_ MainGo.Headless TypeGo.Command TypeGo.Type_
    TypeGo.Headless].
  intros Hu. split; [reflexivity | ].
  destruct (MainGo_response_fields req) as (Ho & He & Hd).
  destruct (TypeGo_response_fields req') as (Ho' & He' & Hd').
  cbv zeta in *. cbn [req req' MainGo.Command MainGo.Type_ MainGo.Headless
    TypeGo.Command TypeGo.Type_ TypeGo.Headless] in *.
  apply Response_ext.
  - rewrite Ho, Ho'. unfold normalized. now rewrite Hu.
  - now rewrite He, He'.
  - now rewrite Hd, Hd'.
  - rewrite MainGo_quiet_debug, TypeGo_quiet_debug; reflexivity.
Qed.

End Executor.

Lemma C10_variants_agree_witness :
  let w := fixed_host "windows" [x68; x69; x0d; x0a] None 7 in
  isUTF16 [x68; x69; x0d; x0a] = false
  /\ MainGo.executeCommand w
       {| MainGo.Command := "echo hi"; MainGo.Type_ := "cmd";
          MainGo.Headless := true; MainGo.Verbose := false;
          MainGo.PersistWindow := true |}
     = TypeGo.executeCommand w
         {| TypeGo.Command := "echo hi"; TypeGo.Type_ := "cmd";
            TypeGo.Headless := true; TypeGo.Verbose := false |}.
Proof.
  split; [vm_compute; reflexivity | ].
  apply (C10_variants_agree (fixed_host "windows" [x68; x69; x0d; x0a] None 7)
           "echo hi" "cmd" true true).
  vm_compute; reflexivity.
Defined.

(** ** C4: odd remainders pass through *)

Lemma odd_not_even_length (n : Z) : Z.odd n = true -> (n mod 2 =? 0) = false.
Proof. intros H. rewrite Zmod_odd, H. reflexivity. Qed.

Lemma decodeUTF16_strip (data : list byte) :
  Z.odd (len (strip_bom data)) = true ->
  decodeUTF16 data = string_of_list_byte (strip_bom data).
Proof.
  unfold decodeUTF16, strip_bom, has_bom, is_bom_le, is_bom_be, at_.
  destruct data as [|b0 [|b1 rest]].
  - intros H. discriminate H.
  - intros _. reflexivity.
  - replace (2 <=? len (b0 :: b1 :: rest)) with true
      by (symmetry; apply Z.leb_le; unfold len; simpl List.length; lia).
    cbn [nth].
    destruct (Byte.eqb b0 xff && Byte.eqb b1 xfe);
      [ | destruct (Byte.eqb b0 xfe && Byte.eqb b1 xff) ];
      cbn [orb skipn]; intros H; rewrite (odd_not_even_length _ H); reflexivity.
Qed.

(** C4. When the bytes left after a leading byte-order mark (if there
    is one) are odd in number, [decodeUTF16] returns exactly those
    bytes as text, with no decoding; without a mark that is the input
    itself. [decodeUTF16] is a total function, it has no failing
    outcome. *)
Theorem C4_odd_length_passes_through (data : list byte) :
  Z.odd (len (strip_bom data)) = true ->
  decodeUTF16 data = string_of_list_byte (strip_bom data)
  /\ (if has_bom data then True else decodeUTF16 data = string_of_list_byte data).
Proof.
  intros H. split.
  - now apply decodeUTF16_strip.
  - destruct (has_bom data) eqn:Hb; [exact I | ].
    rewrite (decodeUTF16_strip data H). unfold strip_bom. now rewrite Hb.
Qed.

Lemma C4_odd_length_passes_through_witness :
  Z.odd (len (strip_bom [xff; xfe; x41; x00; x42])) = true
  /\ decodeUTF16 [xff; xfe; x41; x00; x42] = string_of_list_byte [x41; x00; x42]
  /\ decodeUTF16 [x41; x00; x42] = string_of_list_byte [x41; x00; x42].
Proof.
  split; [reflexivity | split].
  - apply (proj1 (C4_odd_length_passes_through [xff; xfe; x41; x00; x42] eq_refl)).
  - apply (proj2 (C4_odd_length_passes_through [x41; x00; x42] eq_refl)).
Defined.

(** ** C2: the default shell *)

(** A headed request of the default kind on Windows is not run as
    [cmd /C <command>]: it is started in a console of its own. *)
Lemma C2_counterexample :
  let w := fixed_host "windows" [] None 0 in
  let req :=
    {| MainGo.Command := "dir"; MainGo.Type_ := EmptyString; MainGo.Headless := false;
       MainGo.Verbose := false; MainGo.PersistWindow := false |} in
  is_powershell (MainGo.Type_ req) = false /\ is_wsl (MainGo.Type_ req) = false
  /\ Args (run_cmd (MainGo.executeCommand_run w req))
     = ["cmd"; "/C"; "start"; "cmd"; "/K"; "dir"]
  /\ ~ default_shell_as_specified w req.
Proof.
  cbv zeta. split; [reflexivity | split; [reflexivity | split; [reflexivity | ]]].
  unfold default_shell_as_specified. vm_compute. discriminate.
Qed.

(** C2, amended. A request whose kind is neither [powershell]/[ps]
    nor [wsl] is run by a default shell on every host, never refused:
    the command handed to the host is one of [cmd /C <command>],
    [cmd /C start cmd /K <command>] and [bash -c <command>], and the
    only error in the response is the one the host reports for it. On
    Windows it is [cmd /C <command>] with the window hidden when the
    request is headless and [cmd /C start cmd /K <command>] with a
    console of its own when it is headed; a headed request on another
    host is run as [bash -c <command>]. Which of the three a headless
    request gets on a host other than Windows is not part of the
    statement. *)
Theorem C2_default_shell (w : World) (req : MainGo.Request) :
  is_powershell (MainGo.Type_ req) = false ->
  is_wsl (MainGo.Type_ req) = false ->
  let cmd := run_cmd (MainGo.executeCommand_run w req) in
  let c := MainGo.Command req in
  In (Args cmd) (default_shells c)
  /\ Error (MainGo.executeCommand w req) = error_text (snd (CombinedOutput w cmd))
  /\ (if String.eqb (GOOS w) "windows" then
        if MainGo.Headless req then
          Args cmd = ["cmd"; "/C"; c]
          /\ Attr cmd = Some {| HideWindow := true; CreationFlags := 0 |}
        else
          Args cmd = ["cmd"; "/C"; "start"; "cmd"; "/K"; c]
          /\ Attr cmd
             = Some {| HideWindow := false; CreationFlags := CREATE_NEW_CONSOLE |}
      else
        if MainGo.Headless req then True
        else
          Args cmd = ["bash"; "-c"; c]
          /\ Attr cmd = Some {| HideWindow := false; CreationFlags := 0 |}).
Proof.
  intros Hps Hwsl. cbv zeta.
  destruct (MainGo_response_fields w req) as (_ & He & _). cbv zeta in He.
  rewrite MainGo_run_cmd, He. unfold dispatch, default_shells. rewrite Hps, Hwsl.
  split; [ | split; [reflexivity | ]].
  - destruct (MainGo.Headless req); [now left | ].
    destruct (String.eqb (GOOS w) "windows"); [right; now left | right; right; now left].
  - destruct (String.eqb (GOOS w) "windows"), (MainGo.Headless req);
      try exact I; split; reflexivity.
Qed.

(** The headless branch does not look at the host: a headless request
    of the default kind is run as [cmd /C <command>] whatever
    [runtime.GOOS] is. *)
Lemma headless_ignores_host (w : World) (req : MainGo.Request) :
  is_powershell (MainGo.Type_ req) = false ->
  is_wsl (MainGo.Type_ req) = false ->
  MainGo.Headless req = true ->
  Args (run_cmd (MainGo.executeCommand_run w req)) = ["cmd"; "/C"; MainGo.Command req].
Proof.
  intros Hps Hwsl Hh. rewrite MainGo_run_cmd. unfold dispatch.
  rewrite Hps, Hwsl, Hh. reflexivity.
Qed.

Lemma C2_default_shell_witness :
  is_powershell "zsh" = false /\ is_wsl "zsh" = false
  /\ Args (run_cmd (MainGo.executeCommand_run (fixed_host "linux" [] None 0)
             {| MainGo.Command := "ls"; MainGo.Type_ := "zsh";
                MainGo.Headless := false; MainGo.Verbose := false;
                MainGo.PersistWindow := false |}))
     = ["bash"; "-c"; "ls"]
  /\ Args (run_cmd (MainGo.executeCommand_run (fixed_host "windows" [] None 0)
             {| MainGo.Command := "dir"; MainGo.Type_ := "zsh";
                MainGo.Headless := true; MainGo.Verbose := false;
                MainGo.PersistWindow := false |}))
     = ["cmd"; "/C"; "dir"]
  /\ In (Args (run_cmd (MainGo.executeCommand_run (fixed_host "linux" [] None 0)
                 {| MainGo.Command := "ls"; MainGo.Type_ := "zsh";
                    MainGo.Headless := true; MainGo.Verbose := false;
                    MainGo.PersistWindow := false |})))
        (default_shells "ls").
Proof.
  split; [reflexivity | split; [reflexivity | split; [ | split]]].
  - exact (proj1 (proj2 (proj2 (C2_default_shell (fixed_host "linux" [] None 0)
      {| MainGo.Command := "ls"; MainGo.Type_ := "zsh"; MainGo.Headless := false;
         MainGo.Verbose := false; MainGo.PersistWindow := false |}
      eq_refl eq_refl)))).
  - exact (proj1 (proj2 (proj2 (C2_default_shell (fixed_host "windows" [] None 0)
      {| MainGo.Command := "dir"; MainGo.Type_ := "zsh"; MainGo.Headless := true;
         MainGo.Verbose := false; MainGo.PersistWindow := false |}
      eq_refl eq_refl)))).
  - exact (proj1 (C2_default_shell (fixed_host "linux" [] None 0)
      {| MainGo.Command := "ls"; MainGo.Type_ := "zsh"; MainGo.Headless := true;
         MainGo.Verbose := false; MainGo.PersistWindow := false |}
      eq_refl eq_refl)).
Defined.

(** ** C1: fields left out of a request *)

Lemma decode_member_set_Type (r : MainGo.Request) (t k : string) (v : JSON) :
  key_is k "type" = false ->
  MainGo.decode_member (MainGo.set_Type r t) k v
  = (MainGo.set_Type (fst (MainGo.decode_member r k v)) t,
     snd (MainGo.decode_member r k v)).
Proof.
  intros Hk. unfold MainGo.decode_member. rewrite Hk.
  destruct (key_is k "command"); [destruct v; reflexivity | ].
  destruct (key_is k "headless"); [destruct v; reflexivity | ].
  destruct (key_is k "verbose"); [destruct v; reflexivity | ].
  destruct (key_is k "persist_window"); [destruct v; reflexivity | ].
  reflexivity.
Qed.

Lemma decode_members_set_Type (ms : list (string * JSON)) :
  has_key "type" ms = false ->
  forall (r : MainGo.Request) (t : string) (e : bool),
    MainGo.decode_members ms (MainGo.set_Type r t) e
    = (MainGo.set_Type (fst (MainGo.decode_members ms r e)) t,
       snd (MainGo.decode_members ms r e)).
Proof.
  induction ms as [|[k v] ms IH]; intros Hno r t e.
  - reflexivity.
  - simpl in Hno. apply orb_false_iff in Hno. destruct Hno as [Hk Hms].
    cbn [MainGo.decode_members].
    rewrite (decode_member_set_Type r t k v Hk).
    destruct (MainGo.decode_member r k v) as [r' e']. cbn [fst snd].
    apply IH. exact Hms.
Qed.

Lemma decode_members_app (ms1 ms2 : list (string * JSON)) :
  forall (r : MainGo.Request) (e : bool),
    MainGo.decode_members (ms1 ++ ms2) r e
    = MainGo.decode_members ms2 (fst (MainGo.decode_members ms1 r e))
        (snd (MainGo.decode_members ms1 r e)).
Proof.
  induction ms1 as [|[k v] ms1 IH]; intros r e.
  - reflexivity.
  - cbn [app MainGo.decode_members].
    destruct (MainGo.decode_member r k v) as [r' e']. apply IH.
Qed.

Lemma decode_members_keeps_Type (ms : list (string * JSON)) :
  has_key "type" ms = false ->
  forall (r : MainGo.Request) (e : bool),
    MainGo.Type_ (fst (MainGo.decode_members ms r e)) = MainGo.Type_ r.
Proof.
  induction ms as [|[k v] ms IH]; intros Hno r e.
  - reflexivity.
  - simpl in Hno. apply orb_false_iff in Hno. destruct Hno as [Hk Hms].
    cbn [MainGo.decode_members].
    destruct (MainGo.decode_member r k v) as [r' e'] eqn:Hm.
    rewrite (IH Hms). unfold MainGo.decode_member in Hm. cbn [fst] in Hk.
    rewrite Hk in Hm.
    destruct (key_is k "command");
      [destruct v; inversion Hm; reflexivity | ].
    destruct (key_is k "headless");
      [destruct v; inversion Hm; reflexivity | ].
    destruct (key_is k "verbose");
      [destruct v; inversion Hm; reflexivity | ].
    destruct (key_is k "persist_window");
      [destruct v; inversion Hm; reflexivity | ].
    inversion Hm; reflexivity.
Qed.

(** Adding the member ["type": "cmd"] to an object without a [type]
    key changes the decoded request in its [Type_] only, from the
    empty string to ["cmd"]. *)
Lemma Unmarshal_insert_type (ms1 ms2 : list (string * JSON)) :
  has_key "type" (ms1 ++ ms2) = false ->
  let plain := MainGo.Unmarshal (JObject (ms1 ++ ms2)) MainGo.zero_Request in
  MainGo.Unmarshal (JObject (ms1 ++ ("type", JString "cmd") :: ms2)) MainGo.zero_Request
  = (MainGo.set_Type (fst plain) "cmd", snd plain)
  /\ MainGo.Type_ (fst plain) = EmptyString.
Proof.
  intros Hno. cbv zeta. unfold MainGo.Unmarshal. split.
  - unfold has_key in Hno. rewrite existsb_app in Hno.
    apply orb_false_iff in Hno. destruct Hno as [_ H2].
    rewrite !decode_members_app.
    destruct (MainGo.decode_members ms1 MainGo.zero_Request false) as [ra ea].
    cbn [fst snd MainGo.decode_members].
    change (MainGo.decode_member ra "type" (JString "cmd"))
      with (MainGo.set_Type ra "cmd", false).
    cbv iota beta. rewrite orb_false_r.
    apply decode_members_set_Type. exact H2.
  - now rewrite decode_members_keeps_Type.
Qed.

Lemma dispatch_empty_type (goos c : string) (headless : bool) :
  dispatch goos EmptyString c headless = dispatch goos "cmd" c headless.
Proof. reflexivity. Qed.

Lemma decode_members_keeps_Headless (ms : list (string * JSON)) :
  has_key "headless" ms = false ->
  forall (r : MainGo.Request) (e : bool),
    MainGo.Headless (fst (MainGo.decode_members ms r e)) = MainGo.Headless r.
Proof.
  induction ms as [|[k v] ms IH]; intros Hno r e.
  - reflexivity.
  - simpl in Hno. apply orb_false_iff in Hno. destruct Hno as [Hk Hms].
    cbn [MainGo.decode_members].
    destruct (MainGo.decode_member r k v) as [r' e'] eqn:Hm.
    rewrite (IH Hms). unfold MainGo.decode_member in Hm. cbn [fst] in Hk.
    rewrite Hk in Hm.
    destruct (key_is k "command");
      [destruct v; inversion Hm; reflexivity | ].
    destruct (key_is k "type");
      [destruct v; inversion Hm; reflexivity | ].
    destruct (key_is k "verbose");
      [destruct v; inversion Hm; reflexivity | ].
    destruct (key_is k "persist_window");
      [destruct v; inversion Hm; reflexivity | ].
    inversion Hm; reflexivity.
Qed.

(** A request object without a [headless] key that decodes without
    error is a headed request: the field keeps the value [false] of
    [var req Request]. Only the branch for lines that fail to decode
    sets it to [true]. *)
Lemma headless_omitted_is_false (line : string) (ms : list (string * JSON)) :
  has_key "headless" ms = false ->
  snd (MainGo.Unmarshal (JObject ms) MainGo.zero_Request) = false ->
  MainGo.Headless (MainGo.request_of_line line (Some (JObject ms))) = false.
Proof.
  intros Hno Hok. unfold MainGo.request_of_line.
  destruct (MainGo.Unmarshal (JObject ms) MainGo.zero_Request) as [r e] eqn:Hu.
  cbn [snd] in Hok. subst e.
  unfold MainGo.Unmarshal in Hu.
  pose proof (decode_members_keeps_Headless ms Hno MainGo.zero_Request false) as Hh.
  rewrite Hu in Hh. exact Hh.
Qed.

(** C1. The request [{"command":"echo hi"}] has neither a [type] nor
    a [headless] key. It is decoded with [Headless = false] and on
    Windows started in a console of its own, as
    [cmd /C start cmd /K echo hi]. The request with ["type": "cmd"]
    and ["headless": true] spelled out runs hidden as
    [cmd /C echo hi], and so does the plain line [echo hi], for which
    [main] itself sets [Headless] to [true]. So the request with both
    fields left out is not dispatched as the one that spells them
    out. *)
Theorem C1_absent_headless_is_headed :
  let w := fixed_host "windows" [] None 0 in
  let ms := [("command", JString "echo hi")] in
  let omitted := MainGo.request_of_line line_plain (Some (JObject ms)) in
  let explicit :=
    MainGo.request_of_line line_explicit
      (Some (JObject (ms ++ [("type", JString "cmd"); ("headless", JBool true)]))) in
  let fallback := MainGo.request_of_line "echo hi" None in
  has_key "type" ms = false /\ has_key "headless" ms = false
  /\ MainGo.Headless omitted = false
  /\ Args (run_cmd (MainGo.executeCommand_run w omitted))
     = ["cmd"; "/C"; "start"; "cmd"; "/K"; "echo hi"]
  /\ MainGo.Headless explicit = true
  /\ Args (run_cmd (MainGo.executeCommand_run w explicit)) = ["cmd"; "/C"; "echo hi"]
  /\ MainGo.Headless fallback = true
  /\ run_cmd (MainGo.executeCommand_run w fallback)
     = run_cmd (MainGo.executeCommand_run w explicit)
  /\ ~ omitted_as_cmd_headless w line_plain line_explicit ms.
Proof.
  cbv zeta. repeat (split; [reflexivity | ]).
  unfold omitted_as_cmd_headless. intros [Hcmd _].
  vm_compute in Hcmd. discriminate Hcmd.
Qed.

(** ** C5: UTF-16 round trip *)

Lemma u8_byte_of_Z (z : Z) : u8 (byte_of_Z z) = z mod 256.
Proof.
  unfold u8, byte_of_Z.
  assert (Hb : 0 <= z mod 256 < 256) by (apply Z.mod_pos_bound; lia).
  destruct (Byte.of_N (Z.to_N (z mod 256))) as [b|] eqn:E.
  - apply Byte.to_of_N in E. rewrite E. apply Z2N.id. lia.
  - apply Byte.of_N_None_iff in E. lia.
Qed.

Lemma u8_range (b : byte) : 0 <= u8 b < 256.
Proof.
  unfold u8. pose proof (Byte.to_N_bounded b). lia.
Qed.

(** A number is the bits below position [n] and the bits from [n] on. *)
Lemma lor_low_high (u n : Z) :
  0 <= n -> Z.lor (u mod 2 ^ n) (Z.shiftl (Z.shiftr u n) n) = u.
Proof.
  intros Hn. rewrite <- Z.land_ones by exact Hn.
  apply Z.bits_inj'. intros k Hk.
  rewrite Z.lor_spec, Z.land_spec, Z.shiftl_spec by exact Hk.
  destruct (Z.ltb_spec k n) as [Hlt | Hge].
  - rewrite Z.ones_spec_low by lia.
    rewrite (Z.testbit_neg_r _ (k - n)) by lia.
    now rewrite andb_true_r, orb_false_r.
  - rewrite Z.ones_spec_high by lia.
    rewrite Z.shiftr_spec by lia.
    rewrite andb_false_r. cbn [orb]. f_equal. lia.
Qed.

Lemma unit_of_bytes (u : Z) :
  0 <= u < 65536 ->
  Z.lor (u8 (byte_of_Z u)) (uint16 (Z.shiftl (u8 (byte_of_Z (Z.shiftr u 8))) 8)) = u.
Proof.
  intros Hu. rewrite !u8_byte_of_Z. unfold uint16.
  assert (Hs : Z.shiftr u 8 = u / 256) by (rewrite Z.shiftr_div_pow2 by lia; reflexivity).
  assert (Hq : 0 <= u / 256 < 256).
  { split; [apply Z.div_pos; lia | apply Z.div_lt_upper_bound; lia]. }
  rewrite (Z.mod_small (Z.shiftr u 8)) by (rewrite Hs; exact Hq).
  rewrite (Z.mod_small (Z.shiftl (Z.shiftr u 8) 8)).
  - change 256 with (2 ^ 8). apply lor_low_high. lia.
  - rewrite Z.shiftl_mul_pow2, Hs by lia. change (2 ^ 8) with 256. lia.
Qed.

Lemma code_unit_skip (le : bool) (a b : byte) (rest : list byte) (i : nat) :
  code_unit le (a :: b :: rest) (S i) = code_unit le rest i.
Proof.
  unfold code_unit, at_.
  replace (S i * 2)%nat with (S (S (i * 2))) by lia.
  replace (S (S (i * 2)) + 1)%nat with (S (S (i * 2 + 1))) by lia.
  reflexivity.
Qed.

(** The loop of [decodeUTF16] reads back the code units that were
    written as byte pairs. *)
Lemma code_units_of_bytes (le : bool) (us : list Z) :
  Forall unit_ok us ->
  map (code_unit le (flat_map (unit_bytes le) us)) (seq 0 (List.length us)) = us.
Proof.
  induction 1 as [|u us Hu Hus IH].
  - reflexivity.
  - cbn [List.length seq map flat_map].
    rewrite <- seq_shift, map_map. f_equal.
    + unfold unit_bytes, code_unit, at_. destruct le; cbn [app nth Nat.mul Nat.add];
        apply unit_of_bytes; exact Hu.
    + rewrite <- IH at 2. apply map_ext. intros i.
      unfold unit_bytes at 1. destruct le; cbn [app]; apply code_unit_skip.
Qed.

Lemma length_unit_bytes (le : bool) (us : list Z) :
  List.length (flat_map (unit_bytes le) us) = (2 * List.length us)%nat.
Proof.
  induction us as [|u us IH]; [reflexivity | ].
  cbn [flat_map]. rewrite length_app, IH.
  unfold unit_bytes. destruct le; cbn [List.length]; lia.
Qed.

Lemma utf16_units_ok (c : Z) : scalar_value c -> Forall unit_ok (utf16_units c).
Proof.
  intros Hc. unfold utf16_units, unit_ok.
  destruct (Z.ltb_spec c 0x10000) as [Hlt | Hge].
  - constructor; [ | constructor]. destruct Hc; lia.
  - assert (Hc' : 0 <= c - 0x10000 < 0x100000) by (destruct Hc; lia).
    assert (0 <= Z.shiftr (c - 0x10000) 10 < 1024).
    { rewrite Z.shiftr_div_pow2 by lia. change (2 ^ 10) with 1024.
      split; [apply Z.div_pos; lia | apply Z.div_lt_upper_bound; lia]. }
    assert (0 <= Z.land (c - 0x10000) 0x3FF < 1024).
    { change 0x3FF with (Z.ones 10). rewrite Z.land_ones by lia.
      apply Z.mod_pos_bound. lia. }
    repeat constructor; lia.
Qed.

Lemma utf16_encode_ok (text : list Z) :
  Forall scalar_value text -> Forall unit_ok (utf16_encode text).
Proof.
  induction 1 as [|c text Hc _ IH]; [constructor | ].
  unfold utf16_encode in *. cbn [flat_map]. apply Forall_app. split.
  - now apply utf16_units_ok.
  - exact IH.
Qed.

(** [utf16.Decode] undoes the encoding of scalar values. *)
Lemma Decode_encode (text : list Z) :
  Forall scalar_value text -> Utf16.Decode (utf16_encode text) = text.
Proof.
  induction 1 as [|c text Hc _ IH]; [reflexivity | ].
  unfold utf16_encode in *. cbn [flat_map].
  set (rest := flat_map utf16_units text) in *. unfold utf16_units.
  destruct (Z.ltb_spec c 0x10000) as [Hlt | Hge].
  - cbn [app Utf16.Decode]. unfold Utf16.surr1, Utf16.surr3.
    replace ((c <? 0xd800) || (0xe000 <=? c)) with true.
    + now rewrite IH.
    + symmetry. apply orb_true_iff. destruct Hc as [H1 | H1]; [left | right]; lia.
  - assert (Hc' : 0 <= c - 0x10000 < 0x100000) by (destruct Hc; lia).
    set (c' := c - 0x10000) in *.
    assert (Hhi : 0 <= Z.shiftr c' 10 < 1024).
    { rewrite Z.shiftr_div_pow2 by lia. change (2 ^ 10) with 1024.
      split; [apply Z.div_pos; lia | apply Z.div_lt_upper_bound; lia]. }
    assert (Hlo : Z.land c' 0x3FF = c' mod 2 ^ 10).
    { change 0x3FF with (Z.ones 10). apply Z.land_ones. lia. }
    assert (Hlo' : 0 <= c' mod 2 ^ 10 < 1024) by (apply Z.mod_pos_bound; lia).
    cbn [app Utf16.Decode].
    unfold Utf16.DecodeRune, Utf16.surr1, Utf16.surr2, Utf16.surr3, Utf16.surrSelf.
    rewrite Hlo.
    replace ((0xD800 + Z.shiftr c' 10 <? 0xd800) || (0xe000 <=? 0xD800 + Z.shiftr c' 10))
      with false by (symmetry; apply orb_false_iff; split; lia).
    replace ((0xd800 <=? 0xD800 + Z.shiftr c' 10) && (0xD800 + Z.shiftr c' 10 <? 0xdc00)
             && (0xdc00 <=? 0xDC00 + c' mod 2 ^ 10) && (0xDC00 + c' mod 2 ^ 10 <? 0xe000))
      with true by (symmetry; rewrite !andb_true_iff; repeat split; lia).
    rewrite IH. f_equal.
    replace (0xD800 + Z.shiftr c' 10 - 0xd800) with (Z.shiftr c' 10) by lia.
    replace (0xDC00 + c' mod 2 ^ 10 - 0xdc00) with (c' mod 2 ^ 10) by lia.
    rewrite Z.lor_comm, lor_low_high by lia. unfold c'. lia.
Qed.

Lemma len_cons2 (a b : byte) (rest : list byte) : (2 <=? len (a :: b :: rest)) = true.
Proof. apply Z.leb_le. unfold len. cbn [List.length]. lia. Qed.

(** A leading FF FE selects little-endian decoding of the rest. *)
Lemma decodeUTF16_mark_le (rest : list byte) :
  decodeUTF16 (xff :: xfe :: rest) = decode_units true rest.
Proof. unfold decodeUTF16. rewrite len_cons2. reflexivity. Qed.

(** A leading FE FF selects big-endian decoding of the rest. *)
Lemma decodeUTF16_mark_be (rest : list byte) :
  decodeUTF16 (xfe :: xff :: rest) = decode_units false rest.
Proof. unfold decodeUTF16. rewrite len_cons2. reflexivity. Qed.

(** Without a mark all bytes are decoded little-endian. *)
Lemma decodeUTF16_no_mark (data : list byte) :
  has_bom data = false -> decodeUTF16 data = decode_units true data.
Proof.
  unfold decodeUTF16, has_bom, is_bom_le, is_bom_be, at_.
  destruct data as [|b0 [|b1 rest]]; try reflexivity.
  rewrite len_cons2. cbn [nth]. intros H. apply orb_false_iff in H.
  destruct H as [H1 H2]. rewrite H1, H2. reflexivity.
Qed.

Lemma decode_units_of_bytes (le : bool) (us : list Z) :
  Forall unit_ok us ->
  decode_units le (flat_map (unit_bytes le) us) = Utf8.string_of_runes (Utf16.Decode us).
Proof.
  intros Hus. unfold decode_units, len.
  rewrite length_unit_bytes.
  replace (Z.of_nat (2 * List.length us)) with (Z.of_nat (List.length us) * 2) by lia.
  rewrite Z.mod_mul, Z.div_mul by lia. cbn [Z.eqb negb].
  rewrite Nat2Z.id, code_units_of_bytes by exact Hus. reflexivity.
Qed.

Lemma u8_eqb (b c : byte) : Byte.eqb b c = true -> u8 b = u8 c.
Proof. intros H. apply Byte.byte_dec_bl in H. now subst. Qed.

Lemma first_bytes_no_mark (u : Z) (rest : list byte) :
  0 <= u < 65536 -> u <> 0xFEFF -> u <> 0xFFFE ->
  has_bom (byte_of_Z u :: byte_of_Z (Z.shiftr u 8) :: rest) = false.
Proof.
  intros Hu H1 H2. unfold has_bom.
  assert (Hs : Z.shiftr u 8 = u / 256) by (rewrite Z.shiftr_div_pow2 by lia; reflexivity).
  assert (Hq : 0 <= u / 256 < 256).
  { split; [apply Z.div_pos; lia | apply Z.div_lt_upper_bound; lia]. }
  pose proof (Z.div_mod u 256 ltac:(lia)) as Hdm.
  apply orb_false_iff. split; apply andb_false_iff;
    destruct (Byte.eqb (byte_of_Z u) _) eqn:E0; [ | now left | | now left];
    right;
    destruct (Byte.eqb (byte_of_Z (Z.shiftr u 8)) _) eqn:E1; try reflexivity;
    exfalso; apply u8_eqb in E0; apply u8_eqb in E1;
    rewrite u8_byte_of_Z in E0, E1; rewrite Hs, (Z.mod_small (u / 256)) in E1 by lia;
    vm_compute (u8 _) in E0, E1; lia.
Qed.

Lemma no_mark_in_text (text : list Z) :
  Forall scalar_value text -> starts_with_mark text = false ->
  has_bom (utf16_bytes true text) = false.
Proof.
  intros Ht Hm. destruct Ht as [|c text Hc Ht]; [reflexivity | ].
  unfold utf16_bytes, utf16_encode. cbn [flat_map].
  cbn [starts_with_mark] in Hm. apply orb_false_iff in Hm. destruct Hm as [Hm1 Hm2].
  pose proof (utf16_units_ok c Hc) as Hok.
  unfold utf16_units in *.
  destruct (Z.ltb_spec c 0x10000) as [Hlt | Hge].
  - cbn [app flat_map unit_bytes]. apply first_bytes_no_mark; [ | lia | lia].
    destruct Hc; lia.
  - inversion Hok as [|u us Hu _]; subst. cbn [app flat_map unit_bytes].
    assert (Hc' : 0 <= c - 0x10000 < 0x100000) by (destruct Hc; lia).
    assert (0 <= Z.shiftr (c - 0x10000) 10 < 1024).
    { rewrite Z.shiftr_div_pow2 by lia. change (2 ^ 10) with 1024.
      split; [apply Z.div_pos; lia | apply Z.div_lt_upper_bound; lia]. }
    apply first_bytes_no_mark; [exact Hu | lia | lia].
Qed.

(** *** UTF-8: a text and its Go string *)

Lemma lor_concat (a b k : Z) :
  0 <= k -> 0 <= b < 2 ^ k -> Z.lor (a * 2 ^ k) b = a * 2 ^ k + b.
Proof.
  intros Hk Hb.
  pose proof (lor_low_high (a * 2 ^ k + b) k Hk) as H.
  assert (Hp : 0 < 2 ^ k) by (apply Z.pow_pos_nonneg; lia).
  rewrite Z.add_comm, Z.mod_add, Z.mod_small in H by lia.
  rewrite Z.shiftr_div_pow2, Z.div_add, Z.div_small, Z.add_0_l in H by lia.
  rewrite Z.shiftl_mul_pow2 in H by lia.
  rewrite Z.lor_comm. rewrite H. lia.
Qed.

Lemma land_low (x k : Z) : 0 <= k -> Z.land x (Z.ones k) = x mod 2 ^ k.
Proof. intros. now apply Z.land_ones. Qed.

(* tagged byte: tag * 2^k + payload *)
Lemma lor_tag (tag k x : Z) :
  0 <= k -> 0 <= x < 2 ^ k -> Z.lor (tag * 2 ^ k) x = tag * 2 ^ k + x.
Proof. apply lor_concat. Qed.

Lemma DecodeRune_1 (c : Z) (rest : list Z) :
  0 <= c < 0x80 -> Utf8.DecodeRune (c :: rest) = (c, 1%nat).
Proof.
  intros Hc. unfold Utf8.DecodeRune, Utf8.RuneSelf.
  replace (c <? 128) with true by (symmetry; apply Z.ltb_lt; lia). reflexivity.
Qed.

Lemma enc2 (c : Z) :
  0x80 <= c < 0x800 ->
  Z.lor 0xC0 (Z.shiftr c 6) = 0xC0 + c / 64
  /\ Z.lor 0x80 (Z.land c 0x3F) = 0x80 + c mod 64.
Proof.
  intros Hc.
  assert (0 <= c / 64 < 32) by (split; [apply Z.div_pos | apply Z.div_lt_upper_bound]; lia).
  assert (0 <= c mod 64 < 64) by (apply Z.mod_pos_bound; lia).
  rewrite Z.shiftr_div_pow2 by lia. change (2 ^ 6) with 64.
  change 0x3F with (Z.ones 6). rewrite Z.land_ones by lia. change (2 ^ 6) with 64.
  split.
  - apply (lor_concat 6 (c / 64) 5); [lia | change (2 ^ 5) with 32; lia].
  - apply (lor_concat 2 (c mod 64) 6); [lia | change (2 ^ 6) with 64; lia].
Qed.

Ltac split_tests :=
  repeat match goal with
         | |- context [?a =? ?b] => destruct (Z.eqb_spec a b); try lia
         end;
  repeat match goal with
         | |- context [?a <? ?b] => destruct (Z.ltb_spec a b); try lia
         | |- context [?a <=? ?b] => destruct (Z.leb_spec a b); try lia
         end.

Lemma land_tagged (tag k x : Z) :
  0 <= k -> 0 <= x < 2 ^ k -> Z.land (tag * 2 ^ k + x) (Z.ones k) = x.
Proof.
  intros Hk Hx. rewrite Z.land_ones by exact Hk.
  rewrite Z.add_comm, Z.mod_add by lia. apply Z.mod_small. exact Hx.
Qed.

Lemma DecodeRune_2 (y x : Z) (rest : list Z) :
  2 <= y < 32 -> 0 <= x < 64 ->
  Utf8.DecodeRune (0xC0 + y :: 0x80 + x :: rest) = (y * 64 + x, 2%nat).
Proof.
  intros Hy Hx.
  assert (E0 : Z.land (0xC0 + y) 0x1F = y) by (apply (land_tagged 6 5 y); cbn; lia).
  assert (E1 : Z.land (0x80 + x) 0x3F = x) by (apply (land_tagged 2 6 x); cbn; lia).
  unfold Utf8.DecodeRune, Utf8.in_range, Utf8.RuneSelf, Utf8.locb, Utf8.hicb, Utf8.maskx.
  rewrite E0, E1. split_tests. cbn [orb andb negb Nat.ltb Nat.leb List.length].
  f_equal. rewrite Z.shiftl_mul_pow2 by lia. apply (lor_concat y x 6); cbn; lia.
Qed.

Lemma DecodeRune_3 (z y x : Z) (rest : list Z) :
  0 <= z < 16 -> 0 <= y < 64 -> 0 <= x < 64 ->
  (z = 0 -> 32 <= y) -> (z = 13 -> y < 32) ->
  Utf8.DecodeRune (0xE0 + z :: 0x80 + y :: 0x80 + x :: rest)
  = (z * 4096 + y * 64 + x, 3%nat).
Proof.
  intros Hz Hy Hx Hlo Hhi.
  assert (E0 : Z.land (0xE0 + z) 0x0F = z) by (apply (land_tagged 14 4 z); cbn; lia).
  assert (E1 : Z.land (0x80 + y) 0x3F = y) by (apply (land_tagged 2 6 y); cbn; lia).
  assert (E2 : Z.land (0x80 + x) 0x3F = x) by (apply (land_tagged 2 6 x); cbn; lia).
  unfold Utf8.DecodeRune, Utf8.in_range, Utf8.RuneSelf, Utf8.locb, Utf8.hicb, Utf8.maskx.
  rewrite E0, E1, E2. split_tests; cbn [orb andb negb Nat.ltb Nat.leb List.length];
    f_equal; rewrite !Z.shiftl_mul_pow2 by lia;
    rewrite (lor_concat z (y * 2 ^ 6) 12) by (cbn; lia);
    replace (z * 2 ^ 12 + y * 2 ^ 6) with ((z * 64 + y) * 2 ^ 6) by (cbn; lia);
    rewrite (lor_concat (z * 64 + y) x 6) by (cbn; lia);
    cbn; lia.
Qed.

Lemma DecodeRune_4 (w z y x : Z) (rest : list Z) :
  0 <= w <= 4 -> 0 <= z < 64 -> 0 <= y < 64 -> 0 <= x < 64 ->
  (w = 0 -> 16 <= z) -> (w = 4 -> z < 16) ->
  Utf8.DecodeRune (0xF0 + w :: 0x80 + z :: 0x80 + y :: 0x80 + x :: rest)
  = (w * 262144 + z * 4096 + y * 64 + x, 4%nat).
Proof.
  intros Hw Hz Hy Hx Hlo Hhi.
  assert (E0 : Z.land (0xF0 + w) 0x07 = w) by (apply (land_tagged 30 3 w); cbn; lia).
  assert (E1 : Z.land (0x80 + z) 0x3F = z) by (apply (land_tagged 2 6 z); cbn; lia).
  assert (E2 : Z.land (0x80 + y) 0x3F = y) by (apply (land_tagged 2 6 y); cbn; lia).
  assert (E3 : Z.land (0x80 + x) 0x3F = x) by (apply (land_tagged 2 6 x); cbn; lia).
  unfold Utf8.DecodeRune, Utf8.in_range, Utf8.RuneSelf, Utf8.locb, Utf8.hicb, Utf8.maskx.
  rewrite E0, E1, E2, E3.
  split_tests; cbn [orb andb negb Nat.ltb Nat.leb List.length];
    f_equal; rewrite !Z.shiftl_mul_pow2 by lia;
    rewrite (lor_concat w (z * 2 ^ 12) 18) by (cbn; lia);
    replace (w * 2 ^ 18 + z * 2 ^ 12) with ((w * 64 + z) * 2 ^ 12) by (cbn; lia);
    rewrite (lor_concat (w * 64 + z) (y * 2 ^ 6) 12) by (cbn; lia);
    replace ((w * 64 + z) * 2 ^ 12 + y * 2 ^ 6) with (((w * 64 + z) * 64 + y) * 2 ^ 6)
      by (cbn; lia);
    rewrite (lor_concat ((w * 64 + z) * 64 + y) x 6) by (cbn; lia);
    cbn; lia.
Qed.


Lemma lor_80 (x : Z) : 0 <= x < 64 -> Z.lor 0x80 x = 0x80 + x.
Proof. intros. apply (lor_concat 2 x 6); cbn; lia. Qed.

Lemma lor_C0 (x : Z) : 0 <= x < 32 -> Z.lor 0xC0 x = 0xC0 + x.
Proof. intros. apply (lor_concat 6 x 5); cbn; lia. Qed.

Lemma lor_E0 (x : Z) : 0 <= x < 16 -> Z.lor 0xE0 x = 0xE0 + x.
Proof. intros. apply (lor_concat 14 x 4); cbn; lia. Qed.

Lemma lor_F0 (x : Z) : 0 <= x < 8 -> Z.lor 0xF0 x = 0xF0 + x.
Proof. intros. apply (lor_concat 30 x 3); cbn; lia. Qed.

(** The bytes of a scalar value decode to it. *)
Lemma DecodeRune_encoderune (c : Z) (rest : list Z) :
  scalar_value c ->
  Utf8.DecodeRune (Utf8.encoderune c ++ rest)%list
  = (c, List.length (Utf8.encoderune c))
  /\ Forall byte_ok (Utf8.encoderune c)
  /\ (0 < List.length (Utf8.encoderune c))%nat.
Proof.
  intros Hc. unfold byte_ok.
  assert (Hr : 0 <= c <= 0x10FFFF) by (destruct Hc; lia).
  unfold Utf8.encoderune, Utf8.enc3, uint32, Utf8.rune1Max, Utf8.rune2Max,
    Utf8.rune3Max, Utf8.MaxRune, Utf8.surrogateMin, Utf8.surrogateMax, Utf8.maskx.
  rewrite Z.mod_small by lia.
  change 0x3F with (Z.ones 6). rewrite !Z.land_ones, !Z.shiftr_div_pow2 by lia.
  change (2 ^ 6) with 64. change (2 ^ 12) with 4096. change (2 ^ 18) with 262144.
  pose proof (Z.mod_pos_bound c 64 ltac:(lia)) as B0.
  pose proof (Z.mod_pos_bound (c / 64) 64 ltac:(lia)) as B1.
  pose proof (Z.mod_pos_bound (c / 4096) 64 ltac:(lia)) as B2.
  pose proof (Z.div_mod c 64 ltac:(lia)) as D0.
  pose proof (Z.div_mod (c / 64) 64 ltac:(lia)) as D1.
  pose proof (Z.div_mod (c / 4096) 64 ltac:(lia)) as D2.
  rewrite (Z.div_div c 64 64) in D1 by lia. change (64 * 64) with 4096 in D1.
  rewrite (Z.div_div c 4096 64) in D2 by lia. change (4096 * 64) with 262144 in D2.
  destruct (Z.leb_spec c 127) as [H1 | H1].
  - cbn [app List.length]. rewrite DecodeRune_1 by lia.
    repeat split; [repeat constructor; lia | lia].
  - destruct (Z.leb_spec c 2047) as [H2 | H2].
    + rewrite lor_C0, lor_80 by lia.
      cbn [app List.length]. rewrite DecodeRune_2 by lia.
      repeat split; [f_equal; lia | repeat constructor; lia | lia].
    + replace ((1114111 <? c) || ((55296 <=? c) && (c <=? 57343))) with false
        by (symmetry; apply orb_false_iff; split;
            [apply Z.ltb_ge; lia
            | apply andb_false_iff; destruct Hc; [left | right]; apply Z.leb_gt; lia]).
      destruct (Z.leb_spec c 65535) as [H3 | H3].
      * rewrite lor_E0, !lor_80 by lia.
        cbn [app List.length]. rewrite DecodeRune_3 by (destruct Hc; lia).
        repeat split; [f_equal; lia | repeat constructor; lia | lia].
      * rewrite lor_F0, !lor_80 by lia.
        cbn [app List.length]. rewrite DecodeRune_4 by lia.
        repeat split; [f_equal; lia | repeat constructor; lia | lia].
Qed.

Lemma runes_of_bytes_encode (text : list Z) :
  Forall scalar_value text ->
  forall fuel : nat,
    (List.length text <= fuel)%nat ->
    Utf8.runes_of_bytes fuel (flat_map Utf8.encoderune text) = text.
Proof.
  induction 1 as [|c text Hc _ IH]; intros fuel Hf.
  - destruct fuel; reflexivity.
  - destruct fuel as [|fuel]; [cbn in Hf; lia | ].
    cbn [flat_map Utf8.runes_of_bytes].
    destruct (DecodeRune_encoderune c (flat_map Utf8.encoderune text) Hc)
      as (Hd & _ & Hlen).
    destruct (Utf8.encoderune c ++ flat_map Utf8.encoderune text)%list as [|b bs] eqn:E.
    + apply (f_equal (@List.length Z)) in E. rewrite length_app in E. cbn in E. lia.
    + rewrite Hd. rewrite <- E.
      rewrite skipn_app, skipn_all, Nat.sub_diag. cbn [app skipn].
      f_equal. apply IH. cbn in Hf. lia.
Qed.

Lemma ord_chr (z : Z) : ord (chr z) = z mod 256.
Proof. unfold ord, chr. rewrite byte_of_ascii_of_byte. apply u8_byte_of_Z. Qed.

Lemma bytes_of_string_app (s t : string) :
  bytes_of_string (s ++ t) = (bytes_of_string s ++ bytes_of_string t)%list.
Proof.
  unfold bytes_of_string. induction s as [|a s IH]; [reflexivity | ].
  cbn [append list_ascii_of_string map app]. now rewrite IH.
Qed.

Lemma bytes_of_string_of_Zs (l : list Z) :
  Forall byte_ok l -> bytes_of_string (Utf8.string_of_Zs l) = l.
Proof.
  unfold bytes_of_string. induction 1 as [|z l Hz _ IH]; [reflexivity | ].
  cbn [Utf8.string_of_Zs list_ascii_of_string map].
  rewrite IH, ord_chr, Z.mod_small by exact Hz. reflexivity.
Qed.

Lemma bytes_of_go_string (text : list Z) :
  Forall scalar_value text ->
  bytes_of_string (go_string text) = flat_map Utf8.encoderune text.
Proof.
  unfold go_string. induction 1 as [|c text Hc _ IH]; [reflexivity | ].
  cbn [Utf8.string_of_runes flat_map].
  rewrite bytes_of_string_app, IH. f_equal.
  apply bytes_of_string_of_Zs.
  now destruct (DecodeRune_encoderune c [] Hc) as (_ & Hb & _).
Qed.

Lemma length_bytes_of_string (s : string) :
  List.length (bytes_of_string s) = String.length s.
Proof.
  unfold bytes_of_string. rewrite length_map.
  induction s as [|a s IH]; [reflexivity | cbn; now rewrite IH].
Qed.

Lemma length_flat_map_encoderune (text : list Z) :
  Forall scalar_value text ->
  (List.length text <= List.length (flat_map Utf8.encoderune text))%nat.
Proof.
  induction 1 as [|c text Hc _ IH]; [reflexivity | ].
  cbn [flat_map List.length]. rewrite length_app.
  destruct (DecodeRune_encoderune c [] Hc) as (_ & _ & Hlen). lia.
Qed.

(** A text is what Go reads back from its string. *)
Lemma runes_of_go_string (text : list Z) :
  Forall scalar_value text -> Utf8.runes_of_string (go_string text) = text.
Proof.
  intros Ht. unfold Utf8.runes_of_string.
  rewrite <- length_bytes_of_string, bytes_of_go_string by exact Ht.
  apply runes_of_bytes_encode; [exact Ht | ].
  now apply length_flat_map_encoderune.
Qed.

(** C5. Take a text, that is a sequence of Unicode scalar values (code
    points beyond the basic plane included), and its Go string [s].
    Go reads the text back from [s]; and when the runes of [s] are
    encoded as UTF-16 with a leading mark, [decodeUTF16] returns [s]
    itself: little-endian after FF FE, big-endian after FE FF. Without
    a mark the bytes are decoded as little-endian, which returns [s]
    for every text whose little-endian bytes do not themselves begin
    like a mark. *)
Theorem C5_utf16_round_trip (text : list Z) :
  Forall scalar_value text ->
  let s := go_string text in
  Utf8.runes_of_string s = text
  /\ decodeUTF16 (xff :: xfe :: utf16_bytes true (Utf8.runes_of_string s)) = s
  /\ decodeUTF16 (xfe :: xff :: utf16_bytes false (Utf8.runes_of_string s)) = s
  /\ (if starts_with_mark text then True
      else decodeUTF16 (utf16_bytes true (Utf8.runes_of_string s)) = s).
Proof.
  intros Ht s. pose proof (utf16_encode_ok text Ht) as Hok.
  unfold s. rewrite (runes_of_go_string text Ht).
  unfold go_string, utf16_bytes. split; [reflexivity | split; [ | split]].
  - rewrite decodeUTF16_mark_le, decode_units_of_bytes, Decode_encode by assumption.
    reflexivity.
  - rewrite decodeUTF16_mark_be, decode_units_of_bytes, Decode_encode by assumption.
    reflexivity.
  - destruct (starts_with_mark text) eqn:Hm; [exact I | ].
    rewrite decodeUTF16_no_mark by (apply no_mark_in_text; assumption).
    rewrite decode_units_of_bytes, Decode_encode by assumption. reflexivity.
Qed.

Lemma C5_utf16_round_trip_witness :
  Forall scalar_value sample_text
  /\ decodeUTF16
       (xff :: xfe :: utf16_bytes true (Utf8.runes_of_string (go_string sample_text)))
     = go_string sample_text.
Proof.
  assert (H : Forall scalar_value sample_text)
    by (unfold sample_text, scalar_value; repeat constructor; lia).
  split; [exact H | ].
  exact (proj1 (proj2 (C5_utf16_round_trip sample_text H))).
Defined.

(** ** C3: the detection heuristic *)

(** *** binary64 division of two counts against the constant 0.3 *)

Lemma digits2_pos_bounds (p : positive) :
  2 ^ (Zpos (digits2_pos p) - 1) <= Zpos p < 2 ^ Zpos (digits2_pos p).
Proof.
  induction p as [p IH | p IH | ]; cbn [digits2_pos].
  - rewrite Pos2Z.inj_succ.
    replace (Z.succ (Zpos (digits2_pos p)) - 1) with (Z.succ (Zpos (digits2_pos p) - 1)) by lia.
    rewrite !Z.pow_succ_r by lia. lia.
  - rewrite Pos2Z.inj_succ.
    replace (Z.succ (Zpos (digits2_pos p)) - 1) with (Z.succ (Zpos (digits2_pos p) - 1)) by lia.
    rewrite !Z.pow_succ_r by lia. lia.
  - cbn. lia.
Qed.

Lemma digits2_pos_unique (p : positive) (d : Z) :
  2 ^ (d - 1) <= Zpos p < 2 ^ d -> Zpos (digits2_pos p) = d.
Proof.
  intros [Hlo Hhi]. destruct (digits2_pos_bounds p) as [Blo Bhi].
  set (k := Zpos (digits2_pos p)) in *.
  assert (0 < k) by (unfold k; lia).
  assert (0 < d).
  { destruct (Z.ltb_spec 0 d); [assumption | exfalso].
    destruct (Z.eq_dec d 0) as [E | E].
    - rewrite E in Hhi. cbn in Hhi. lia.
    - rewrite Z.pow_neg_r in Hhi by lia. lia. }
  destruct (Z.lt_trichotomy k d) as [Hlt | [Heq | Hgt]]; [ | assumption | ].
  - assert (2 ^ k <= 2 ^ (d - 1)) by (apply Z.pow_le_mono_r; lia). lia.
  - assert (2 ^ d <= 2 ^ (k - 1)) by (apply Z.pow_le_mono_r; lia). lia.
Qed.

Lemma iter_xO (p k : positive) : Zpos (Pos.iter xO p k) = Zpos p * 2 ^ Zpos k.
Proof.
  induction k as [|k IH] using Pos.peano_ind.
  - cbn. lia.
  - rewrite Pos.iter_succ, Pos2Z.inj_xO, IH, Pos2Z.inj_succ, Z.pow_succ_r by lia. lia.
Qed.

Lemma fexp_normal (e : Z) : -1021 <= e -> fexp Float64.prec Float64.emax e = e - 53.
Proof. intros H. unfold fexp, emin, Float64.prec, Float64.emax. lia. Qed.

Lemma bra_exact (mz : positive) (ez : Z) :
  Zpos (digits2_pos mz) = 53 -> -1074 <= ez <= 971 ->
  binary_round_aux Float64.prec Float64.emax false (Zpos mz) ez loc_Exact = S754_finite false mz ez.
Proof.
  intros Hd He. unfold binary_round_aux, shr_fexp. cbn [Zdigits2 shr_record_of_loc].
  rewrite Hd, fexp_normal by lia.
  replace (53 + ez - 53 - ez) with 0 by lia. cbn [shr shr_m loc_of_shr_record round_nearest_even].
  cbn [Zdigits2 shr_record_of_loc]. rewrite Hd, fexp_normal by lia.
  replace (53 + ez - 53 - ez) with 0 by lia. cbn [shr shr_m].
  replace (ez <=? Float64.emax - Float64.prec) with true; [reflexivity | ].
  symmetry. apply Z.leb_le. unfold Float64.emax, Float64.prec. lia.
Qed.

Lemma of_int_pos (p : positive) :
  Zpos p < 2 ^ 53 ->
  exists mx : positive,
    Float64.of_int (Zpos p) = S754_finite false mx (Zpos (digits2_pos p) - 53)
    /\ Zpos mx = Zpos p * 2 ^ (53 - Zpos (digits2_pos p))
    /\ Zpos (digits2_pos mx) = 53.
Proof.
  intros Hp. destruct (digits2_pos_bounds p) as [Blo Bhi].
  set (d := Zpos (digits2_pos p)) in *.
  assert (Hd : 1 <= d <= 53).
  { split; [unfold d; lia | ].
    destruct (Z.leb_spec d 53); [assumption | ].
    assert (2 ^ 53 <= 2 ^ (d - 1)) by (apply Z.pow_le_mono_r; lia). lia. }
  unfold Float64.of_int, binary_normalize, binary_round.
  fold d. rewrite Z.add_0_r, fexp_normal by lia.
  unfold shl_align. rewrite Z.sub_0_r.
  assert (Hnorm : forall mz : positive,
            Zpos mz = Zpos p * 2 ^ (53 - d) -> Zpos (digits2_pos mz) = 53).
  { intros mz Hmz. apply digits2_pos_unique. rewrite Hmz.
    assert (E1 : 2 ^ (53 - 1) = 2 ^ (d - 1) * 2 ^ (53 - d))
      by (rewrite <- Z.pow_add_r by lia; f_equal; lia).
    assert (E2 : 2 ^ 53 = 2 ^ d * 2 ^ (53 - d))
      by (rewrite <- Z.pow_add_r by lia; f_equal; lia).
    assert (0 < 2 ^ (53 - d)) by (apply Z.pow_pos_nonneg; lia).
    rewrite E1, E2. split; [apply Z.mul_le_mono_nonneg_r; lia | apply Z.mul_lt_mono_pos_r; lia]. }
  destruct (d - 53) as [|k|k] eqn:Ek; [ | lia | ].
  - assert (Hm : Zpos p = Zpos p * 2 ^ (53 - d)).
    { replace (53 - d) with 0 by lia. lia. }
    exists p. rewrite bra_exact by (try apply Hnorm; try lia; assumption).
    repeat split; [exact Hm | now apply Hnorm].
  - assert (Hm : Zpos (Pos.iter xO p k) = Zpos p * 2 ^ (53 - d)).
    { rewrite iter_xO. f_equal. f_equal. lia. }
    exists (Pos.iter xO p k). rewrite bra_exact by (try apply Hnorm; try lia; assumption).
    repeat split; [exact Hm | now apply Hnorm].
Qed.

Lemma gt_c0_3 (M : positive) (E : Z) :
  Float64.gt (S754_finite false M E) Float64.c0_3
  = match -54 ?= E with
    | Lt => true
    | Eq => C03 <? Zpos M
    | Gt => false
    end.
Proof.
  unfold Float64.gt, Float64.c0_3, SFltb, SFcompare.
  destruct (-54 ?= E); reflexivity.
Qed.

Lemma div_eucl_div_mod (a b : Z) : Z.div_eucl a b = (a / b, a mod b).
Proof. unfold Z.div, Z.modulo. destruct (Z.div_eucl a b). reflexivity. Qed.

Lemma div_norm (mx my : positive) (ex ey : Z) :
  Zpos (digits2_pos mx) = 53 -> Zpos (digits2_pos my) = 53 ->
  -60 <= ex - ey <= 60 ->
  Float64.div (S754_finite false mx ex) (S754_finite false my ey)
  = binary_round_aux Float64.prec Float64.emax false
      ((Zpos mx * 2 ^ 53) / Zpos my) (ex - ey - 53)
      (new_location (Zpos my) ((Zpos mx * 2 ^ 53) mod Zpos my)).
Proof.
  intros Hx Hy He. unfold Float64.div, SFdiv, SFdiv_core_binary.
  cbn [Zdigits2]. rewrite Hx, Hy.
  rewrite fexp_normal by lia.
  replace (Z.min (53 + ex - (53 + ey) - 53) (ex - ey)) with (ex - ey - 53) by lia.
  replace (ex - ey - (ex - ey - 53)) with 53 by lia.
  rewrite Z.shiftl_mul_pow2 by lia.
  rewrite div_eucl_div_mod. reflexivity.
Qed.

Lemma loc_roundtrip (q : Z) (l : location) :
  loc_of_shr_record (shr_record_of_loc q l) = l.
Proof. destruct l as [|[| |]]; reflexivity. Qed.

Lemma shr_m_record (q : Z) (l : location) : shr_m (shr_record_of_loc q l) = q.
Proof. destruct l as [|[| |]]; reflexivity. Qed.

Lemma rne_bounds (q : Z) (l : location) : q <= rne q l <= q + 1.
Proof.
  unfold rne, round_nearest_even. destruct l as [|[| |]]; try lia.
  destruct (Z.even q); lia.
Qed.

Lemma Zdigits2_eq (q d : Z) : 2 ^ (d - 1) <= q < 2 ^ d -> 0 < q -> Zdigits2 q = d.
Proof.
  intros H Hq. destruct q as [|p|p]; try lia. cbn [Zdigits2].
  now apply digits2_pos_unique.
Qed.

(** Final normalisation after rounding a 53-bit mantissa *)
Lemma renorm (M e : Z) :
  2 ^ 52 <= M <= 2 ^ 53 -> -1000 <= e <= 900 ->
  (let '(mrs, e'') := shr_fexp Float64.prec Float64.emax M e loc_Exact in
   match shr_m mrs with
   | Z0 => S754_zero false
   | Zpos m => if e'' <=? Float64.emax - Float64.prec then S754_finite false m e'' else S754_infinity false
   | Zneg _ => S754_nan
   end)
  = if M <? 2 ^ 53 then S754_finite false (Z.to_pos M) e
    else S754_finite false (Z.to_pos (2 ^ 52)) (e + 1).
Proof.
  intros HM He. unfold shr_fexp.
  destruct (Z.ltb_spec M (2 ^ 53)) as [Hlt | Hge].
  - rewrite (Zdigits2_eq M 53) by (change (53 - 1) with 52; lia).
    rewrite fexp_normal by lia.
    replace (53 + e - 53 - e) with 0 by lia. cbn [shr shr_record_of_loc shr_m].
    destruct M as [|m|m]; try lia. cbn [Z.to_pos].
    replace (e <=? Float64.emax - Float64.prec) with true; [reflexivity | ].
    symmetry. apply Z.leb_le. unfold Float64.emax, Float64.prec. lia.
  - assert (M = 2 ^ 53) by lia. subst M.
    change (Zdigits2 (2 ^ 53)) with 54.
    rewrite fexp_normal by lia.
    replace (54 + e - 53 - e) with 1 by lia.
    cbn [shr shr_record_of_loc iter_pos]. 
    change (shr_m (shr_1 {| shr_m := 2 ^ 53; shr_r := false; shr_s := false |}))
      with (2 ^ 52).
    change (2 ^ 52) with (Zpos (Z.to_pos (2 ^ 52))) at 1. cbv iota beta.
    replace (e + 1 <=? Float64.emax - Float64.prec) with true; [reflexivity | ].
    symmetry. apply Z.leb_le. unfold Float64.emax, Float64.prec. lia.
Qed.

Lemma bra_53 (q e : Z) (l : location) :
  2 ^ 52 <= q < 2 ^ 53 -> -1000 <= e <= 900 ->
  binary_round_aux Float64.prec Float64.emax false q e l
  = if rne q l <? 2 ^ 53 then S754_finite false (Z.to_pos (rne q l)) e
    else S754_finite false (Z.to_pos (2 ^ 52)) (e + 1).
Proof.
  intros Hq He. unfold binary_round_aux.
  unfold shr_fexp at 1.
  rewrite (Zdigits2_eq q 53) by (change (53 - 1) with 52; lia).
  rewrite fexp_normal by lia.
  replace (53 + e - 53 - e) with 0 by lia. cbn [shr].
  rewrite loc_roundtrip, shr_m_record.
  pose proof (rne_bounds q l).
  apply (renorm (rne q l) e); lia.
Qed.

Lemma shr_1_pos (q : Z) (l : location) :
  0 < q ->
  shr_1 (shr_record_of_loc q l)
  = {| shr_m := Z.div2 q; shr_r := Z.odd q; shr_s := sticky l |}.
Proof.
  intros Hq. destruct q as [|[p|p|]|]; try lia; destruct l as [|[| |]]; reflexivity.
Qed.

Lemma bra_54 (q e : Z) (l : location) :
  2 ^ 53 <= q < 2 ^ 54 -> -1000 <= e <= 899 ->
  binary_round_aux Float64.prec Float64.emax false q e l
  = if rne (Z.div2 q) (loc2 (Z.odd q) (sticky l)) <? 2 ^ 53
    then S754_finite false (Z.to_pos (rne (Z.div2 q) (loc2 (Z.odd q) (sticky l)))) (e + 1)
    else S754_finite false (Z.to_pos (2 ^ 52)) (e + 1 + 1).
Proof.
  intros Hq He. unfold binary_round_aux.
  unfold shr_fexp at 1.
  rewrite (Zdigits2_eq q 54) by (change (54 - 1) with 53; lia).
  rewrite fexp_normal by lia.
  replace (54 + e - 53 - e) with 1 by lia. cbn [shr iter_pos].
  rewrite shr_1_pos by lia. cbn [shr_m].
  change (loc_of_shr_record {| shr_m := Z.div2 q; shr_r := Z.odd q; shr_s := sticky l |})
    with (loc2 (Z.odd q) (sticky l)).
  pose proof (rne_bounds (Z.div2 q) (loc2 (Z.odd q) (sticky l))).
  assert (2 ^ 52 <= Z.div2 q < 2 ^ 53).
  { rewrite Z.div2_div. split.
    - apply Z.div_le_lower_bound; lia.
    - apply Z.div_lt_upper_bound; lia. }
  unfold rne in *. apply (renorm _ (e + 1)); lia.
Qed.

Lemma new_location_scaled (m r0 s : Z) :
  0 < s -> Z.even s = true ->
  new_location (m * s) (r0 * s) = loc0 r0 m.
Proof.
  intros Hs He. unfold new_location, new_location_even, loc0.
  rewrite Z.even_mul, He, orb_true_r.
  destruct (Z.eqb_spec r0 0) as [E | E].
  - subst r0. reflexivity.
  - destruct (Z.eqb_spec (r0 * s) 0) as [E' | E']; [ | ].
    + apply Z.mul_eq_0 in E'. lia.
    + f_equal. rewrite Z.mul_assoc. symmetry. apply Zmult_compare_compat_r. lia.
Qed.

Lemma rne_C03 (l : location) :
  round_nearest_even C03 l
  = match l with
    | loc_Exact | loc_Inexact Lt => C03
    | _ => C03 + 1
    end.
Proof. destruct l as [|[| |]]; reflexivity. Qed.

(** Rounding [n * 2^54 / m] to an integer, to nearest and ties to
    even, is above [C03] exactly when [n / m] is above 3/10. *)
Lemma round_direct (n m q r0 : Z) :
  0 < m < 2 ^ 52 -> 0 <= r0 < m -> 0 <= q ->
  n * 2 ^ 54 = q * m + r0 ->
  (C03 <? round_nearest_even q (loc0 r0 m)) = (3 * m <? 10 * n).
Proof.
  intros Hm Hr Hq Heq.
  pose proof (rne_bounds q (loc0 r0 m)) as Hb. unfold rne in Hb.
  change (2 ^ 54) with 18014398509481984 in Heq.
  change (2 ^ 52) with 4503599627370496 in Hm.
  destruct (Z.lt_trichotomy q C03) as [Hlt | [Hq0 | Hgt]].
  - assert (q * m <= (C03 - 1) * m) by (apply Z.mul_le_mono_nonneg_r; lia).
    unfold C03 in *.
    replace (3 * m <? 10 * n) with false by (symmetry; apply Z.ltb_ge; lia).
    apply Z.ltb_ge. lia.
  - subst q. rewrite rne_C03. unfold loc0, C03 in *.
    destruct (Z.eqb_spec r0 0) as [E | E].
    + replace (3 * m <? 10 * n) with false by (symmetry; apply Z.ltb_ge; lia).
      reflexivity.
    + destruct (Z.compare_spec (2 * r0) m) as [E2 | E2 | E2].
      * replace (3 * m <? 10 * n) with true by (symmetry; apply Z.ltb_lt; lia).
        reflexivity.
      * replace (3 * m <? 10 * n) with false by (symmetry; apply Z.ltb_ge; lia).
        reflexivity.
      * replace (3 * m <? 10 * n) with true by (symmetry; apply Z.ltb_lt; lia).
        reflexivity.
  - assert ((C03 + 1) * m <= q * m) by (apply Z.mul_le_mono_nonneg_r; lia).
    unfold C03 in *.
    replace (3 * m <? 10 * n) with true by (symmetry; apply Z.ltb_lt; lia).
    apply Z.ltb_lt. lia.
Qed.

Lemma loc2_cases (rb sb : bool) :
  loc2 rb sb
  = match rb, sb with
    | false, false => loc_Exact
    | false, true => loc_Inexact Lt
    | true, false => loc_Inexact Eq
    | true, true => loc_Inexact Gt
    end.
Proof. destruct rb, sb; reflexivity. Qed.

(** The same for [n * 2^55 / m] rounded through one shift to the
    right, with round and sticky bits. *)
Lemma round_shifted (n m q r0 : Z) :
  0 < m < 2 ^ 52 -> 0 <= r0 < m -> 0 <= q ->
  n * 2 ^ 55 = q * m + r0 ->
  (C03 <? round_nearest_even (Z.div2 q) (loc2 (Z.odd q) (sticky (loc0 r0 m))))
  = (3 * m <? 10 * n).
Proof.
  intros Hm Hr Hq Heq.
  pose proof (rne_bounds (Z.div2 q) (loc2 (Z.odd q) (sticky (loc0 r0 m)))) as Hb.
  unfold rne in Hb.
  pose proof (Z.div2_odd q) as Hq2.
  change (2 ^ 55) with 36028797018963968 in Heq.
  change (2 ^ 52) with 4503599627370496 in Hm.
  remember (Z.div2 q) as h eqn:Hh. clear Hh.
  destruct (Z.lt_trichotomy h C03) as [Hlt | [Hq0 | Hgt]].
  - assert (q * m <= (2 * C03 - 1) * m).
    { apply Z.mul_le_mono_nonneg_r; [lia | ]. destruct (Z.odd q); cbn [Z.b2z] in Hq2; lia. }
    unfold C03 in *.
    replace (3 * m <? 10 * n) with false by (symmetry; apply Z.ltb_ge; lia).
    apply Z.ltb_ge. lia.
  - subst h. rewrite rne_C03, loc2_cases.
    destruct (Z.odd q) eqn:Hodd; cbn [Z.b2z] in Hq2.
    + assert (q = 2 * C03 + 1) by lia. subst q. unfold C03 in *.
      replace (3 * m <? 10 * n) with true by (symmetry; apply Z.ltb_lt; lia).
      destruct (sticky _); reflexivity.
    + assert (q = 2 * C03) by lia. subst q. unfold C03 in *.
      replace (3 * m <? 10 * n) with false by (symmetry; apply Z.ltb_ge; lia).
      destruct (sticky _); reflexivity.
  - assert ((2 * C03 + 2) * m <= q * m).
    { apply Z.mul_le_mono_nonneg_r; [lia | ]. destruct (Z.odd q); cbn [Z.b2z] in Hq2; lia. }
    unfold C03 in *.
    replace (3 * m <? 10 * n) with true by (symmetry; apply Z.ltb_lt; lia).
    apply Z.ltb_lt. lia.
Qed.

Lemma gt_finite_pos (M E : Z) :
  0 < M ->
  Float64.gt (S754_finite false (Z.to_pos M) E) Float64.c0_3
  = match -54 ?= E with
    | Lt => true
    | Eq => C03 <? M
    | Gt => false
    end.
Proof. intros HM. rewrite gt_c0_3, Z2Pos.id by exact HM. reflexivity. Qed.

Lemma ratio_round (n m j q r0 : Z) :
  0 < n -> 0 < m < 2 ^ 52 -> 0 <= j <= 52 ->
  m < n * 2 ^ (j + 1) -> n * 2 ^ j < 2 * m ->
  n * 2 ^ (53 + j) = q * m + r0 -> 0 <= r0 < m ->
  Float64.gt (binary_round_aux Float64.prec Float64.emax false q (- j - 53) (loc0 r0 m)) Float64.c0_3
  = (3 * m <? 10 * n).
Proof.
  intros Hn Hm Hj Hlo Hhi Heq Hr.
  rewrite Z.pow_add_r in Hlo, Heq by lia.
  change (2 ^ 1) with 2 in Hlo. change (2 ^ 53) with 9007199254740992 in *.
  change (2 ^ 52) with 4503599627370496 in *.
  assert (HK : 1 <= 2 ^ j) by (apply (Z.pow_le_mono_r 2 0 j); lia).
  assert (Hq : 4503599627370496 <= q < 18014398509481984).
  { split.
    - destruct (Z.le_gt_cases 4503599627370496 q) as [H | H]; [exact H | exfalso].
      assert ((q + 1) * m <= 4503599627370496 * m)
        by (apply Z.mul_le_mono_nonneg_r; lia).
      lia.
    - destruct (Z.lt_ge_cases q 18014398509481984) as [H | H]; [exact H | exfalso].
      assert (18014398509481984 * m <= q * m)
        by (apply Z.mul_le_mono_nonneg_r; lia).
      lia. }
  set (l := loc0 r0 m).
  assert (Hcases : j = 0 \/ j = 1 \/ j = 2 \/ 3 <= j) by lia.
  destruct (Z.lt_ge_cases q 9007199254740992) as [Hq53 | Hq54].
  - (* the quotient has 53 bits *)
    rewrite bra_53 by (change (2 ^ 52) with 4503599627370496;
                       change (2 ^ 53) with 9007199254740992; lia).
    change (2 ^ 52) with 4503599627370496; change (2 ^ 53) with 9007199254740992.
    pose proof (rne_bounds q l) as Hb. fold rne.
    assert (Hqm : (q + 1) * m <= 9007199254740992 * m)
      by (apply Z.mul_le_mono_nonneg_r; lia).
    destruct Hcases as [-> | [-> | [-> | Hj3]]].
    + replace (3 * m <? 10 * n) with true
        by (symmetry; apply Z.ltb_lt; change (2 ^ 0) with 1 in *; lia).
      destruct (rne q l <? 9007199254740992); rewrite gt_finite_pos by lia; reflexivity.
    + change (53 + 1) with 54 in Heq. change (9007199254740992 * 2 ^ 1) with (2 ^ 54) in Heq.
      rewrite <- (round_direct n m q r0) by
        (try assumption; change (2 ^ 52) with 4503599627370496; lia).
      fold l. fold rne.
      destruct (Z.ltb_spec (rne q l) 9007199254740992) as [H | H];
        rewrite gt_finite_pos by lia; cbn [Z.opp Z.sub Z.add Z.compare Z.pos_sub
          Pos.compare Pos.compare_cont Pos.succ Pos.pred_double].
      * reflexivity.
      * unfold C03. symmetry. apply Z.ltb_lt. lia.
    + replace (3 * m <? 10 * n) with false
        by (symmetry; apply Z.ltb_ge; change (2 ^ 2) with 4 in *; lia).
      destruct (rne q l <? 9007199254740992); rewrite gt_finite_pos by lia; reflexivity.
    + assert (8 <= 2 ^ j) by (apply (Z.pow_le_mono_r 2 3 j); lia).
      replace (3 * m <? 10 * n) with false by (symmetry; apply Z.ltb_ge; nia).
      destruct (rne q l <? 9007199254740992); rewrite gt_finite_pos by lia.
      * destruct (Z.compare_spec (-54) (- j - 53)); try reflexivity; lia.
      * destruct (Z.compare_spec (-54) (- j - 53 + 1)); try reflexivity; lia.
  - (* the quotient has 54 bits *)
    rewrite bra_54 by (change (2 ^ 54) with 18014398509481984;
                       change (2 ^ 53) with 9007199254740992; lia).
    change (2 ^ 52) with 4503599627370496; change (2 ^ 53) with 9007199254740992.
    set (M1 := rne (Z.div2 q) (loc2 (Z.odd q) (sticky l))).
    pose proof (rne_bounds (Z.div2 q) (loc2 (Z.odd q) (sticky l))) as Hb.
    fold M1 in Hb.
    assert (Hh : 4503599627370496 <= Z.div2 q).
    { rewrite Z.div2_div. apply Z.div_le_lower_bound; lia. }
    assert (Hqm : 9007199254740992 * m <= q * m)
      by (apply Z.mul_le_mono_nonneg_r; lia).
    destruct Hcases as [-> | [-> | [-> | Hj3]]].
    + replace (3 * m <? 10 * n) with true
        by (symmetry; apply Z.ltb_lt; change (2 ^ 0) with 1 in *; lia).
      destruct (M1 <? 9007199254740992); rewrite gt_finite_pos by lia; reflexivity.
    + replace (3 * m <? 10 * n) with true
        by (symmetry; apply Z.ltb_lt; change (2 ^ 1) with 2 in *; lia).
      destruct (M1 <? 9007199254740992); rewrite gt_finite_pos by lia; reflexivity.
    + change (53 + 2) with 55 in Heq. change (9007199254740992 * 2 ^ 2) with (2 ^ 55) in Heq.
      rewrite <- (round_shifted n m q r0) by
        (try assumption; change (2 ^ 52) with 4503599627370496; lia).
      fold l. fold rne. fold M1.
      destruct (Z.ltb_spec M1 9007199254740992) as [H | H];
        rewrite gt_finite_pos by lia; cbn [Z.opp Z.sub Z.add Z.compare Z.pos_sub
          Pos.compare Pos.compare_cont Pos.succ Pos.pred_double].
      * reflexivity.
      * unfold C03. symmetry. apply Z.ltb_lt. lia.
    + assert (8 <= 2 ^ j) by (apply (Z.pow_le_mono_r 2 3 j); lia).
      replace (3 * m <? 10 * n) with false by (symmetry; apply Z.ltb_ge; nia).
      destruct (M1 <? 9007199254740992); rewrite gt_finite_pos by lia.
      * destruct (Z.compare_spec (-54) (- j - 53 + 1)); try reflexivity; lia.
      * destruct (Z.compare_spec (-54) (- j - 53 + 1 + 1)); try reflexivity; try lia.
Qed.

Lemma float_ratio_gt (n m : Z) :
  0 <= n <= m -> 0 < m < 2 ^ 52 ->
  Float64.gt (Float64.div (Float64.of_int n) (Float64.of_int m)) Float64.c0_3 = (3 * m <? 10 * n).
Proof.
  intros Hn Hm.
  destruct m as [|pm|pm]; try lia.
  assert (Hm53 : Zpos pm < 2 ^ 53) by (change (2 ^ 53) with (2 * 2 ^ 52); lia).
  destruct (of_int_pos pm Hm53) as (my & Emy & Hmy & Dmy).
  destruct (digits2_pos_bounds pm) as [Bm1 Bm2].
  set (dm := Zpos (digits2_pos pm)) in *.
  assert (Hdm : 1 <= dm <= 52).
  { split; [unfold dm; lia | ].
    destruct (Z.leb_spec dm 52) as [H | H]; [exact H | exfalso].
    assert (2 ^ 52 <= 2 ^ (dm - 1)) by (apply Z.pow_le_mono_r; lia). lia. }
  destruct n as [|pn|pn]; try lia.
  - rewrite Emy. replace (3 * Zpos pm <? 10 * 0) with false
      by (symmetry; apply Z.ltb_ge; lia).
    reflexivity.
  - assert (Hn53 : Zpos pn < 2 ^ 53) by lia.
    destruct (of_int_pos pn Hn53) as (mx & Emx & Hmx & Dmx).
    destruct (digits2_pos_bounds pn) as [Bn1 Bn2].
    set (dn := Zpos (digits2_pos pn)) in *.
    assert (Hdn : 1 <= dn <= dm).
    { split; [unfold dn; lia | ].
      destruct (Z.leb_spec dn dm) as [H | H]; [exact H | exfalso].
      assert (2 ^ dm <= 2 ^ (dn - 1)) by (apply Z.pow_le_mono_r; lia). lia. }
    set (j := dm - dn).
    set (s := 2 ^ (53 - dm)).
    assert (Hs : 0 < s) by (apply Z.pow_pos_nonneg; lia).
    assert (Hse : Z.even s = true).
    { unfold s. replace (53 - dm) with (Z.succ (52 - dm)) by lia.
      rewrite Z.pow_succ_r by lia. rewrite Z.even_mul. reflexivity. }
    assert (Hsn : 2 ^ (53 - dn) = 2 ^ j * s).
    { unfold s, j. rewrite <- Z.pow_add_r by lia. f_equal. lia. }
    assert (Hpow : 2 ^ (53 + j) = 2 ^ 53 * 2 ^ j) by (apply Z.pow_add_r; lia).
    assert (Hnum : Zpos mx * 2 ^ 53 = Zpos pn * 2 ^ (53 + j) * s).
    { rewrite Hmx, Hsn, Hpow. ring. }
    rewrite Emx, Emy, div_norm by (try assumption; lia).
    rewrite Hnum, Hmy. fold s.
    rewrite Z.div_mul_cancel_r, Z.mul_mod_distr_r by lia.
    rewrite new_location_scaled by assumption.
    replace (dn - 53 - (dm - 53) - 53) with (- j - 53) by (unfold j; lia).
    pose proof (Z.div_mod (Zpos pn * 2 ^ (53 + j)) (Zpos pm) ltac:(lia)) as Hdiv.
    pose proof (Z.mod_pos_bound (Zpos pn * 2 ^ (53 + j)) (Zpos pm) ltac:(lia)) as Hrem.
    apply ratio_round; try lia.
    + replace (j + 1) with (dm - (dn - 1)) by (unfold j; lia).
      assert (E : 2 ^ dm = 2 ^ (dn - 1) * 2 ^ (dm - (dn - 1)))
        by (rewrite <- Z.pow_add_r by lia; f_equal; lia).
      assert (0 < 2 ^ (dm - (dn - 1))) by (apply Z.pow_pos_nonneg; lia).
      assert (2 ^ (dn - 1) * 2 ^ (dm - (dn - 1)) <= Zpos pn * 2 ^ (dm - (dn - 1)))
        by (apply Z.mul_le_mono_nonneg_r; lia).
      lia.
    + assert (E : 2 ^ dm = 2 ^ dn * 2 ^ j)
        by (unfold j; rewrite <- Z.pow_add_r by lia; f_equal; lia).
      assert (E' : 2 ^ dm = 2 * 2 ^ (dm - 1))
        by (rewrite <- Z.pow_succ_r by lia; f_equal; lia).
      assert (0 < 2 ^ j) by (apply Z.pow_pos_nonneg; unfold j; lia).
      assert (Zpos pn * 2 ^ j < 2 ^ dn * 2 ^ j) by (apply Z.mul_lt_mono_pos_r; lia).
      lia.
Qed.

(** *** The counting loop *)

Lemma count_nulls_filter (data : list byte) :
  forall (fuel i : nat) (acc : Z),
    Nat.odd i = true -> (List.length data <= fuel + i)%nat ->
    count_nulls fuel data i acc
    = acc + Z.of_nat (List.length (filter (odd_zero data) (seq i (List.length data - i)))).
Proof.
  induction fuel as [|fuel IH]; intros i acc Hodd Hf.
  - replace (List.length data - i)%nat with 0%nat by lia. cbn. lia.
  - cbn [count_nulls].
    destruct (Nat.ltb_spec i (List.length data)) as [Hlt | Hge].
    + rewrite IH by (try lia; rewrite Nat.add_comm; cbn [Nat.add Nat.odd]; exact Hodd).
      destruct (List.length data - i)%nat as [|[|k]] eqn:Ek; [lia | | ].
      * replace (List.length data - (i + 2))%nat with 0%nat by lia.
        cbn [seq filter].
        change (odd_zero data i) with (Nat.odd i && Byte.eqb (at_ data i) x00).
        rewrite Hodd. cbn [andb].
        destruct (Byte.eqb (at_ data i) x00); cbn [List.length]; lia.
      * replace (List.length data - (i + 2))%nat with k by lia.
        cbn [seq filter].
        change (odd_zero data i) with (Nat.odd i && Byte.eqb (at_ data i) x00).
        change (odd_zero data (S i))
          with (Nat.odd (S i) && Byte.eqb (at_ data (S i)) x00).
        rewrite Hodd.
        replace (Nat.odd (S i)) with false
          by (symmetry; rewrite Nat.odd_succ, <- Nat.negb_odd, Hodd; reflexivity).
        cbn [andb]. replace (S (S i)) with (i + 2)%nat by lia.
        destruct (Byte.eqb (at_ data i) x00); cbn [List.length]; lia.
    + replace (List.length data - i)%nat with 0%nat by lia. cbn. lia.
Qed.

(** The loop of [isUTF16] counts what the specification describes. *)
Lemma count_nulls_spec (data : list byte) :
  count_nulls (List.length data) data 1 0 = zero_odd_count data.
Proof.
  rewrite count_nulls_filter by (try reflexivity; lia).
  unfold zero_odd_count. fold (odd_zero data).
  destruct (List.length data) as [|k]; [reflexivity | ].
  cbn [seq filter].
  change (odd_zero data 0) with (Nat.odd 0 && Byte.eqb (at_ data 0) x00).
  cbn [Nat.odd andb negb Nat.even].
  replace (S k - 1)%nat with k by lia. lia.
Qed.

Lemma odd_filter_bound (data : list byte) :
  forall (k i : nat),
    Nat.odd i = true ->
    (2 * List.length (filter (odd_zero data) (seq i k)) <= k + 1)%nat.
Proof.
  intros k. induction k as [k IH] using (well_founded_induction lt_wf).
  intros i Hodd. destruct k as [|[|k]].
  - cbn. lia.
  - cbn [seq filter]. destruct (odd_zero data i); cbn [List.length]; lia.
  - cbn [seq filter].
    change (odd_zero data i) with (Nat.odd i && Byte.eqb (at_ data i) x00).
    change (odd_zero data (S i))
      with (Nat.odd (S i) && Byte.eqb (at_ data (S i)) x00).
    rewrite Hodd.
    replace (Nat.odd (S i)) with false
      by (symmetry; rewrite Nat.odd_succ, <- Nat.negb_odd, Hodd; reflexivity).
    cbn [andb].
    assert (Hk : (2 * List.length (filter (odd_zero data) (seq (S (S i)) k)) <= k + 1)%nat)
      by (apply IH; [lia | cbn [Nat.odd]; exact Hodd]).
    destruct (Byte.eqb (at_ data i) x00); cbn [List.length]; lia.
Qed.

Lemma zero_odd_count_bounds (data : list byte) :
  0 <= zero_odd_count data <= len data / 2.
Proof.
  unfold zero_odd_count, len. fold (odd_zero data). split; [lia | ].
  apply Z.div_le_lower_bound; [lia | ].
  destruct (List.length data) as [|k]; [cbn; lia | ].
  cbn [seq filter].
  change (odd_zero data 0) with (Nat.odd 0 && Byte.eqb (at_ data 0) x00).
  cbn [Nat.odd andb negb Nat.even].
  pose proof (odd_filter_bound data k 1 eq_refl). lia.
Qed.

(** *** The ratio as a rational number *)

Lemma ratio_above_3_10 (n m : Z) :
  0 < m ->
  negb (Qle_bool (inject_Z n / inject_Z m) (3 # 10)) = (3 * m <? 10 * n).
Proof.
  intros Hm. destruct m as [|p|p]; try lia.
  unfold Qle_bool, Qdiv, Qmult, Qinv, inject_Z. cbn [Qnum Qden].
  rewrite <- Z.ltb_antisym, Pos.mul_1_l.
  f_equal. lia.
Qed.

(** *** The classifier *)

Lemma even_mod2 (n : Z) : (n mod 2 =? 0) = Z.even n.
Proof. rewrite Zmod_even. destruct (Z.even n); reflexivity. Qed.

(** C3. [isUTF16] is the three-step classifier of the specification:
    true on a leading FF FE or FE FF whatever follows; otherwise, for
    an even length above 10, true exactly when the zero bytes at odd
    positions, divided by half the length, exceed 3/10; false in every
    other case. The float64 comparison of the code decides the same as
    the comparison of the exact ratio for every buffer shorter than
    2^53 bytes, which every Go slice is. *)
Theorem C3_isUTF16_is_reference (data : list byte) :
  len data < 2 ^ 53 -> isUTF16 data = is_utf16_ref data.
Proof.
  intros Hlen. unfold isUTF16, is_utf16_ref.
  destruct data as [|b0 [|b1 rest]]; try reflexivity.
  rewrite len_cons2. unfold is_bom_le, is_bom_be, at_. cbn [nth andb].
  set (data := b0 :: b1 :: rest) in *.
  destruct (Byte.eqb b0 xff && Byte.eqb b1 xfe); [reflexivity | ].
  destruct (Byte.eqb b0 xfe && Byte.eqb b1 xff); [reflexivity | ].
  cbn [orb]. rewrite even_mod2.
  destruct (Z.even (len data) && (10 <? len data)) eqn:Hgate; [ | reflexivity].
  apply andb_true_iff in Hgate. destruct Hgate as [_ Hgt]. apply Z.ltb_lt in Hgt.
  pose proof (zero_odd_count_bounds data) as Hcnt.
  assert (Hhalf : 0 < len data / 2 < 2 ^ 52).
  { split.
    - apply Z.div_str_pos. lia.
    - apply Z.div_lt_upper_bound; [lia | ]. change (2 * 2 ^ 52) with (2 ^ 53). lia. }
  rewrite count_nulls_spec, float_ratio_gt by assumption.
  unfold odd_zero_ratio. symmetry. apply ratio_above_3_10. lia.
Qed.

Lemma C3_isUTF16_is_reference_witness :
  len sample_utf16 < 2 ^ 53
  /\ isUTF16 sample_utf16 = is_utf16_ref sample_utf16.
Proof.
  split; [reflexivity | ].
  apply (C3_isUTF16_is_reference sample_utf16). reflexivity.
Defined.

(** ** C8: the output field *)

(** *** Bytes and code units *)

Lemma byte_of_Z_u8 (b : byte) : byte_of_Z (u8 b) = b.
Proof.
  unfold byte_of_Z. pose proof (u8_range b) as Hr.
  rewrite Z.mod_small by exact Hr. unfold u8. rewrite N2Z.id, Byte.of_to_N.
  reflexivity.
Qed.

Lemma code_unit_ok (le : bool) (data : list byte) (i : nat) :
  unit_ok (code_unit le data i).
Proof.
  assert (H : forall a c : byte,
             unit_ok (Z.lor (u8 a) (uint16 (Z.shiftl (u8 c) 8)))).
  { intros a c. pose proof (u8_range a). pose proof (u8_range c).
    unfold unit_ok, uint16. rewrite Z.shiftl_mul_pow2 by lia.
    change (2 ^ 8) with 256. rewrite Z.mod_small by lia.
    rewrite Z.lor_comm. change 256 with (2 ^ 8).
    rewrite lor_concat by (change (2 ^ 8) with 256; lia).
    change (2 ^ 8) with 256. lia. }
  unfold code_unit. destruct le; apply H.
Qed.

(** *** White space and its UTF-8 *)

Lemma IsSpace_white_space (c : Z) : IsSpace c = true <-> white_space c.
Proof.
  unfold IsSpace, white_space, uint32, MaxLatin1. split.
  - destruct (Z.leb_spec (c mod 4294967296) 255) as [H | H]; intros Hs;
      rewrite ?orb_true_iff, ?andb_true_iff, ?Z.eqb_eq, ?Z.leb_le in Hs; lia.
  - intros Hw. assert (Hm : c mod 4294967296 = c) by (apply Z.mod_small; lia).
    rewrite Hm.
    destruct (Z.leb_spec c 255) as [H | H];
      rewrite ?orb_true_iff, ?andb_true_iff, ?Z.eqb_eq, ?Z.leb_le; lia.
Qed.

Lemma white_space_scalar (c : Z) : white_space c -> scalar_value c.
Proof. unfold white_space, scalar_value. lia. Qed.

Lemma encoderune_1 (c : Z) : 0 <= c < 0x80 -> Utf8.encoderune c = [c].
Proof.
  intros Hc. unfold Utf8.encoderune, uint32, Utf8.rune1Max.
  rewrite Z.mod_small by lia.
  replace (c <=? 127) with true by (symmetry; apply Z.leb_le; lia). reflexivity.
Qed.

Lemma div_mod_64 (a x : Z) :
  0 <= x < 64 -> (a * 64 + x) / 64 = a /\ (a * 64 + x) mod 64 = x.
Proof.
  intros Hx. split.
  - symmetry. apply (Z.div_unique (a * 64 + x) 64 a x); lia.
  - symmetry. apply (Z.mod_unique (a * 64 + x) 64 a x); lia.
Qed.

Lemma encoderune_2 (y x : Z) :
  2 <= y < 32 -> 0 <= x < 64 ->
  Utf8.encoderune (y * 64 + x) = [0xC0 + y; 0x80 + x].
Proof.
  intros Hy Hx. destruct (div_mod_64 y x Hx) as [Hd Hm].
  unfold Utf8.encoderune, uint32, Utf8.rune1Max, Utf8.rune2Max, Utf8.maskx.
  rewrite Z.mod_small by lia.
  replace (y * 64 + x <=? 127) with false by (symmetry; apply Z.leb_gt; lia).
  replace (y * 64 + x <=? 2047) with true by (symmetry; apply Z.leb_le; lia).
  change 0x3F with (Z.ones 6). rewrite Z.land_ones, Z.shiftr_div_pow2 by lia.
  change (2 ^ 6) with 64. rewrite Hd, Hm, lor_C0, lor_80 by lia. reflexivity.
Qed.

Lemma encoderune_3 (z y x : Z) :
  0 <= z < 16 -> 0 <= y < 64 -> 0 <= x < 64 ->
  (z = 0 -> 32 <= y) -> (z = 13 -> y < 32) ->
  Utf8.encoderune (z * 4096 + y * 64 + x) = [0xE0 + z; 0x80 + y; 0x80 + x].
Proof.
  intros Hz Hy Hx Hlo Hhi.
  set (c := z * 4096 + y * 64 + x).
  assert (Hc : c = (z * 64 + y) * 64 + x) by (unfold c; lia).
  destruct (div_mod_64 (z * 64 + y) x Hx) as [Hd Hm]. rewrite <- Hc in Hd, Hm.
  destruct (div_mod_64 z y Hy) as [Hd2 Hm2].
  assert (Hd12 : c / 4096 = z).
  { change 4096 with (64 * 64). rewrite <- Z.div_div by lia. now rewrite Hd. }
  unfold Utf8.encoderune, Utf8.enc3, uint32, Utf8.rune1Max, Utf8.rune2Max,
    Utf8.rune3Max, Utf8.MaxRune, Utf8.surrogateMin, Utf8.surrogateMax, Utf8.maskx.
  rewrite Z.mod_small by lia.
  replace (c <=? 127) with false by (symmetry; apply Z.leb_gt; lia).
  replace (c <=? 2047) with false by (symmetry; apply Z.leb_gt; lia).
  replace ((1114111 <? c) || ((55296 <=? c) && (c <=? 57343))) with false
    by (symmetry; apply orb_false_iff; split;
        [apply Z.ltb_ge; lia
         | apply andb_false_iff;
           destruct (Z_le_gt_dec z 13); [left | right]; apply Z.leb_gt; lia]).
  replace (c <=? 65535) with true by (symmetry; apply Z.leb_le; lia).
  change 0x3F with (Z.ones 6). rewrite !Z.land_ones, !Z.shiftr_div_pow2 by lia.
  change (2 ^ 6) with 64. change (2 ^ 12) with 4096.
  rewrite Hd12, Hd, Hm, Hm2, lor_E0, !lor_80 by lia. reflexivity.
Qed.

(** *** Decoding a rune at the start of a string *)

Lemma DecodeRune_seq (e : list Z) (r : Z) (rest : list Z) :
  utf8_seq e r -> Utf8.DecodeRune (e ++ rest) = (r, List.length e).
Proof.
  intros H. destruct H; cbn [app List.length].
  - now apply DecodeRune_1.
  - now apply DecodeRune_2.
  - now apply DecodeRune_3.
  - now apply DecodeRune_4.
Qed.

Lemma DecodeRune_invalid_first (s0 : Z) (t : list Z) :
  0x80 <= s0 -> s0 < 0xC2 \/ 0xF4 < s0 ->
  Utf8.DecodeRune (s0 :: t) = (Utf8.RuneError, 1%nat).
Proof.
  intros H1 H2. unfold Utf8.DecodeRune, Utf8.RuneSelf.
  replace (s0 <? 128) with false by (symmetry; apply Z.ltb_ge; lia).
  replace ((s0 <? 194) || (244 <? s0)) with true; [reflexivity | ].
  symmetry. apply orb_true_iff. destruct H2; [left | right]; apply Z.ltb_lt; lia.
Qed.

Ltac eval_decode :=
  unfold Utf8.DecodeRune, Utf8.in_range, Utf8.RuneSelf, Utf8.locb, Utf8.hicb, Utf8.maskx;
  cbn [List.length];
  split_tests; cbn [orb andb negb Nat.ltb Nat.leb List.length]; try reflexivity;
  repeat match goal with
         | |- context [if ?c then _ else _] => destruct c
         end;
  try reflexivity.

(** [DecodeRune] finds a well-formed sequence at the start of the
    bytes, or gives U+FFFD with width 1. *)
Lemma DecodeRune_cases (s0 : Z) (t : list Z) :
  0 <= s0 ->
  (exists e r rest,
      s0 :: t = (e ++ rest)%list /\ utf8_seq e r
      /\ Utf8.DecodeRune (s0 :: t) = (r, List.length e))
  \/ (0x80 <= s0 /\ Utf8.DecodeRune (s0 :: t) = (Utf8.RuneError, 1%nat)).
Proof.
  intros Hpos.
  assert (Hleft : forall e r rest, s0 :: t = (e ++ rest)%list -> utf8_seq e r ->
            exists e r rest,
              s0 :: t = (e ++ rest)%list /\ utf8_seq e r
              /\ Utf8.DecodeRune (s0 :: t) = (r, List.length e)).
  { intros e r rest E H. exists e, r, rest. split; [exact E | split; [exact H | ]].
    rewrite E. now apply DecodeRune_seq. }
  destruct (Z_lt_le_dec s0 0x80) as [H1 | H1].
  { left. apply (Hleft [s0] s0 t); [reflexivity | constructor; lia]. }
  destruct (Z_lt_le_dec s0 0xC2) as [H2 | H2].
  { right. split; [lia | ]. apply DecodeRune_invalid_first; lia. }
  destruct (Z_lt_le_dec 0xF4 s0) as [H3 | H3].
  { right. split; [lia | ]. apply DecodeRune_invalid_first; lia. }
  destruct t as [|s1 t1].
  { right. split; [lia | ]. eval_decode. }
  destruct (Z_lt_le_dec s1 0x80) as [L1 | L1].
  { right. split; [lia | ]. eval_decode. }
  destruct (Z_lt_le_dec 0xBF s1) as [U1 | U1].
  { right. split; [lia | ]. eval_decode. }
  destruct (Z_lt_le_dec s0 0xE0) as [H4 | H4].
  { left. apply (Hleft [0xC0 + (s0 - 0xC0); 0x80 + (s1 - 0x80)]
                   ((s0 - 0xC0) * 64 + (s1 - 0x80)) t1).
    - cbn [app]. f_equal; [lia | f_equal; lia].
    - constructor; lia. }
  destruct t1 as [|s2 t2].
  { right. split; [lia | ]. eval_decode. }
  destruct (Z_lt_le_dec s2 0x80) as [L2 | L2].
  { right. split; [lia | ]. eval_decode. }
  destruct (Z_lt_le_dec 0xBF s2) as [U2 | U2].
  { right. split; [lia | ]. eval_decode. }
  destruct (Z_lt_le_dec s0 0xF0) as [H5 | H5].
  { destruct (Z.eq_dec s0 0xE0) as [E0 | E0];
      [destruct (Z_lt_le_dec s1 0xA0) as [A | A];
       [right; split; [lia | ]; subst s0; eval_decode | ] | ].
    all: destruct (Z.eq_dec s0 0xED) as [ED | ED];
      [destruct (Z_lt_le_dec 0x9F s1) as [B | B];
       [right; split; [lia | ]; subst s0; eval_decode | ] | ].
    all: left;
      apply (Hleft [0xE0 + (s0 - 0xE0); 0x80 + (s1 - 0x80); 0x80 + (s2 - 0x80)]
               ((s0 - 0xE0) * 4096 + (s1 - 0x80) * 64 + (s2 - 0x80)) t2);
      [cbn [app]; f_equal; [lia | f_equal; [lia | f_equal; lia]]
      | constructor; lia]. }
  destruct t2 as [|s3 t3].
  { right. split; [lia | ]. eval_decode. }
  destruct (Z_lt_le_dec s3 0x80) as [L3 | L3].
  { right. split; [lia | ]. eval_decode. }
  destruct (Z_lt_le_dec 0xBF s3) as [U3 | U3].
  { right. split; [lia | ]. eval_decode. }
  destruct (Z.eq_dec s0 0xF0) as [F0 | F0];
    [destruct (Z_lt_le_dec s1 0x90) as [A | A];
     [right; split; [lia | ]; subst s0; eval_decode | ] | ].
  all: destruct (Z.eq_dec s0 0xF4) as [F4 | F4];
    [destruct (Z_lt_le_dec 0x8F s1) as [B | B];
     [right; split; [lia | ]; subst s0; eval_decode | ] | ].
  all: left;
    apply (Hleft [0xF0 + (s0 - 0xF0); 0x80 + (s1 - 0x80); 0x80 + (s2 - 0x80);
                  0x80 + (s3 - 0x80)]
             ((s0 - 0xF0) * 262144 + (s1 - 0x80) * 4096 + (s2 - 0x80) * 64
              + (s3 - 0x80)) t3);
    [cbn [app]; f_equal; [lia | f_equal; [lia | f_equal; [lia | f_equal; lia]]]
    | constructor; lia].
Qed.

Lemma utf8_seq_length (e : list Z) (r : Z) :
  utf8_seq e r -> (1 <= List.length e <= 4)%nat.
Proof. intros H. destruct H; cbn [List.length]; lia. Qed.

(** What a well-formed sequence looks like: a first byte that starts
    a rune, then continuation bytes only. *)
Lemma utf8_seq_bytes (e : list Z) (r : Z) :
  utf8_seq e r ->
  exists h t,
    e = h :: t /\ (0 <= h < 0x80 \/ 0xC2 <= h <= 0xF4)
    /\ (h < 0x80 -> t = [] /\ r = h)
    /\ Forall (fun b => 0x80 <= b <= 0xBF) t.
Proof.
  intros H. destruct H; eexists; eexists; (split; [reflexivity | ]);
    (split; [lia | split; [intros; try lia; now split | ]]);
    repeat constructor; lia.
Qed.

Lemma utf8_seq_space (e : list Z) (r : Z) :
  utf8_seq e r -> white_space r -> e = Utf8.encoderune r.
Proof.
  intros H Hw. destruct H.
  - symmetry. now apply encoderune_1.
  - symmetry. now apply encoderune_2.
  - symmetry. now apply encoderune_3.
  - exfalso. unfold white_space in Hw. lia.
Qed.

Lemma encoderune_seq (c : Z) :
  scalar_value c -> c < 0x10000 -> utf8_seq (Utf8.encoderune c) c.
Proof.
  intros Hc Hb.
  destruct (Z_lt_le_dec c 0x80) as [H1 | H1].
  { rewrite encoderune_1 by (destruct Hc; lia). constructor. destruct Hc; lia. }
  pose proof (Z.div_mod c 64 ltac:(lia)) as D0.
  pose proof (Z.mod_pos_bound c 64 ltac:(lia)) as B0.
  destruct (Z_lt_le_dec c 0x800) as [H2 | H2].
  { assert (2 <= c / 64 < 32)
      by (split; [apply Z.div_le_lower_bound | apply Z.div_lt_upper_bound]; lia).
    replace c with (c / 64 * 64 + c mod 64) at 1 2 by lia.
    rewrite encoderune_2 by lia. constructor; lia. }
  pose proof (Z.div_mod (c / 64) 64 ltac:(lia)) as D1.
  pose proof (Z.mod_pos_bound (c / 64) 64 ltac:(lia)) as B1.
  rewrite (Z.div_div c 64 64) in D1 by lia. change (64 * 64) with 4096 in D1.
  assert (0 <= c / 4096 < 16)
    by (split; [apply Z.div_pos | apply Z.div_lt_upper_bound]; lia).
  assert (Hz0 : c / 4096 = 0 -> 32 <= (c / 64) mod 64) by lia.
  assert (Hz13 : c / 4096 = 13 -> (c / 64) mod 64 < 32) by (destruct Hc; lia).
  replace c with (c / 4096 * 4096 + (c / 64) mod 64 * 64 + c mod 64) at 1 2 by lia.
  rewrite encoderune_3 by lia. constructor; lia.
Qed.

Lemma white_space_seq (c : Z) : white_space c -> utf8_seq (Utf8.encoderune c) c.
Proof.
  intros Hw. apply encoderune_seq; [now apply white_space_scalar | ].
  unfold white_space in Hw. lia.
Qed.

(** *** Decoding a rune at the end of a string *)

Lemma byte_cases (P : Z -> bool) :
  forallb P (map Z.of_nat (seq 0 256)) = true ->
  forall b : Z, 0 <= b < 256 -> P b = true.
Proof.
  intros H b Hb. rewrite forallb_forall in H. apply H.
  apply in_map_iff. exists (Z.to_nat b). split; [lia | apply in_seq; lia].
Qed.

(** [utf8.RuneStart] on a byte: false on 0x80..0xBF only *)
Lemma RuneStart_byte (b : Z) :
  0 <= b < 256 -> Utf8.RuneStart b = negb ((0x80 <=? b) && (b <=? 0xBF)).
Proof.
  intros Hb. apply Bool.eqb_prop.
  apply (byte_cases
           (fun b => Bool.eqb (Utf8.RuneStart b) (negb ((0x80 <=? b) && (b <=? 0xBF)))));
    [vm_compute; reflexivity | exact Hb].
Qed.

Lemma nth_from_end (pre e : list Z) (j : nat) :
  (1 <= j <= List.length e)%nat ->
  nth (Z.to_nat (Z.of_nat (List.length (pre ++ e)) - Z.of_nat j)) (pre ++ e)%list 0
  = nth (List.length e - j) e 0.
Proof.
  intros Hj. rewrite length_app.
  replace (Z.to_nat (Z.of_nat (List.length pre + List.length e) - Z.of_nat j))
    with (List.length pre + (List.length e - j))%nat by lia.
  apply app_nth2_plus.
Qed.

Lemma scan_back_le (fuel : nat) (s : list Z) (start lim : Z) :
  Utf8.scan_back fuel s start lim <= start.
Proof.
  revert start. induction fuel as [|fuel IH]; intros start; cbn [Utf8.scan_back];
    [lia | ].
  destruct (start <? lim); [lia | ].
  destruct (Utf8.RuneStart _); [lia | ].
  specialize (IH (start - 1)). lia.
Qed.

(** The backwards scan stops at the first byte of a well-formed
    sequence that ends the string. *)
Lemma scan_back_seq (pre e : list Z) (r : Z) :
  utf8_seq e r -> (2 <= List.length e)%nat ->
  let end_ := Z.of_nat (List.length (pre ++ e)) in
  Z.max (Utf8.scan_back Utf8.UTFMax (pre ++ e) (end_ - 2)
           (Z.max (end_ - Z.of_nat Utf8.UTFMax) 0)) 0
  = Z.of_nat (List.length pre).
Proof.
  intros H Hl end_.
  assert (Hn : forall j : Z, 1 <= j <= Z.of_nat (List.length e) ->
             nth (Z.to_nat (end_ - j)) (pre ++ e)%list 0
             = nth (List.length e - Z.to_nat j) e 0).
  { intros j Hj. rewrite <- (Z2Nat.id j) at 1 by lia. apply nth_from_end. lia. }
  assert (Hend : end_ = Z.of_nat (List.length pre) + Z.of_nat (List.length e))
    by (unfold end_; rewrite length_app; lia).
  change (Z.of_nat Utf8.UTFMax) with 4. unfold Utf8.UTFMax.
  destruct H; cbn [List.length] in *; try lia.
  - cbn [Utf8.scan_back].
    replace (end_ - 2 <? Z.max (end_ - 4) 0) with false by (symmetry; apply Z.ltb_ge; lia).
    rewrite (Hn 2) by lia. change (Z.to_nat 2) with 2%nat. cbn [Nat.sub nth].
    rewrite RuneStart_byte by lia.
    replace ((128 <=? 192 + y) && (192 + y <=? 191)) with false
      by (symmetry; apply andb_false_iff; right; apply Z.leb_gt; lia).
    cbn [negb]. lia.
  - cbn [Utf8.scan_back].
    replace (end_ - 2 <? Z.max (end_ - 4) 0) with false by (symmetry; apply Z.ltb_ge; lia).
    rewrite (Hn 2) by lia. change (Z.to_nat 2) with 2%nat. cbn [Nat.sub nth].
    rewrite RuneStart_byte by lia.
    replace ((128 <=? 128 + y) && (128 + y <=? 191)) with true
      by (symmetry; apply andb_true_iff; split; apply Z.leb_le; lia).
    cbn [negb].
    replace (end_ - 2 - 1 <? Z.max (end_ - 4) 0) with false
      by (symmetry; apply Z.ltb_ge; lia).
    replace (end_ - 2 - 1) with (end_ - 3) by lia.
    rewrite (Hn 3) by lia. change (Z.to_nat 3) with 3%nat. cbn [Nat.sub nth].
    rewrite RuneStart_byte by lia.
    replace ((128 <=? 224 + z) && (224 + z <=? 191)) with false
      by (symmetry; apply andb_false_iff; right; apply Z.leb_gt; lia).
    cbn [negb]. lia.
  - cbn [Utf8.scan_back].
    replace (end_ - 2 <? Z.max (end_ - 4) 0) with false by (symmetry; apply Z.ltb_ge; lia).
    rewrite (Hn 2) by lia. change (Z.to_nat 2) with 2%nat. cbn [Nat.sub nth].
    rewrite RuneStart_byte by lia.
    replace ((128 <=? 128 + y) && (128 + y <=? 191)) with true
      by (symmetry; apply andb_true_iff; split; apply Z.leb_le; lia).
    cbn [negb].
    replace (end_ - 2 - 1 <? Z.max (end_ - 4) 0) with false
      by (symmetry; apply Z.ltb_ge; lia).
    replace (end_ - 2 - 1) with (end_ - 3) by lia.
    rewrite (Hn 3) by lia. change (Z.to_nat 3) with 3%nat. cbn [Nat.sub nth].
    rewrite RuneStart_byte by lia.
    replace ((128 <=? 128 + z) && (128 + z <=? 191)) with true
      by (symmetry; apply andb_true_iff; split; apply Z.leb_le; lia).
    cbn [negb].
    replace (end_ - 3 - 1 <? Z.max (end_ - 4) 0) with false
      by (symmetry; apply Z.ltb_ge; lia).
    replace (end_ - 3 - 1) with (end_ - 4) by lia.
    rewrite (Hn 4) by lia. change (Z.to_nat 4) with 4%nat. cbn [Nat.sub nth].
    rewrite RuneStart_byte by lia.
    replace ((128 <=? 240 + w) && (240 + w <=? 191)) with false
      by (symmetry; apply andb_false_iff; right; apply Z.leb_gt; lia).
    cbn [negb]. lia.
Qed.

(** [DecodeLastRune] reads a well-formed sequence at the end of the
    bytes. *)
Lemma DecodeLastRune_seq (pre e : list Z) (r : Z) :
  utf8_seq e r -> Utf8.DecodeLastRune (pre ++ e) = (r, List.length e).
Proof.
  intros H. pose proof (utf8_seq_length e r H) as Hl.
  destruct (utf8_seq_bytes e r H) as (h & t & E & Hh & H1 & Hcont).
  unfold Utf8.DecodeLastRune.
  set (end_ := Z.of_nat (List.length (pre ++ e))).
  assert (Hend : end_ = Z.of_nat (List.length pre) + Z.of_nat (List.length e))
    by (unfold end_; rewrite length_app; lia).
  replace (end_ =? 0) with false by (symmetry; apply Z.eqb_neq; lia).
  assert (Hnth : nth (Z.to_nat (end_ - 1)) (pre ++ e)%list 0
                 = nth (List.length e - 1) e 0).
  { replace (end_ - 1) with (end_ - Z.of_nat 1) by lia. apply nth_from_end. lia. }
  cbv zeta. rewrite Hnth.
  destruct (Z_lt_le_dec h 0x80) as [Hlt | Hge].
  - destruct (H1 Hlt) as [Ht Hr]. subst t e r. cbn [List.length Nat.sub nth].
    unfold Utf8.RuneSelf.
    replace (h <? 128) with true by (symmetry; apply Z.ltb_lt; lia). reflexivity.
  - assert (Hlen2 : (2 <= List.length e)%nat).
    { destruct H; cbn [List.length]; try lia. inversion E; subst. lia. }
    assert (Hlast : 0x80 <= nth (List.length e - 1) e 0).
    { subst e. cbn [List.length] in *.
      replace (S (List.length t) - 1)%nat with (List.length t) by lia.
      destruct t as [|b t'] using rev_ind; [cbn in Hlen2; lia | ].
      rewrite length_app in *. cbn [List.length] in *.
      replace (List.length t' + 1)%nat with (S (List.length t')) by lia.
      cbn [nth]. rewrite app_nth2 by lia. rewrite Nat.sub_diag. cbn [nth].
      apply Forall_app in Hcont. destruct Hcont as [_ Hb].
      inversion Hb; subst. lia. }
    unfold Utf8.RuneSelf.
    replace (nth (List.length e - 1) e 0 <? 128) with false
      by (symmetry; apply Z.ltb_ge; lia).
    pose proof (scan_back_seq pre e r H Hlen2) as Hs. cbv zeta in Hs.
    fold end_ in Hs. rewrite Hs.
    rewrite Nat2Z.id, skipn_app, skipn_all, Nat.sub_diag. cbn [app skipn].
    rewrite <- (app_nil_r e) at 1. rewrite (DecodeRune_seq e r [] H).
    replace (Z.of_nat (List.length pre) + Z.of_nat (List.length e) =? end_) with true
      by (symmetry; apply Z.eqb_eq; lia).
    reflexivity.
Qed.

(** *** Runs of white space *)

Lemma blank_bytes_nil : blank_bytes [].
Proof. exists []. split; [constructor | reflexivity]. Qed.

Lemma blank_bytes_app (a b : list Z) :
  blank_bytes a -> blank_bytes b -> blank_bytes (a ++ b).
Proof.
  intros (ca & Ha & Ea) (cb & Hb & Eb). exists (ca ++ cb)%list. split.
  - apply Forall_app. now split.
  - rewrite flat_map_app. now subst.
Qed.

Lemma blank_bytes_one (c : Z) : white_space c -> blank_bytes (Utf8.encoderune c).
Proof.
  intros Hc. exists [c]. split; [now constructor | ].
  cbn [flat_map]. now rewrite app_nil_r.
Qed.

(** What [DecodeLastRune] computes when the last byte is not ASCII:
    it decodes from some earlier position and accepts the rune when it
    ends where the bytes end. *)
Lemma DecodeLastRune_high (t : list Z) (b : Z) :
  0x80 <= b ->
  exists start : nat,
    (start <= List.length t)%nat
    /\ Utf8.DecodeLastRune (t ++ [b])
       = (let '(r, size) := Utf8.DecodeRune (skipn start (t ++ [b])) in
          if (start + size =? List.length (t ++ [b]))%nat then (r, size)
          else (Utf8.RuneError, 1%nat)).
Proof.
  intros Hb. unfold Utf8.DecodeLastRune.
  set (end_ := Z.of_nat (List.length (t ++ [b]))).
  assert (Hend : end_ = Z.of_nat (List.length t) + 1)
    by (unfold end_; rewrite length_app; cbn [List.length]; lia).
  replace (end_ =? 0) with false by (symmetry; apply Z.eqb_neq; lia).
  assert (Hnth : nth (Z.to_nat (end_ - 1)) (t ++ [b])%list 0 = b).
  { replace (Z.to_nat (end_ - 1)) with (List.length t) by lia.
    rewrite app_nth2, Nat.sub_diag by lia. reflexivity. }
  cbv zeta. rewrite Hnth. unfold Utf8.RuneSelf.
  replace (b <? 128) with false by (symmetry; apply Z.ltb_ge; lia).
  set (start := Z.max (Utf8.scan_back _ _ _ _) 0).
  assert (Hs : 0 <= start <= Z.of_nat (List.length t)).
  { unfold start.
    pose proof (scan_back_le Utf8.UTFMax (t ++ [b]) (end_ - 2)
                  (Z.max (end_ - Z.of_nat Utf8.UTFMax) 0)). lia. }
  exists (Z.to_nat start). split; [lia | ].
  destruct (Utf8.DecodeRune (skipn (Z.to_nat start) (t ++ [b]))) as [r size].
  fold end_.
  destruct (Z.eqb_spec (start + Z.of_nat size) end_) as [E | E].
  - replace (Z.to_nat start + size =? List.length (t ++ [b]))%nat with true
      by (symmetry; apply Nat.eqb_eq; unfold end_ in E; lia).
    reflexivity.
  - replace (Z.to_nat start + size =? List.length (t ++ [b]))%nat with false
      by (symmetry; apply Nat.eqb_neq; unfold end_ in E; lia).
    reflexivity.
Qed.

(** [DecodeLastRune] finds a well-formed sequence at the end of the
    bytes, or gives U+FFFD with width 1 for a last byte that is not
    ASCII. *)
Lemma DecodeLastRune_cases (t : list Z) (b : Z) :
  Forall byte_ok (t ++ [b]) ->
  (exists pre e r,
      (t ++ [b])%list = (pre ++ e)%list /\ utf8_seq e r
      /\ Utf8.DecodeLastRune (t ++ [b]) = (r, List.length e))
  \/ (0x80 <= b /\ Utf8.DecodeLastRune (t ++ [b]) = (Utf8.RuneError, 1%nat)).
Proof.
  intros Hok.
  assert (Hb : byte_ok b).
  { apply Forall_app in Hok. destruct Hok as [_ Hb]. now inversion Hb. }
  unfold byte_ok in Hb.
  destruct (Z_lt_le_dec b 0x80) as [Hlt | Hge].
  { left. exists t, [b], b. split; [reflexivity | ].
    assert (Hseq : utf8_seq [b] b) by (constructor; lia).
    split; [exact Hseq | now apply DecodeLastRune_seq]. }
  destruct (DecodeLastRune_high t b Hge) as (start & Hstart & E).
  rewrite E. clear E.
  set (s := (t ++ [b])%list) in *.
  assert (Hlen : List.length s = S (List.length t))
    by (unfold s; rewrite length_app; cbn [List.length]; lia).
  destruct (skipn start s) as [|s0 u] eqn:Hu.
  { right. split; [exact Hge | ]. cbn [Utf8.DecodeRune].
    replace (start + 0 =? List.length s)%nat with false
      by (symmetry; apply Nat.eqb_neq; lia).
    reflexivity. }
  assert (Hs0 : 0 <= s0).
  { assert (Hin : In s0 s).
    { rewrite <- (firstn_skipn start s), Hu. apply in_or_app. right. now left. }
    rewrite Forall_forall in Hok. specialize (Hok s0 Hin). unfold byte_ok in Hok. lia. }
  destruct (DecodeRune_cases s0 u Hs0) as [(e & r & rest & E1 & Hseq & Hd) | [_ Hd]];
    rewrite Hd.
  - destruct (Nat.eqb_spec (start + List.length e) (List.length s)) as [El | El].
    + left. exists (firstn start s), e, r. split; [ | split; [exact Hseq | reflexivity]].
      assert (Hrest : rest = []).
      { apply (f_equal (@List.length Z)) in E1, Hu.
        rewrite length_skipn in Hu. rewrite length_app in E1.
        destruct rest; [reflexivity | cbn [List.length] in *; lia]. }
      subst rest. rewrite app_nil_r in E1.
      rewrite <- (firstn_skipn start s) at 1. rewrite Hu, E1. reflexivity.
    + right. split; [exact Hge | reflexivity].
  - right. split; [exact Hge | ].
    destruct (start + 1 =? List.length s)%nat; reflexivity.
Qed.

Lemma DecodeLastRune_width (t : list Z) (b r : Z) (size : nat) :
  Forall byte_ok (t ++ [b]) ->
  Utf8.DecodeLastRune (t ++ [b]) = (r, size) ->
  (1 <= size <= List.length (t ++ [b]))%nat.
Proof.
  intros Hok Hd.
  destruct (DecodeLastRune_cases t b Hok) as [(pre & e & r' & E & Hseq & Hd') | [_ Hd']];
    rewrite Hd' in Hd; inversion Hd; subst.
  - pose proof (utf8_seq_length e r Hseq). rewrite E, length_app. lia.
  - rewrite length_app. cbn [List.length]. lia.
Qed.

(** *** [TrimRightFunc] and [TrimLeftFunc] *)

Lemma encoderune_space_first (c : Z) :
  white_space c ->
  exists h t, Utf8.encoderune c = h :: t
    /\ ((h = c /\ t = [] /\ asciiSpace h = true) \/ 0xC2 <= h <= 0xF4)
    /\ Forall (fun b => 0x80 <= b <= 0xBF) t.
Proof.
  intros Hc. pose proof (white_space_seq c Hc) as Hseq.
  destruct (utf8_seq_bytes _ _ Hseq) as (h & t & E & Hh & H1 & Hcont).
  exists h, t. split; [exact E | split; [ | exact Hcont]].
  destruct (Z_lt_le_dec h 0x80) as [Hlt | Hge]; [left | right; lia].
  destruct (H1 Hlt) as [Ht Hr]. subst t c. split; [reflexivity | split; [reflexivity | ]].
  unfold white_space in Hc. unfold asciiSpace.
  rewrite !orb_true_iff, !Z.eqb_eq. lia.
Qed.

Lemma RuneError_no_space : IsSpace Utf8.RuneError = false.
Proof. reflexivity. Qed.

Lemma nonempty_last (A : Type) (l : list A) :
  l <> [] -> exists t b, l = (t ++ [b])%list.
Proof.
  intros H. destruct (exists_last H) as (t & b & E). now exists t, b.
Qed.

(** [lastIndexFunc] walks down over white-space characters: either
    all bytes below the index are white space, or it stops after a rune
    that is none. *)
Lemma lastIndexFunc_spec (s : list Z) :
  Forall byte_ok s ->
  forall (fuel n : nat),
    (n <= List.length s)%nat -> (n <= fuel)%nat ->
    (lastIndexFunc fuel s (Z.of_nat n) = -1 /\ blank_bytes (firstn n s))
    \/ (exists (k : nat) (r : Z) (size : nat),
           (k <= n)%nat /\ (1 <= size <= k)%nat
           /\ lastIndexFunc fuel s (Z.of_nat n) = Z.of_nat (k - size)
           /\ Utf8.DecodeLastRune (firstn k s) = (r, size)
           /\ IsSpace r = false
           /\ blank_bytes (skipn k (firstn n s))).
Proof.
  intros Hok. induction fuel as [|fuel IH]; intros n Hn Hf.
  { left. replace n with 0%nat by lia. split; [reflexivity | apply blank_bytes_nil]. }
  destruct n as [|n'].
  { left. split; [reflexivity | apply blank_bytes_nil]. }
  set (n := S n') in *.
  cbn [lastIndexFunc].
  replace (0 <? Z.of_nat n) with true by (symmetry; apply Z.ltb_lt; lia).
  rewrite Nat2Z.id.
  assert (Hlen : List.length (firstn n s) = n) by (apply firstn_length_le; exact Hn).
  assert (Hne : firstn n s <> []).
  { intros E. rewrite E in Hlen. cbn in Hlen. lia. }
  destruct (nonempty_last _ _ Hne) as (t & b & Et).
  assert (Hokt : Forall byte_ok (t ++ [b])).
  { rewrite <- Et. rewrite <- (firstn_skipn n s) in Hok.
    apply Forall_app in Hok. tauto. }
  destruct (Utf8.DecodeLastRune (firstn n s)) as [r size] eqn:Hd.
  assert (Hw : (1 <= size <= n)%nat).
  { rewrite Et in Hd. pose proof (DecodeLastRune_width t b r size Hokt Hd) as H.
    rewrite <- Et, Hlen in H. exact H. }
  destruct (IsSpace r) eqn:Hsp; cbn [negb].
  - (* a white-space character: go on below it *)
    assert (Hr : white_space r) by (now apply IsSpace_white_space).
    rewrite Et in Hd.
    destruct (DecodeLastRune_cases t b Hokt)
      as [(pre & e & r' & E & Hseq & Hd') | [_ Hd']]; rewrite Hd' in Hd;
      injection Hd as E1 E2;
      [subst r' size | subst r; rewrite RuneError_no_space in Hsp; discriminate].
    rewrite <- Et in E.
    assert (He : e = Utf8.encoderune r) by (now apply utf8_seq_space).
    assert (Hpre : firstn (n - List.length e) s = pre).
    { replace (n - List.length e)%nat with (Nat.min (n - List.length e) n) by lia.
      rewrite <- firstn_firstn, E.
      assert (Hl : List.length pre = (n - List.length e)%nat).
      { apply (f_equal (@List.length Z)) in E. rewrite Hlen, length_app in E. lia. }
      rewrite <- Hl, firstn_app, Nat.sub_diag, firstn_all. cbn [firstn].
      apply app_nil_r. }
    replace (Z.of_nat n - Z.of_nat (List.length e))
      with (Z.of_nat (n - List.length e)) by lia.
    destruct (IH (n - List.length e)%nat ltac:(lia) ltac:(lia))
      as [[Hi Hb] | (k & r0 & size0 & Hk & Hs0 & Hi & Hd0 & Hsp0 & Hb)].
    + left. split; [exact Hi | ]. rewrite E, <- Hpre.
      apply blank_bytes_app; [exact Hb | ]. rewrite He. now apply blank_bytes_one.
    + right. exists k, r0, size0.
      split; [lia | split; [exact Hs0 | split; [exact Hi | split; [exact Hd0 | ]]]].
      split; [exact Hsp0 | ].
      rewrite E, skipn_app. rewrite Hpre in Hb.
      assert (Hl : List.length pre = (n - List.length e)%nat).
      { apply (f_equal (@List.length Z)) in E. rewrite Hlen, length_app in E. lia. }
      replace (k - List.length pre)%nat with 0%nat by lia. cbn [skipn].
      apply blank_bytes_app; [exact Hb | ]. rewrite He. now apply blank_bytes_one.
  - (* a rune that is no white space: stop here *)
    right. exists n, r, size.
    split; [lia | split; [exact Hw | split; [lia | split; [exact Hd | ]]]].
    split; [exact Hsp | ]. rewrite skipn_all2 by lia. apply blank_bytes_nil.
Qed.

Lemma encoderune_space_nonempty (c : Z) : white_space c -> Utf8.encoderune c <> [].
Proof.
  intros Hc E. destruct (encoderune_space_first c Hc) as (h & t & E' & _).
  rewrite E in E'. discriminate.
Qed.

Lemma no_space_last_nil : no_space_last [].
Proof.
  intros c pre Hc E. symmetry in E. apply app_eq_nil in E.
  destruct E as [_ E]. now apply (encoderune_space_nonempty c Hc).
Qed.

Lemma no_space_first_nil : no_space_first [].
Proof.
  intros c rest Hc E. symmetry in E. apply app_eq_nil in E.
  destruct E as [E _]. now apply (encoderune_space_nonempty c Hc).
Qed.

(** White space begins with a byte that starts a rune. *)
Lemma blank_bytes_first (l : list Z) :
  blank_bytes l ->
  match l with
  | [] => True
  | h :: _ => asciiSpace h = true \/ 0xC2 <= h <= 0xF4
  end.
Proof.
  intros (cs & Hcs & E). destruct cs as [|c cs]; [subst; exact I | ].
  inversion Hcs as [|? ? Hc _]; subst.
  destruct (encoderune_space_first c Hc) as (h & t & E & Hh & _).
  cbn [flat_map]. rewrite E. cbn [app].
  destruct Hh as [(_ & _ & Ha) | Hh]; [now left | now right].
Qed.

(** A byte that is not ASCII and is followed by white space only
    starts no rune: it is decoded as U+FFFD with width 1. *)
Lemma DecodeRune_before_blank (b : Z) (rr : list Z) :
  0x80 <= b -> blank_bytes rr ->
  Utf8.DecodeRune (b :: rr) = (Utf8.RuneError, 1%nat).
Proof.
  intros Hb Hrr.
  destruct (DecodeRune_cases b rr ltac:(lia)) as [(e & r & rest & E & Hseq & Hd) | [_ Hd]];
    [ | exact Hd].
  exfalso.
  destruct (utf8_seq_bytes e r Hseq) as (h & t & Ee & Hh & H1 & Hcont).
  rewrite Ee in E, Hseq. cbn [app] in E. injection E as Eh Et. subst h.
  destruct t as [|c1 t'].
  - inversion Hseq; subst; lia.
  - inversion Hcont as [|? ? Hc1 _]; subst.
    pose proof (blank_bytes_first _ Hrr) as Hf. cbn [app] in Hf.
    destruct Hf as [Ha | Hf]; [ | lia].
    unfold asciiSpace in Ha. rewrite !orb_true_iff, !Z.eqb_eq in Ha. lia.
Qed.

(** [strings.TrimRightFunc(s, unicode.IsSpace)] removes white space at
    the end, all of it and nothing else. *)
Lemma TrimRightFunc_spec (s : list Z) :
  Forall byte_ok s ->
  exists r,
    s = (TrimRightFunc s ++ r)%list /\ blank_bytes r
    /\ no_space_last (TrimRightFunc s).
Proof.
  intros Hok. unfold TrimRightFunc.
  destruct (lastIndexFunc_spec s Hok (List.length s) (List.length s) (le_n _) (le_n _))
    as [[Hi Hb] | (k & r & size & Hk & Hsz & Hi & Hd & Hsp & Hb)]; rewrite Hi.
  - cbn [Z.leb andb Z.add Z.to_nat firstn]. exists s.
    rewrite firstn_all in Hb. split; [reflexivity | split; [exact Hb | ]].
    apply no_space_last_nil.
  - rewrite firstn_all in Hb.
    replace (0 <=? Z.of_nat (k - size)) with true by (symmetry; apply Z.leb_le; lia).
    rewrite Nat2Z.id. cbn [andb].
    assert (Hlen : List.length (firstn k s) = k) by (apply firstn_length_le; lia).
    assert (Hne : firstn k s <> []).
    { intros E. rewrite E in Hlen. cbn in Hlen. lia. }
    destruct (nonempty_last _ _ Hne) as (t & b & Et).
    assert (Hokt : Forall byte_ok (t ++ [b])).
    { rewrite <- Et. rewrite <- (firstn_skipn k s) in Hok.
      apply Forall_app in Hok. tauto. }
    assert (Hs : s = (firstn k s ++ skipn k s)%list) by (symmetry; apply firstn_skipn).
    assert (Hidx : forall full : list Z,
      full = (firstn k s ++ skipn k s)%list ->
      (if Utf8.RuneSelf <=? nth (k - size) full 0
       then Z.of_nat (k - size)
            + Z.of_nat (snd (Utf8.DecodeRune (skipn (k - size) full)))
       else Z.of_nat (k - size) + 1) = Z.of_nat k).
    { intros full ->. rewrite Et in Hd.
      destruct (DecodeLastRune_cases t b Hokt)
        as [(pre & e & r' & E & Hseq & Hd') | [Hb80 Hd']]; rewrite Hd' in Hd;
        injection Hd as E1 E2.
      - subst r' size. rewrite <- Et in E.
        assert (Hl : (k - List.length e)%nat = List.length pre).
        { apply (f_equal (@List.length Z)) in E. rewrite Hlen, length_app in E. lia. }
        rewrite Hl. rewrite E, <- app_assoc.
        rewrite app_nth2, Nat.sub_diag by lia.
        rewrite skipn_app, skipn_all, Nat.sub_diag. cbn [app skipn].
        rewrite (DecodeRune_seq e r _ Hseq). cbn [snd].
        destruct (utf8_seq_bytes e r Hseq) as (h & tl & Ee & Hh & H1 & _).
        subst e. cbn [app nth]. unfold Utf8.RuneSelf.
        destruct (Z.leb_spec 128 h) as [Hge | Hlt].
        + cbn [List.length] in *. lia.
        + destruct (H1 Hlt) as [Htl _]. subst tl. cbn [List.length] in *. lia.
      - subst r size.
        assert (Hl : (k - 1)%nat = List.length t).
        { apply (f_equal (@List.length Z)) in Et. rewrite Hlen, length_app in Et.
          cbn [List.length] in Et. lia. }
        rewrite Hl. rewrite Et, <- app_assoc.
        rewrite app_nth2, Nat.sub_diag by lia.
        rewrite skipn_app, skipn_all, Nat.sub_diag. cbn [app skipn nth].
        unfold Utf8.RuneSelf.
        replace (128 <=? b) with true by (symmetry; apply Z.leb_le; lia).
        rewrite DecodeRune_before_blank by assumption. cbn [snd]. lia. }
    rewrite (Hidx s Hs), Nat2Z.id.
    exists (skipn k s). split; [exact Hs | split; [exact Hb | ]].
    intros c pre Hc E.
    rewrite E in Hd. rewrite (DecodeLastRune_seq pre _ c (white_space_seq c Hc)) in Hd.
    injection Hd as E1 _. subst r.
    apply IsSpace_white_space in Hc. rewrite Hc in Hsp. discriminate.
Qed.

(** [strings.TrimLeftFunc(s, unicode.IsSpace)] removes white space at
    the start, all of it and nothing else. *)
Lemma TrimLeftFunc_spec (fuel : nat) :
  forall s : list Z,
    Forall byte_ok s -> (List.length s <= fuel)%nat ->
    exists l,
      s = (l ++ TrimLeftFunc fuel s)%list /\ blank_bytes l
      /\ no_space_first (TrimLeftFunc fuel s).
Proof.
  induction fuel as [|fuel IH]; intros s Hok Hf.
  { destruct s; [ | cbn in Hf; lia]. exists []. cbn.
    split; [reflexivity | split; [apply blank_bytes_nil | apply no_space_first_nil]]. }
  destruct s as [|s0 u].
  { exists []. cbn.
    split; [reflexivity | split; [apply blank_bytes_nil | apply no_space_first_nil]]. }
  cbn [TrimLeftFunc].
  assert (Hs0 : 0 <= s0) by (inversion Hok as [|? ? H0 _]; unfold byte_ok in H0; lia).
  destruct (Utf8.DecodeRune (s0 :: u)) as [r w] eqn:Hd.
  destruct (IsSpace r) eqn:Hsp.
  - assert (Hr : white_space r) by (now apply IsSpace_white_space).
    destruct (DecodeRune_cases s0 u Hs0) as [(e & r' & rest & E & Hseq & Hd') | [_ Hd']];
      rewrite Hd' in Hd; injection Hd as E1 E2;
      [subst r' w | subst r; rewrite RuneError_no_space in Hsp; discriminate].
    assert (He : e = Utf8.encoderune r) by (now apply utf8_seq_space).
    rewrite E, skipn_app, skipn_all, Nat.sub_diag. cbn [app skipn].
    pose proof (utf8_seq_length e r Hseq) as Hle.
    assert (Hokr : Forall byte_ok rest).
    { rewrite E in Hok. apply Forall_app in Hok. tauto. }
    assert (Hlr : (List.length rest <= fuel)%nat).
    { apply (f_equal (@List.length Z)) in E. rewrite length_app in E.
      cbn [List.length] in *. lia. }
    destruct (IH rest Hokr Hlr) as (l & El & Hl & Hn).
    exists (e ++ l)%list. split; [ | split; [ | exact Hn]].
    + rewrite <- app_assoc. now rewrite <- El.
    + apply blank_bytes_app; [ | exact Hl]. rewrite He. now apply blank_bytes_one.
  - exists []. split; [reflexivity | split; [apply blank_bytes_nil | ]].
    intros c rest Hc E. rewrite E in Hd.
    rewrite (DecodeRune_seq _ c rest (white_space_seq c Hc)) in Hd.
    injection Hd as E1 _. subst r.
    apply IsSpace_white_space in Hc. rewrite Hc in Hsp. discriminate.
Qed.

(** *** [strings.TrimSpace] *)

Lemma asciiSpace_white (c : Z) :
  asciiSpace c = true -> white_space c /\ Utf8.encoderune c = [c].
Proof.
  unfold asciiSpace, white_space. rewrite !orb_true_iff, !Z.eqb_eq. intros H.
  split; [lia | apply encoderune_1; lia].
Qed.

Lemma ascii_spaces_blank (l : list Z) :
  Forall (fun c => asciiSpace c = true) l -> blank_bytes l.
Proof.
  induction 1 as [|c l Hc _ IH]; [apply blank_bytes_nil | ].
  destruct (asciiSpace_white c Hc) as [Hw He].
  change (c :: l) with ([c] ++ l)%list. apply blank_bytes_app; [ | exact IH].
  rewrite <- He. now apply blank_bytes_one.
Qed.

(** The ASCII loop of [TrimSpace] skips ASCII white space and stops
    at the first other byte. *)
Lemma skip_ascii_spec (s : list Z) :
  exists l,
    s = (l ++ fst (skip_ascii s))%list
    /\ Forall (fun c => asciiSpace c = true) l
    /\ match fst (skip_ascii s) with
       | [] => snd (skip_ascii s) = false
       | h :: _ =>
           if snd (skip_ascii s) then 0x80 <= h
           else h < 0x80 /\ asciiSpace h = false
       end.
Proof.
  induction s as [|c s (l & E & Hl & Hh)].
  - exists []. split; [reflexivity | split; [constructor | reflexivity]].
  - cbn [skip_ascii]. unfold Utf8.RuneSelf.
    destruct (Z.leb_spec 128 c) as [Hge | Hlt].
    + exists []. split; [reflexivity | split; [constructor | exact Hge]].
    + destruct (asciiSpace c) eqn:Hc.
      * exists (c :: l). cbn [app]. rewrite <- E.
        split; [reflexivity | split; [now constructor | exact Hh]].
      * exists []. split; [reflexivity | split; [constructor | ]].
        cbn [fst snd]. now split.
Qed.

(** The last byte of a white-space character *)
Lemma encoderune_space_last (c : Z) :
  white_space c ->
  exists pre b, Utf8.encoderune c = (pre ++ [b])%list
    /\ (asciiSpace b = true \/ 0x80 <= b).
Proof.
  intros Hc. destruct (encoderune_space_first c Hc) as (h & t & E & Hh & Hcont).
  destruct t as [|x t'] using rev_ind.
  - exists [], h. split; [exact E | ].
    destruct Hh as [(_ & _ & Ha) | Hh]; [now left | right; lia].
  - exists (h :: t'), x. split; [exact E | right].
    apply Forall_app in Hcont. destruct Hcont as [_ Hx]. inversion Hx; subst. lia.
Qed.

Lemma no_space_first_ascii (h : Z) (t : list Z) :
  h < 0x80 -> asciiSpace h = false -> no_space_first (h :: t).
Proof.
  intros Hlt Hns c rest Hc E.
  destruct (encoderune_space_first c Hc) as (h' & t' & E' & Hh & _).
  rewrite E' in E. cbn [app] in E. injection E as Eh _. subst h'.
  destruct Hh as [(_ & _ & Ha) | Hh]; [congruence | lia].
Qed.

Lemma no_space_last_ascii (t : list Z) (h : Z) :
  h < 0x80 -> asciiSpace h = false -> no_space_last (t ++ [h]).
Proof.
  intros Hlt Hns c pre Hc E.
  destruct (encoderune_space_last c Hc) as (p & b & E' & Hb).
  rewrite E', app_assoc in E. apply app_inj_tail in E. destruct E as [_ Eh]. subst b.
  destruct Hb as [Ha | Hb]; [congruence | lia].
Qed.

Lemma no_space_first_prefix (t r : list Z) :
  no_space_first (t ++ r) -> no_space_first t.
Proof.
  intros H c rest Hc E. apply (H c (rest ++ r)%list Hc).
  rewrite E. now rewrite app_assoc.
Qed.

(** [strings.TrimSpace] on the bytes of a string: white space is
    removed at both ends, all of it and nothing else. *)
Lemma TrimSpace_bytes_spec (s : list Z) :
  Forall byte_ok s ->
  exists l r,
    s = (l ++ TrimSpace_bytes s ++ r)%list
    /\ blank_bytes l /\ blank_bytes r
    /\ no_space_first (TrimSpace_bytes s) /\ no_space_last (TrimSpace_bytes s).
Proof.
  intros Hok. unfold TrimSpace_bytes.
  destruct (skip_ascii_spec s) as (l0 & E0 & Hl0 & Hh0).
  destruct (skip_ascii s) as [u flag]. cbn [fst snd] in *.
  assert (Hoku : Forall byte_ok u).
  { rewrite E0 in Hok. apply Forall_app in Hok. tauto. }
  pose proof (ascii_spaces_blank l0 Hl0) as Hb0.
  destruct flag.
  - (* a byte that is not ASCII was met: the rune-wise trimming *)
    unfold TrimFunc.
    destruct (TrimLeftFunc_spec (List.length u) u Hoku (le_n _)) as (l1 & E1 & Hl1 & Hn1).
    set (m := TrimLeftFunc (List.length u) u) in *.
    assert (Hokm : Forall byte_ok m).
    { rewrite E1 in Hoku. apply Forall_app in Hoku. tauto. }
    destruct (TrimRightFunc_spec m Hokm) as (r1 & E2 & Hr1 & Hn2).
    exists (l0 ++ l1)%list, r1.
    split; [ | split; [now apply blank_bytes_app | split; [exact Hr1 | split]]].
    + rewrite <- app_assoc, <- E2, <- E1. exact E0.
    + apply (no_space_first_prefix _ r1). now rewrite <- E2.
    + exact Hn2.
  - assert (Hnu : no_space_first u).
    { destruct u as [|h u']; [apply no_space_first_nil | ].
      destruct Hh0 as [Hlt Hns]. now apply no_space_first_ascii. }
    destruct (skip_ascii_spec (rev u)) as (l2 & E2 & Hl2 & Hh2).
    destruct (skip_ascii (rev u)) as [rev_kept flag2]. cbn [fst snd] in *.
    assert (Eu : u = (rev rev_kept ++ rev l2)%list).
    { rewrite <- (rev_involutive u), E2, rev_app_distr. reflexivity. }
    assert (Hb2 : blank_bytes (rev l2)).
    { apply ascii_spaces_blank. now apply Forall_rev. }
    set (m := rev rev_kept) in *.
    assert (Hokm : Forall byte_ok m).
    { rewrite Eu in Hoku. apply Forall_app in Hoku. tauto. }
    assert (Hnm : no_space_first m).
    { apply (no_space_first_prefix _ (rev l2)). now rewrite <- Eu. }
    destruct flag2.
    + destruct (TrimRightFunc_spec m Hokm) as (r1 & E3 & Hr1 & Hn3).
      exists l0, (r1 ++ rev l2)%list.
      split; [ | split; [exact Hb0 | split; [now apply blank_bytes_app | split]]].
      * rewrite (app_assoc (TrimRightFunc m) r1 (rev l2)), <- E3, <- Eu. exact E0.
      * apply (no_space_first_prefix _ r1). now rewrite <- E3.
      * exact Hn3.
    + exists l0, (rev l2).
      split; [now rewrite <- Eu | split; [exact Hb0 | split; [exact Hb2 | split]]].
      * exact Hnm.
      * unfold m. destruct rev_kept as [|h k]; [apply no_space_last_nil | ].
        cbn [rev]. destruct Hh2 as [Hlt Hns]. now apply no_space_last_ascii.
Qed.

Lemma bytes_of_string_ok (s : string) : Forall byte_ok (bytes_of_string s).
Proof.
  unfold bytes_of_string. apply Forall_forall. intros z Hz.
  apply in_map_iff in Hz. destruct Hz as (a & <- & _). unfold ord. apply u8_range.
Qed.

Lemma string_of_Zs_app (a b : list Z) :
  Utf8.string_of_Zs (a ++ b) = Utf8.string_of_Zs a ++ Utf8.string_of_Zs b.
Proof.
  induction a as [|z a IH]; [reflexivity | ].
  cbn [app Utf8.string_of_Zs append]. now rewrite IH.
Qed.

Lemma string_of_bytes_of_string (s : string) :
  Utf8.string_of_Zs (bytes_of_string s) = s.
Proof.
  unfold bytes_of_string. induction s as [|a s IH]; [reflexivity | ].
  cbn [list_ascii_of_string map Utf8.string_of_Zs]. rewrite IH. f_equal.
  unfold chr, ord. rewrite byte_of_Z_u8. apply ascii_of_byte_of_ascii.
Qed.

Lemma string_of_encoded (cs : list Z) :
  Utf8.string_of_Zs (flat_map Utf8.encoderune cs) = go_string cs.
Proof.
  unfold go_string. induction cs as [|c cs IH]; [reflexivity | ].
  cbn [flat_map Utf8.string_of_runes]. now rewrite string_of_Zs_app, IH.
Qed.

Lemma blank_of_bytes (l : list Z) : blank_bytes l -> blank (Utf8.string_of_Zs l).
Proof.
  intros (cs & Hcs & E). exists cs. split; [exact Hcs | ].
  subst l. apply string_of_encoded.
Qed.

Lemma bytes_of_one_rune (c : Z) :
  white_space c -> bytes_of_string (go_string [c]) = Utf8.encoderune c.
Proof.
  intros Hc. rewrite bytes_of_go_string by (constructor; [now apply white_space_scalar | constructor]).
  cbn [flat_map]. apply app_nil_r.
Qed.

(** [strings.TrimSpace] removes the white space at the two ends of a
    string, all of it and nothing else. *)
Lemma TrimSpace_trimmed (s : string) : trimmed_of s (TrimSpace s).
Proof.
  unfold TrimSpace.
  pose proof (bytes_of_string_ok s) as Hok.
  destruct (TrimSpace_bytes_spec _ Hok) as (l & r & E & Hl & Hr & Hf & Hla).
  set (T := TrimSpace_bytes (bytes_of_string s)) in *.
  assert (HokT : Forall byte_ok T).
  { rewrite E in Hok. apply Forall_app in Hok. destruct Hok as [_ Hok].
    apply Forall_app in Hok. tauto. }
  split; [ | split].
  - exists (Utf8.string_of_Zs l), (Utf8.string_of_Zs r).
    split; [ | split; now apply blank_of_bytes].
    rewrite <- !string_of_Zs_app, <- E. symmetry. apply string_of_bytes_of_string.
  - intros c rest Hc Et. apply (Hf c (bytes_of_string rest) Hc).
    rewrite <- (bytes_of_string_of_Zs T HokT), Et, bytes_of_string_app.
    now rewrite bytes_of_one_rune.
  - intros c pre Hc Et. apply (Hla c (bytes_of_string pre) Hc).
    rewrite <- (bytes_of_string_of_Zs T HokT), Et, bytes_of_string_app.
    now rewrite bytes_of_one_rune.
Qed.

(** *** [decodeUTF16] against the decoding of the specification *)

Lemma utf16_DecodeRune_pair (hi lo : Z) :
  0xD800 <= hi < 0xDC00 -> 0xDC00 <= lo < 0xE000 ->
  Utf16.DecodeRune hi lo = 0x10000 + (hi - 0xD800) * 0x400 + (lo - 0xDC00).
Proof.
  intros Hhi Hlo.
  unfold Utf16.DecodeRune, Utf16.surr1, Utf16.surr2, Utf16.surr3, Utf16.surrSelf.
  replace ((0xd800 <=? hi) && (hi <? 0xdc00) && (0xdc00 <=? lo) && (lo <? 0xe000))
    with true by (symmetry; rewrite !andb_true_iff; repeat split; lia).
  rewrite Z.shiftl_mul_pow2 by lia.
  rewrite lor_concat by (change (2 ^ 10) with 1024; lia).
  change (2 ^ 10) with 1024. lia.
Qed.

(** [utf16.Decode] decodes UTF-16. *)
Lemma Decode_decodes (n : nat) :
  forall us : list Z, (List.length us <= n)%nat -> utf16_decodes us (Utf16.Decode us).
Proof.
  induction n as [|n IH]; intros us Hn.
  { destruct us; [constructor | cbn in Hn; lia]. }
  destruct us as [|u us]; [constructor | ].
  cbn [Utf16.Decode]. unfold Utf16.surr1, Utf16.surr2, Utf16.surr3.
  cbn [List.length] in Hn.
  destruct ((u <? 0xd800) || (0xe000 <=? u)) eqn:Hu.
  - apply utf16_decodes_unit; [ | apply IH; lia].
    apply orb_true_iff in Hu. destruct Hu as [Hu | Hu]; [left | right]; lia.
  - apply orb_false_iff in Hu. destruct Hu as [Hu1 Hu2].
    assert (Hs : 0xD800 <= u < 0xE000) by lia.
    destruct us as [|lo us'].
    + apply (utf16_decodes_lone u [] []); [exact Hs | exact I | constructor].
    + destruct ((0xd800 <=? u) && (u <? 0xdc00) && (0xdc00 <=? lo) && (lo <? 0xe000))
        eqn:Hp.
      * rewrite !andb_true_iff in Hp. destruct Hp as [[[H1 H2] H3] H4].
        rewrite utf16_DecodeRune_pair by lia.
        apply utf16_decodes_pair; [lia | lia | ]. apply IH. cbn [List.length] in Hn. lia.
      * apply utf16_decodes_lone; [exact Hs | | apply IH; lia].
        intros [H1 H2].
        assert (Ht : (0xd800 <=? u) && (u <? 0xdc00) && (0xdc00 <=? lo) && (lo <? 0xe000)
                     = true)
          by (rewrite !andb_true_iff; repeat split; lia).
        rewrite Ht in Hp. discriminate.
Qed.

Lemma byte_of_code_unit (a c : byte) :
  byte_of_Z (Z.lor (u8 a) (uint16 (Z.shiftl (u8 c) 8))) = a
  /\ byte_of_Z (Z.shiftr (Z.lor (u8 a) (uint16 (Z.shiftl (u8 c) 8))) 8) = c.
Proof.
  pose proof (u8_range a) as Ha. pose proof (u8_range c) as Hc.
  assert (E : Z.lor (u8 a) (uint16 (Z.shiftl (u8 c) 8)) = u8 c * 2 ^ 8 + u8 a).
  { unfold uint16. rewrite Z.shiftl_mul_pow2 by lia. change (2 ^ 8) with 256.
    rewrite Z.mod_small by lia. rewrite Z.lor_comm. change 256 with (2 ^ 8).
    apply lor_concat; [lia | change (2 ^ 8) with 256; lia]. }
  rewrite E. change (2 ^ 8) with 256. split.
  - rewrite <- (byte_of_Z_u8 a) at 2. unfold byte_of_Z. f_equal.
    rewrite Z.add_comm, Z.mod_add by lia. now rewrite (Z.mod_small (u8 a)) by lia.
  - rewrite Z.shiftr_div_pow2 by lia. change (2 ^ 8) with 256.
    rewrite Z.div_add_l, Z.div_small, Z.add_0_r by lia. apply byte_of_Z_u8.
Qed.

(** The code units the loop of [decodeUTF16] reads are the pairs of
    the bytes. *)
Lemma bytes_of_code_units (le : bool) (n : nat) :
  forall data : list byte,
    List.length data = (2 * n)%nat ->
    flat_map (unit_bytes le) (map (code_unit le data) (seq 0 n)) = data.
Proof.
  induction n as [|n IH]; intros data Hl.
  { destruct data; [reflexivity | cbn in Hl; lia]. }
  destruct data as [|a [|c rest]]; try (cbn in Hl; lia).
  cbn [seq map flat_map]. rewrite <- seq_shift, map_map.
  rewrite (map_ext _ (code_unit le rest))
    by (intros i; apply code_unit_skip).
  rewrite IH by (cbn [List.length] in Hl; lia).
  unfold unit_bytes, code_unit, at_. cbn [Nat.mul Nat.add nth].
  destruct (byte_of_code_unit a c) as [E1 E2].
  destruct (byte_of_code_unit c a) as [E3 E4].
  destruct le; cbn [app]; rewrite ?E1, ?E2, ?E3, ?E4; reflexivity.
Qed.

Lemma decodeUTF16_decode_units (data : list byte) :
  decodeUTF16 data = decode_units (negb (big_endian_mark data)) (strip_bom data).
Proof.
  unfold strip_bom. destruct (has_bom data) eqn:Hb.
  - destruct data as [|b0 [|b1 rest]]; try discriminate Hb.
    cbn [has_bom] in Hb. cbn [skipn big_endian_mark].
    destruct (Byte.eqb b0 xff && Byte.eqb b1 xfe) eqn:E1.
    + apply andb_true_iff in E1. destruct E1 as [E0 E1].
      apply Byte.byte_dec_bl in E0, E1. subst. apply decodeUTF16_mark_le.
    + cbn [orb] in Hb. rewrite Hb. apply andb_true_iff in Hb. destruct Hb as [E0 E2].
      apply Byte.byte_dec_bl in E0, E2. subst. apply decodeUTF16_mark_be.
  - rewrite decodeUTF16_no_mark by exact Hb.
    destruct data as [|b0 [|b1 rest]]; try reflexivity.
    cbn [has_bom] in Hb. apply orb_false_iff in Hb. destruct Hb as [_ Hb].
    cbn [big_endian_mark]. now rewrite Hb.
Qed.

(** [decodeUTF16] is the decoding of the specification. *)
Lemma decodeUTF16_text (data : list byte) : utf16_text data (decodeUTF16 data).
Proof.
  unfold utf16_text. cbv zeta. rewrite decodeUTF16_decode_units.
  set (rest := strip_bom data). set (le := negb (big_endian_mark data)).
  unfold decode_units.
  destruct (Z.odd (len rest)) eqn:Hodd.
  - now rewrite (odd_not_even_length _ Hodd).
  - assert (Hev : len rest mod 2 = 0) by (rewrite Zmod_odd, Hodd; reflexivity).
    rewrite Hev. cbn [Z.eqb negb].
    set (n := Z.to_nat (len rest / 2)).
    exists (map (code_unit le rest) (seq 0 n)), (Utf16.Decode (map (code_unit le rest) (seq 0 n))).
    split; [ | split; [ | split; [ | reflexivity]]].
    + apply Forall_forall. intros u Hu. apply in_map_iff in Hu.
      destruct Hu as (i & <- & _). apply code_unit_ok.
    + symmetry. apply bytes_of_code_units. unfold n, len in *.
      pose proof (Z.div_mod (Z.of_nat (List.length rest)) 2 ltac:(lia)). lia.
    + apply (Decode_decodes _ _ (le_n _)).
Qed.

(** *** The normalised text *)

(** [isUTF16] decides as the classifier of the specification. *)
Lemma isUTF16_classifier (data : list byte) :
  len data < 2 ^ 53 -> isUTF16 data = is_utf16_ref data.
Proof.
  intros Hlen. unfold isUTF16, is_utf16_ref.
  destruct data as [|b0 [|b1 rest]]; try reflexivity.
  rewrite len_cons2. unfold is_bom_le, is_bom_be, at_. cbn [nth andb].
  set (data := b0 :: b1 :: rest) in *.
  destruct (Byte.eqb b0 xff && Byte.eqb b1 xfe); [reflexivity | ].
  destruct (Byte.eqb b0 xfe && Byte.eqb b1 xff); [reflexivity | ].
  cbn [orb]. rewrite even_mod2.
  destruct (Z.even (len data) && (10 <? len data)) eqn:Hgate; [ | reflexivity].
  apply andb_true_iff in Hgate. destruct Hgate as [_ Hgt]. apply Z.ltb_lt in Hgt.
  pose proof (zero_odd_count_bounds data) as Hcnt.
  assert (Hhalf : 0 < len data / 2 < 2 ^ 52).
  { split.
    - apply Z.div_str_pos. lia.
    - apply Z.div_lt_upper_bound; [lia | ]. change (2 * 2 ^ 52) with (2 ^ 53). lia. }
  rewrite count_nulls_spec, float_ratio_gt by assumption.
  unfold odd_zero_ratio. symmetry. apply ratio_above_3_10. lia.
Qed.

(** The text [processOutput] returns is the normalised text of the
    specification. *)
Lemma normalized_is_reference (data : list byte) :
  len data < 2 ^ 53 -> normalized_ref data (normalized data).
Proof.
  intros Hlen. unfold normalized_ref, normalized.
  rewrite (isUTF16_classifier data Hlen).
  destruct (is_utf16_ref data); [apply decodeUTF16_text | reflexivity].
Qed.

(** *** The trimmed text and the normalised text are determined *)

Lemma encoderune_space_inj (c d : Z) (x y : list Z) :
  white_space c -> white_space d ->
  (Utf8.encoderune c ++ x)%list = (Utf8.encoderune d ++ y)%list ->
  c = d /\ x = y.
Proof.
  intros Hc Hd E.
  pose proof (DecodeRune_seq _ c x (white_space_seq c Hc)) as H1.
  pose proof (DecodeRune_seq _ d y (white_space_seq d Hd)) as H2.
  rewrite E, H2 in H1. injection H1 as E1 _. subst d.
  split; [reflexivity | now apply app_inv_head in E].
Qed.

Lemma encoderune_space_inj_last (c d : Z) (x y : list Z) :
  white_space c -> white_space d ->
  (x ++ Utf8.encoderune c)%list = (y ++ Utf8.encoderune d)%list ->
  c = d /\ x = y.
Proof.
  intros Hc Hd E.
  pose proof (DecodeLastRune_seq x _ c (white_space_seq c Hc)) as H1.
  pose proof (DecodeLastRune_seq y _ d (white_space_seq d Hd)) as H2.
  rewrite E, H2 in H1. injection H1 as E1 _. subst d.
  split; [reflexivity | now apply app_inv_tail in E].
Qed.

(** Of two runs of white space that start at the same place, one
    continues the other. *)
Lemma blank_bytes_prefixes (a : list Z) :
  blank_bytes a ->
  forall b x y : list Z,
    blank_bytes b -> (a ++ x)%list = (b ++ y)%list ->
    exists z, blank_bytes z /\ (a = (b ++ z)%list \/ b = (a ++ z)%list).
Proof.
  intros (ca & Hca & ->). induction Hca as [|c ca Hc Hca IH]; intros b x y Hb E.
  - exists b. split; [exact Hb | now right].
  - destruct Hb as (cb & Hcb & ->). destruct Hcb as [|d cb Hd Hcb].
    + exists (flat_map Utf8.encoderune (c :: ca)). split; [ | now left].
      exists (c :: ca). split; [now constructor | reflexivity].
    + cbn [flat_map] in *. rewrite <- !app_assoc in E.
      destruct (encoderune_space_inj c d _ _ Hc Hd E) as [<- E'].
      destruct (IH (flat_map Utf8.encoderune cb) x y) as (z & Hz & Hor);
        [now exists cb | exact E' | ].
      exists z. split; [exact Hz | ].
      destruct Hor as [Hor | Hor]; [left | right]; rewrite Hor; now rewrite app_assoc.
Qed.

(** Of two runs of white space that end at the same place, one
    continues the other. *)
Lemma blank_bytes_suffixes (a : list Z) :
  blank_bytes a ->
  forall b x y : list Z,
    blank_bytes b -> (x ++ a)%list = (y ++ b)%list ->
    exists z, blank_bytes z /\ (a = (z ++ b)%list \/ b = (z ++ a)%list).
Proof.
  intros (ca & Hca & ->). induction ca as [|c ca IH] using rev_ind; intros b x y Hb E.
  - exists b. split; [exact Hb | right; now rewrite app_nil_r].
  - apply Forall_app in Hca. destruct Hca as [Hca Hc]. inversion Hc as [|? ? Hc' _]; subst.
    destruct Hb as (cb & Hcb & ->). destruct cb as [|d cb] using rev_ind.
    + exists (flat_map Utf8.encoderune (ca ++ [c])). split; [ | left; now rewrite app_nil_r].
      exists (ca ++ [c])%list. split; [apply Forall_app; split; assumption | reflexivity].
    + clear IHcb. apply Forall_app in Hcb. destruct Hcb as [Hcb Hd].
      inversion Hd as [|? ? Hd' _]; subst.
      rewrite !flat_map_app in *. cbn [flat_map] in *. rewrite !app_nil_r in *.
      rewrite !app_assoc in E.
      destruct (encoderune_space_inj_last c d _ _ Hc' Hd' E) as [<- E'].
      destruct (IH Hca (flat_map Utf8.encoderune cb) x y) as (z & Hz & Hor);
        [now exists cb | exact E' | ].
      exists z. split; [exact Hz | ].
      destruct Hor as [Hor | Hor]; [left | right]; rewrite Hor; now rewrite app_assoc.
Qed.

(** Text that begins with no white space cannot be followed by white
    space so that the two begin with a white-space character. *)
Lemma no_space_first_blank (t r : list Z) (c : Z) (rest : list Z) :
  no_space_first t -> t <> [] -> blank_bytes r -> white_space c ->
  (t ++ r)%list <> (Utf8.encoderune c ++ rest)%list.
Proof.
  intros Hn Hne Hr Hc E.
  destruct (app_eq_app _ _ _ _ E) as (m & [[E1 E2] | [E1 E2]]).
  - exact (Hn c m Hc E1).
  - destruct (encoderune_space_first c Hc) as (h & tl & Ee & _ & Hcont).
    rewrite Ee in E1. destruct t as [|h' t2]; [now apply Hne | ].
    cbn [app] in E1. injection E1 as Eh Etl. subst tl h'.
    destruct m as [|m0 m'].
    + rewrite app_nil_r in Ee. apply (Hn c [] Hc). now rewrite app_nil_r, Ee.
    + apply Forall_app in Hcont. destruct Hcont as [_ Hm].
      inversion Hm as [|? ? Hm0 _]; subst.
      pose proof (blank_bytes_first _ Hr) as Hf. cbn [app] in Hf.
      destruct Hf as [Ha | Hf]; [ | lia].
      unfold asciiSpace in Ha. rewrite !orb_true_iff, !Z.eqb_eq in Ha. lia.
Qed.

Lemma blank_bytes_cases (z : list Z) :
  blank_bytes z ->
  z = [] \/ exists c z', white_space c /\ blank_bytes z' /\ z = (Utf8.encoderune c ++ z')%list.
Proof.
  intros (cs & Hcs & ->). destruct Hcs as [|c cs Hc Hcs]; [now left | right].
  exists c, (flat_map Utf8.encoderune cs). split; [exact Hc | split; [now exists cs | reflexivity]].
Qed.

Lemma blank_bytes_cases_last (z : list Z) :
  blank_bytes z ->
  z = [] \/ exists c z', white_space c /\ z = (z' ++ Utf8.encoderune c)%list.
Proof.
  intros (cs & Hcs & ->). destruct cs as [|c cs _] using rev_ind; [now left | right].
  apply Forall_app in Hcs. destruct Hcs as [_ Hc]. inversion Hc; subst.
  exists c, (flat_map Utf8.encoderune cs). split; [assumption | ].
  rewrite flat_map_app. cbn [flat_map]. now rewrite app_nil_r.
Qed.

(** Text that begins with no white space and, with the white space
    after it, makes up white space only, is empty. *)
Lemma no_space_first_in_blank (t r z : list Z) :
  no_space_first t -> blank_bytes r -> blank_bytes z -> (t ++ r)%list = z -> t = [].
Proof.
  intros Hn Hr Hz E. destruct t as [|h t']; [reflexivity | exfalso].
  destruct (blank_bytes_cases z Hz) as [-> | (c & z' & Hc & _ & ->)];
    [discriminate E | ].
  apply (no_space_first_blank (h :: t') r c z' Hn);
    [discriminate | exact Hr | exact Hc | exact E].
Qed.

(** Removing the white space at the two ends has one result. *)
Lemma trimmed_bytes_unique (l t r l' t' r' : list Z) :
  (l ++ t ++ r)%list = (l' ++ t' ++ r')%list ->
  blank_bytes l -> blank_bytes r -> blank_bytes l' -> blank_bytes r' ->
  no_space_first t -> no_space_last t -> no_space_first t' -> no_space_last t' ->
  t = t'.
Proof.
  intros E Hl Hr Hl' Hr' Hf Hla Hf' Hla'.
  assert (Hsame : (t ++ r)%list = (t' ++ r')%list -> t = t').
  { intros E2.
    destruct (blank_bytes_suffixes r Hr r' t t' Hr' E2) as (z & Hz & [-> | ->]).
    - rewrite app_assoc in E2. apply app_inv_tail in E2.
      destruct (blank_bytes_cases_last z Hz) as [-> | (c & z' & Hc & ->)].
      + rewrite app_nil_r in E2. now symmetry.
      + exfalso. apply (Hla' c (t ++ z')%list Hc). rewrite <- E2. now rewrite app_assoc.
    - rewrite app_assoc in E2. apply app_inv_tail in E2.
      destruct (blank_bytes_cases_last z Hz) as [-> | (c & z' & Hc & ->)].
      + now rewrite app_nil_r in E2.
      + exfalso. apply (Hla c (t' ++ z')%list Hc). rewrite E2. now rewrite app_assoc.
  }
  assert (Hstep : forall (t r t' r' z : list Z),
             blank_bytes r -> blank_bytes r' -> blank_bytes z ->
             no_space_first t -> no_space_first t' ->
             (t ++ r)%list = (z ++ t' ++ r')%list ->
             z = [] \/ (t = [] /\ t' = [])).
  { clear. intros t r t' r' z Hr Hr' Hz Hf Hf' E2.
    destruct (blank_bytes_cases z Hz) as [-> | (c & z' & Hc & Hz' & ->)];
      [now left | right].
    assert (Ht : t = []).
    { destruct t as [|h t0]; [reflexivity | exfalso].
      rewrite <- app_assoc in E2.
      apply (no_space_first_blank (h :: t0) r c (z' ++ t' ++ r')%list Hf);
        [discriminate | exact Hr | exact Hc | exact E2]. }
    split; [exact Ht | ]. subst t. cbn [app] in E2.
    (* all of [r] is white space; [t'] lies inside it *)
    assert (Hz0 : blank_bytes (Utf8.encoderune c ++ z'))
      by (apply blank_bytes_app; [now apply blank_bytes_one | exact Hz']).
    destruct (blank_bytes_prefixes r Hr (Utf8.encoderune c ++ z')%list [] (t' ++ r')%list Hz0)
      as (z2 & Hz2 & [E3 | E3]).
    - now rewrite app_nil_r.
    - rewrite E3 in E2. apply app_inv_head in E2.
      apply (no_space_first_in_blank t' r' z2 Hf' Hr' Hz2). now symmetry.
    - rewrite E3, <- app_assoc in E2.
      rewrite <- (app_nil_r r) in E2 at 1. apply app_inv_head in E2.
      symmetry in E2. apply app_eq_nil in E2. destruct E2 as [_ E2].
      apply app_eq_nil in E2. tauto. }
  destruct (blank_bytes_prefixes l Hl l' (t ++ r)%list (t' ++ r')%list Hl' E)
    as (z & Hz & [-> | ->]).
  - rewrite <- app_assoc in E. apply app_inv_head in E.
    destruct (Hstep t' r' t r z Hr' Hr Hz Hf' Hf (eq_sym E)) as [-> | [-> ->]];
      [ | reflexivity].
    apply Hsame. now symmetry.
  - rewrite <- app_assoc in E. apply app_inv_head in E.
    destruct (Hstep t r t' r' z Hr Hr' Hz Hf Hf' E) as [-> | [-> ->]];
      [ | reflexivity].
    now apply Hsame.
Qed.

Lemma bytes_of_blank (l : string) : blank l -> blank_bytes (bytes_of_string l).
Proof.
  intros (cs & Hcs & ->). exists cs. split; [exact Hcs | ].
  apply bytes_of_go_string. eapply Forall_impl; [ | exact Hcs].
  intros c. apply white_space_scalar.
Qed.

Lemma string_of_one_rune (c : Z) :
  Utf8.string_of_Zs (Utf8.encoderune c) = go_string [c].
Proof. rewrite <- (string_of_encoded [c]). cbn [flat_map]. now rewrite app_nil_r. Qed.

(** Removing the white space at the two ends of a string has one
    result. *)
Lemma trimmed_of_unique (s t t' : string) :
  trimmed_of s t -> trimmed_of s t' -> t = t'.
Proof.
  intros ((l & r & E & Hl & Hr) & Hf & Hla) ((l' & r' & E' & Hl' & Hr') & Hf' & Hla').
  assert (Hfirst : forall u : string,
             (forall c rest, white_space c -> u <> go_string [c] ++ rest) ->
             no_space_first (bytes_of_string u)).
  { intros u Hu c rest Hc Eu. apply (Hu c (Utf8.string_of_Zs rest) Hc).
    rewrite <- (string_of_bytes_of_string u), Eu, string_of_Zs_app.
    now rewrite string_of_one_rune. }
  assert (Hlast : forall u : string,
             (forall c pre, white_space c -> u <> pre ++ go_string [c]) ->
             no_space_last (bytes_of_string u)).
  { intros u Hu c pre Hc Eu. apply (Hu c (Utf8.string_of_Zs pre) Hc).
    rewrite <- (string_of_bytes_of_string u), Eu, string_of_Zs_app.
    now rewrite string_of_one_rune. }
  rewrite <- (string_of_bytes_of_string t), <- (string_of_bytes_of_string t').
  f_equal.
  apply (trimmed_bytes_unique (bytes_of_string l) _ (bytes_of_string r)
           (bytes_of_string l') _ (bytes_of_string r')).
  - rewrite <- !bytes_of_string_app, <- E, <- E'. reflexivity.
  - now apply bytes_of_blank.
  - now apply bytes_of_blank.
  - now apply bytes_of_blank.
  - now apply bytes_of_blank.
  - now apply Hfirst.
  - now apply Hlast.
  - now apply Hfirst.
  - now apply Hlast.
Qed.

(** UTF-16 decoding has one result. *)
Lemma utf16_decodes_unique (us cs : list Z) :
  utf16_decodes us cs -> forall cs', utf16_decodes us cs' -> cs = cs'.
Proof.
  induction 1 as [|u us cs Hu _ IH|hi lo us cs Hhi Hlo _ IH|u us cs Hu Hnp _ IH];
    intros cs' H'; inversion H'; subst; try lia;
    [reflexivity | f_equal; now apply IH ..].
Qed.

(** The code units are determined by their bytes. *)
Lemma unit_bytes_inj (le : bool) (us us' : list Z) :
  Forall unit_ok us -> Forall unit_ok us' ->
  flat_map (unit_bytes le) us = flat_map (unit_bytes le) us' -> us = us'.
Proof.
  intros Hus Hus' E.
  assert (Hl : List.length us = List.length us').
  { apply (f_equal (@List.length byte)) in E. rewrite !length_unit_bytes in E. lia. }
  rewrite <- (code_units_of_bytes le us Hus), <- (code_units_of_bytes le us' Hus').
  now rewrite E, Hl.
Qed.

(** The normalised text of the specification is determined by the
    bytes. *)
Lemma normalized_ref_unique (data : list byte) (t t' : string) :
  normalized_ref data t -> normalized_ref data t' -> t = t'.
Proof.
  unfold normalized_ref, utf16_text.
  destruct (is_utf16_ref data); [ | congruence]. cbv zeta.
  destruct (Z.odd (len (strip_bom data))); [congruence | ].
  intros (us & cs & Hus & E & Hd & ->) (us' & cs' & Hus' & E' & Hd' & ->).
  rewrite E in E'. apply unit_bytes_inj in E'; [ | assumption | assumption].
  subst us'. f_equal. now apply (utf16_decodes_unique us).
Qed.

(** *** The output *)

(** C8. [Output] is the captured bytes after the UTF-16 normalisation
    of the specification, with the white space at its two ends
    removed. There is a text that is the normalisation of the captured
    bytes (decoded from UTF-16 when the classifier of the
    specification detects it: mark stripped, byte order by the mark,
    code units paired and decoded, surrogate pairs included; the bytes
    as they are otherwise), and [Output] is that text without the
    white space at its two ends: what is cut off on either side is
    white space only, and [Output] neither begins nor ends with a
    white-space character (the code points with the Unicode property
    White_Space). Nothing else fits this description: every text that
    is the normalisation of the captured bytes, trimmed in any way
    that meets it, gives [Output]. The classifier of the code is that
    of the specification for every buffer shorter than 2^53 bytes,
    which every Go slice is. *)
Theorem C8_output_is_trimmed_normalized (w : World) (req : MainGo.Request) :
  let captured := fst (CombinedOutput w (run_cmd (MainGo.executeCommand_run w req))) in
  len captured < 2 ^ 53 ->
  (exists text : string,
      normalized_ref captured text
      /\ trimmed_of text (Output (MainGo.executeCommand w req)))
  /\ (forall text out : string,
         normalized_ref captured text -> trimmed_of text out ->
         out = Output (MainGo.executeCommand w req)).
Proof.
  cbv zeta. rewrite MainGo_run_cmd.
  destruct (MainGo_response_fields w req) as (Ho & _). cbv zeta in Ho.
  intros Hlen. rewrite Ho.
  set (captured := fst (CombinedOutput w _)) in *.
  pose proof (normalized_is_reference captured Hlen) as Hn.
  pose proof (TrimSpace_trimmed (normalized captured)) as Ht.
  split.
  - exists (normalized captured). now split.
  - intros text out Hn' Ht'.
    rewrite (normalized_ref_unique captured text (normalized captured) Hn' Hn) in Ht'.
    exact (trimmed_of_unique _ _ _ Ht' Ht).
Qed.

Lemma C8_output_is_trimmed_normalized_witness :
  let w := fixed_host "windows" sample_marked None 1 in
  let req :=
    {| MainGo.Command := "echo hi"; MainGo.Type_ := "cmd"; MainGo.Headless := true;
       MainGo.Verbose := false; MainGo.PersistWindow := false |} in
  len sample_marked < 2 ^ 53
  /\ Output (MainGo.executeCommand w req) = "hi"
  /\ exists text : string,
       normalized_ref sample_marked text
       /\ trimmed_of text (Output (MainGo.executeCommand w req)).
Proof.
  cbv zeta. split; [reflexivity | split; [vm_compute; reflexivity | ]].
  apply (C8_output_is_trimmed_normalized
           (fixed_host "windows" sample_marked None 1)
           {| MainGo.Command := "echo hi"; MainGo.Type_ := "cmd";
              MainGo.Headless := true; MainGo.Verbose := false;
              MainGo.PersistWindow := false |}).
  reflexivity.
Defined.

(** * Further properties *)

(** ** The dispatcher *)

Lemma dispatch_program (goos t c : string) (headless : bool) :
  In (Path (dispatch goos t c headless)) known_programs
  /\ hd EmptyString (Args (dispatch goos t c headless)) = Path (dispatch goos t c headless).
Proof.
  unfold dispatch, known_programs.
  destruct headless, (String.eqb goos "windows"), (is_powershell t), (is_wsl t);
    cbn; intuition.
Qed.

Lemma dispatch_last_arg (goos t c : string) (headless : bool) :
  last (Args (dispatch goos t c headless)) EmptyString
  = if negb headless && String.eqb goos "windows" && negb (is_powershell t) && is_wsl t
    then c ++ pause_suffix else c.
Proof.
  unfold dispatch.
  destruct headless, (String.eqb goos "windows"), (is_powershell t), (is_wsl t);
    reflexivity.
Qed.

(** X1. Whatever the request and the host, the program handed to
    [exec.Command] is one of [cmd], [powershell], [wsl], [bash] and
    [pwsh], it is the first element of the argument vector, and the
    command text of the request is the last argument, as one argument
    and unchanged, except for headed WSL on Windows where the pause
    prompt is appended to it. Both variants. *)
Theorem X1_command_is_last_argument (w : World) (req : MainGo.Request)
    (req' : TypeGo.Request) :
  (let cmd := run_cmd (MainGo.executeCommand_run w req) in
   In (Path cmd) known_programs
   /\ hd EmptyString (Args cmd) = Path cmd
   /\ last (Args cmd) EmptyString
      = if negb (MainGo.Headless req) && String.eqb (GOOS w) "windows"
           && negb (is_powershell (MainGo.Type_ req)) && is_wsl (MainGo.Type_ req)
        then MainGo.Command req ++ pause_suffix else MainGo.Command req)
  /\
  (let cmd := run_cmd (TypeGo.executeCommand_run w req') in
   In (Path cmd) known_programs
   /\ hd EmptyString (Args cmd) = Path cmd
   /\ last (Args cmd) EmptyString
      = if negb (TypeGo.Headless req') && String.eqb (GOOS w) "windows"
           && negb (is_powershell (TypeGo.Type_ req')) && is_wsl (TypeGo.Type_ req')
        then TypeGo.Command req' ++ pause_suffix else TypeGo.Command req').
Proof.
  cbv zeta. rewrite MainGo_run_cmd, TypeGo_run_cmd.
  split; (split; [apply dispatch_program | split;
                  [apply dispatch_program | apply dispatch_last_arg]]).
Qed.

(** X2. The process attributes are always set: the window is hidden
    exactly when the request is headless, and the creation flag for a
    console of its own is set exactly for a headed request on
    Windows. Both variants. *)
Theorem X2_window_attributes (w : World) (req : MainGo.Request)
    (req' : TypeGo.Request) :
  Attr (run_cmd (MainGo.executeCommand_run w req))
  = Some {| HideWindow := MainGo.Headless req;
            CreationFlags :=
              if negb (MainGo.Headless req) && String.eqb (GOOS w) "windows"
              then CREATE_NEW_CONSOLE else 0 |}
  /\ Attr (run_cmd (TypeGo.executeCommand_run w req'))
     = Some {| HideWindow := TypeGo.Headless req';
               CreationFlags :=
                 if negb (TypeGo.Headless req') && String.eqb (GOOS w) "windows"
                 then TypeGo.CreateNewConsole else 0 |}.
Proof.
  rewrite MainGo_run_cmd, TypeGo_run_cmd. unfold dispatch.
  split.
  - destruct (MainGo.Headless req), (String.eqb (GOOS w) "windows"); reflexivity.
  - destruct (TypeGo.Headless req'), (String.eqb (GOOS w) "windows"); reflexivity.
Qed.

(** X3. The kinds [ps] and [powershell] are one kind: two requests
    that differ only in naming it one way or the other are handed to
    the host as the same command, get the same output, error and
    duration, and with [verbose] off the same response. *)
Theorem X3_ps_is_powershell (w : World) (c : string) (headless verbose p : bool) :
  let req t v :=
    {| MainGo.Command := c; MainGo.Type_ := t; MainGo.Headless := headless;
       MainGo.Verbose := v; MainGo.PersistWindow := p |} in
  run_cmd (MainGo.executeCommand_run w (req "ps" verbose))
  = run_cmd (MainGo.executeCommand_run w (req "powershell" verbose))
  /\ Output (MainGo.executeCommand w (req "ps" verbose))
     = Output (MainGo.executeCommand w (req "powershell" verbose))
  /\ Error (MainGo.executeCommand w (req "ps" verbose))
     = Error (MainGo.executeCommand w (req "powershell" verbose))
  /\ Duration (MainGo.executeCommand w (req "ps" verbose))
     = Duration (MainGo.executeCommand w (req "powershell" verbose))
  /\ MainGo.executeCommand w (req "ps" false)
     = MainGo.executeCommand w (req "powershell" false).
Proof.
  intros req.
  assert (Hf : forall v,
             Output (MainGo.executeCommand w (req "ps" v))
             = Output (MainGo.executeCommand w (req "powershell" v))
             /\ Error (MainGo.executeCommand w (req "ps" v))
                = Error (MainGo.executeCommand w (req "powershell" v))
             /\ Duration (MainGo.executeCommand w (req "ps" v))
                = Duration (MainGo.executeCommand w (req "powershell" v))).
  { intros v.
    destruct (MainGo_response_fields w (req "ps" v)) as (Ho1 & He1 & Hd1).
    destruct (MainGo_response_fields w (req "powershell" v)) as (Ho2 & He2 & Hd2).
    cbv zeta in *. rewrite Ho1, Ho2, He1, He2, Hd1, Hd2. repeat split. }
  split; [rewrite !MainGo_run_cmd; reflexivity | ].
  destruct (Hf verbose) as (Ho & He & Hd).
  split; [exact Ho | split; [exact He | split; [exact Hd | ]]].
  destruct (Hf false) as (Ho' & He' & Hd').
  apply Response_ext; try assumption.
  rewrite !MainGo_quiet_debug; reflexivity.
Qed.

(** X4. On a host other than Windows a headed request never reaches
    WSL: whatever its kind, it is run as [pwsh -Command <command>]
    for [powershell]/[ps] and as [bash -c <command>] for every other
    kind, [wsl] included, with empty process attributes. *)
Theorem X4_headed_elsewhere (w : World) (req : MainGo.Request) :
  String.eqb (GOOS w) "windows" = false ->
  MainGo.Headless req = false ->
  run_cmd (MainGo.executeCommand_run w req)
  = with_attr
      (if is_powershell (MainGo.Type_ req)
       then exec_Command "pwsh" ["-Command"; MainGo.Command req]
       else exec_Command "bash" ["-c"; MainGo.Command req])
      {| HideWindow := false; CreationFlags := 0 |}.
Proof.
  intros Hw Hh. rewrite MainGo_run_cmd. unfold dispatch. rewrite Hw, Hh. reflexivity.
Qed.

Lemma X4_headed_elsewhere_witness :
  String.eqb "linux" "windows" = false
  /\ Args (run_cmd (MainGo.executeCommand_run (fixed_host "linux" [] None 0)
             {| MainGo.Command := "ls"; MainGo.Type_ := "wsl";
                MainGo.Headless := false; MainGo.Verbose := false;
                MainGo.PersistWindow := false |}))
     = ["bash"; "-c"; "ls"].
Proof.
  split; [reflexivity | ].
  rewrite (X4_headed_elsewhere (fixed_host "linux" [] None 0)
             {| MainGo.Command := "ls"; MainGo.Type_ := "wsl";
                MainGo.Headless := false; MainGo.Verbose := false;
                MainGo.PersistWindow := false |} eq_refl eq_refl).
  reflexivity.
Defined.

(** X5. [verbose] changes nothing but the trace: two requests that
    differ only in [verbose] are handed to the host as the same
    command and get the same output, error and duration. Both
    variants. *)
Theorem X5_verbose_only_adds_trace (w : World) (c t : string) (headless p v1 v2 : bool) :
  let req v :=
    {| MainGo.Command := c; MainGo.Type_ := t; MainGo.Headless := headless;
       MainGo.Verbose := v; MainGo.PersistWindow := p |} in
  let req' v :=
    {| TypeGo.Command := c; TypeGo.Type_ := t; TypeGo.Headless := headless;
       TypeGo.Verbose := v |} in
  (run_cmd (MainGo.executeCommand_run w (req v1))
   = run_cmd (MainGo.executeCommand_run w (req v2))
   /\ Output (MainGo.executeCommand w (req v1)) = Output (MainGo.executeCommand w (req v2))
   /\ Error (MainGo.executeCommand w (req v1)) = Error (MainGo.executeCommand w (req v2))
   /\ Duration (MainGo.executeCommand w (req v1))
      = Duration (MainGo.executeCommand w (req v2)))
  /\
  (run_cmd (TypeGo.executeCommand_run w (req' v1))
   = run_cmd (TypeGo.executeCommand_run w (req' v2))
   /\ Output (TypeGo.executeCommand w (req' v1)) = Output (TypeGo.executeCommand w (req' v2))
   /\ Error (TypeGo.executeCommand w (req' v1)) = Error (TypeGo.executeCommand w (req' v2))
   /\ Duration (TypeGo.executeCommand w (req' v1))
      = Duration (TypeGo.executeCommand w (req' v2))).
Proof.
  intros req req'.
  destruct (MainGo_response_fields w (req v1)) as (Ho1 & He1 & Hd1).
  destruct (MainGo_response_fields w (req v2)) as (Ho2 & He2 & Hd2).
  destruct (TypeGo_response_fields w (req' v1)) as (Ho1' & He1' & Hd1').
  destruct (TypeGo_response_fields w (req' v2)) as (Ho2' & He2' & Hd2').
  cbv zeta in *.
  rewrite !MainGo_run_cmd, !TypeGo_run_cmd.
  rewrite Ho1, Ho2, He1, He2, Hd1, Hd2, Ho1', Ho2', He1', He2', Hd1', Hd2'.
  repeat split.
Qed.

(** X6. The two variants never differ in what they run or in the
    error and the duration they report, whatever [verbose] is and
    whatever the host returns; their outputs are equal unless the
    captured bytes are classified as UTF-16. *)
Theorem X6_variants_differ_in_output_only (w : World) (req : MainGo.Request) :
  let cmd := run_cmd (TypeGo.executeCommand_run w (forget req)) in
  run_cmd (MainGo.executeCommand_run w req) = cmd
  /\ Error (MainGo.executeCommand w req) = Error (TypeGo.executeCommand w (forget req))
  /\ Duration (MainGo.executeCommand w req)
     = Duration (TypeGo.executeCommand w (forget req))
  /\ (if isUTF16 (fst (CombinedOutput w cmd)) then True
      else Output (MainGo.executeCommand w req)
           = Output (TypeGo.executeCommand w (forget req))).
Proof.
  cbv zeta.
  destruct (MainGo_response_fields w req) as (Ho & He & Hd).
  destruct (TypeGo_response_fields w (forget req)) as (Ho' & He' & Hd').
  cbv zeta in *. rewrite MainGo_run_cmd, TypeGo_run_cmd.
  cbn [forget TypeGo.Command TypeGo.Type_ TypeGo.Headless] in *.
  rewrite Ho, He, Hd, Ho', He', Hd'. repeat split.
  unfold normalized.
  destruct (isUTF16 _); [exact I | reflexivity].
Qed.

(** ** The trace *)

Ltac host_cases w :=
  destruct (CombinedOutput w _) as [?out [?e|]];
  try (destruct (processOutput _ _ _) as [?text ?dbg] eqn:?);
  cbn [run_cmd run_resp run_trace Output Error Duration Debug set_Error set_Debug
       fst snd error_text].

Lemma grows_refl (b : Builder) : exists tail, b = (b ++ tail)%list.
Proof. exists []. now rewrite app_nil_r. Qed.

Lemma grows_write (b : Builder) (s : string) :
  exists tail, WriteString b s = (b ++ tail)%list.
Proof. exists [s]. reflexivity. Qed.

Lemma grows_write2 (b : Builder) (s t : string) :
  exists tail, WriteString (WriteString b s) t = (b ++ tail)%list.
Proof. exists [s; t]. unfold WriteString. now rewrite <- app_assoc. Qed.

(** X7. The trace of [main.go] is only ever appended to: it starts
    empty, each of its states during [executeCommand] extends the one
    before, and with [verbose] on [Debug] is the text of its last
    state. *)
Theorem X7_trace_is_append_only (w : World) (req : MainGo.Request) :
  let trace := run_trace (MainGo.executeCommand_run w req) in
  hd [] trace = []
  /\ growing trace
  /\ Debug (MainGo.executeCommand w req)
     = if MainGo.Verbose req then String_ (last trace []) else EmptyString.
Proof.
  cbv zeta. unfold MainGo.executeCommand, MainGo.executeCommand_run.
  destruct (MainGo.Verbose req), (MainGo.Headless req); cbv zeta;
    host_cases w;
    match goal with
    | H : processOutput ?o ?v ?b = (_, ?d) |- _ =>
        destruct (processOutput_grows o v b) as [tl Htl]; rewrite H in Htl;
        cbn [snd] in Htl; subst d
    end;
    (split; [reflexivity | split; [ | reflexivity]]);
    cbn [growing];
    repeat split;
    first [apply grows_refl | apply grows_write | apply grows_write2
          | eexists; reflexivity].
Qed.

Lemma contains_chunk (b : Builder) (s : string) : In s b -> contains (String_ b) s.
Proof.
  unfold contains, String_. induction b as [|x b IH]; intros Hin; [destruct Hin | ].
  rewrite concat_empty_cons. destruct Hin as [-> | Hin].
  - exists EmptyString, (String.concat EmptyString b). reflexivity.
  - destruct (IH Hin) as (pre & post & E). exists (x ++ pre), post.
    rewrite E, append_assoc. reflexivity.
Qed.

Lemma ends_with_last_chunk (b : Builder) (s : string) :
  ends_with (String_ (WriteString b s)) s.
Proof. exists (String_ b). apply String_WriteString. Qed.

(** X8. With [verbose] on, [Debug] of [main.go] holds the line with
    the type and the two flags, the line of the mode entered, the line
    with the argument vector handed to the host, the line with the
    error text when the host reported one, and it ends with the line of
    the duration. *)
Theorem X8_verbose_trace_lines (w : World) (c t : string) (headless p : bool) :
  let req :=
    {| MainGo.Command := c; MainGo.Type_ := t; MainGo.Headless := headless;
       MainGo.Verbose := true; MainGo.PersistWindow := p |} in
  let cmd := run_cmd (MainGo.executeCommand_run w req) in
  let debug := Debug (MainGo.executeCommand w req) in
  contains debug
    ("Type: " ++ t ++ ", Headless: " ++ Fmt.verb_t headless
     ++ ", PersistWindow: " ++ Fmt.verb_t p ++ nl)
  /\ contains debug
       (if headless then "Running in headless mode (window hidden)" ++ nl
        else "Running in headed mode (new window created)" ++ nl)
  /\ contains debug ("Command args: " ++ Fmt.verb_v (Args cmd) ++ nl)
  /\ match snd (CombinedOutput w cmd) with
     | Some e => contains debug ("Command failed with error: " ++ e ++ nl)
     | None => True
     end
  /\ ends_with debug
       ("Execution completed in " ++ Fmt.verb_d (SinceMs w cmd) ++ "ms" ++ nl).
Proof.
  cbv zeta. rewrite MainGo_run_cmd.
  unfold MainGo.executeCommand, MainGo.executeCommand_run, dispatch.
  cbn [MainGo.Verbose MainGo.Headless MainGo.Command MainGo.Type_ MainGo.PersistWindow].
  destruct headless; [ | destruct (String.eqb (GOOS w) "windows")];
    cbv beta iota zeta;
    host_cases w;
    match goal with
    | H : processOutput ?o ?v ?b = (_, ?d) |- _ =>
        destruct (processOutput_grows o v b) as [tl Htl]; rewrite H in Htl;
        cbn [snd] in Htl; subst d
    end;
    repeat match goal with
           | |- _ /\ _ => split
           | |- True => exact I
           | |- ends_with _ _ => apply ends_with_last_chunk
           | |- contains _ _ =>
               apply contains_chunk; unfold WriteString;
               rewrite ?in_app_iff; cbn [In]; tauto
           end.
Qed.

(** ** The loop of main *)

(** X9. A line that does not decode, because it is no JSON, is a JSON
    value other than an object or [null], or is an object with a field
    of the wrong type, is not rejected: the whole text of the line is
    run headless as [cmd /C <line>] on every host. Both variants. *)
Theorem X9_undecoded_line_is_run_by_cmd (w : World) (line : string)
    (scanned : option JSON) :
  match scanned with
  | Some v => snd (MainGo.Unmarshal v MainGo.zero_Request)
  | None => true
  end = true ->
  match scanned with
  | Some v => snd (TypeGo.Unmarshal v TypeGo.zero_Request)
  | None => true
  end = true ->
  run_cmd (MainGo.executeCommand_run w (MainGo.request_of_line line scanned))
  = with_attr (exec_Command "cmd" ["/C"; line])
      {| HideWindow := true; CreationFlags := 0 |}
  /\ run_cmd (TypeGo.executeCommand_run w (TypeGo.request_of_line line scanned))
     = with_attr (exec_Command "cmd" ["/C"; line])
         {| HideWindow := true; CreationFlags := 0 |}.
Proof.
  intros Hm Ht. rewrite MainGo_run_cmd, TypeGo_run_cmd.
  unfold MainGo.request_of_line, TypeGo.request_of_line.
  destruct scanned as [v|].
  - destruct (MainGo.Unmarshal v MainGo.zero_Request) as [r e].
    destruct (TypeGo.Unmarshal v TypeGo.zero_Request) as [r' e'].
    cbn [snd] in Hm, Ht. subst e e'. split; reflexivity.
  - split; reflexivity.
Qed.

Lemma X9_undecoded_line_is_run_by_cmd_witness :
  snd (MainGo.Unmarshal
         (JObject [("command", JNumber "5"); ("verbose", JBool true)])
         MainGo.zero_Request) = true
  /\ Args (run_cmd (MainGo.executeCommand_run (fixed_host "linux" [] None 0)
             (MainGo.request_of_line line_bad_command
                (Some (JObject [("command", JNumber "5"); ("verbose", JBool true)])))))
     = ["cmd"; "/C"; line_bad_command].
Proof.
  split; [reflexivity | ].
  rewrite (proj1 (X9_undecoded_line_is_run_by_cmd (fixed_host "linux" [] None 0)
                    line_bad_command
                    (Some (JObject [("command", JNumber "5"); ("verbose", JBool true)]))
                    eq_refl eq_refl)).
  reflexivity.
Defined.

(** X10. A plain line is handled as the request object that spells it
    out: the request built for a line that is no JSON is the one
    decoded from [{"command": <line>, "type": "cmd", "headless":
    true}], so both get the same response. *)
Theorem X10_plain_line_is_explicit_request (w : World) (line line' : string) :
  let explicit :=
    Some (JObject [("command", JString line); ("type", JString "cmd");
                   ("headless", JBool true)]) in
  MainGo.request_of_line line None = MainGo.request_of_line line' explicit
  /\ MainGo.executeCommand w (MainGo.request_of_line line None)
     = MainGo.executeCommand w (MainGo.request_of_line line' explicit).
Proof.
  cbv zeta.
  assert (H : MainGo.request_of_line line None
              = MainGo.request_of_line line'
                  (Some (JObject [("command", JString line); ("type", JString "cmd");
                                  ("headless", JBool true)]))) by reflexivity.
  split; [exact H | now rewrite H].
Qed.

Lemma decode_member_forget (r : MainGo.Request) (k : string) (v : JSON) :
  key_is k "persist_window" = false ->
  TypeGo.decode_member (forget r) k v
  = (forget (fst (MainGo.decode_member r k v)), snd (MainGo.decode_member r k v)).
Proof.
  intros Hk. unfold TypeGo.decode_member, MainGo.decode_member. rewrite Hk.
  destruct (key_is k "command"); [destruct v; reflexivity | ].
  destruct (key_is k "type"); [destruct v; reflexivity | ].
  destruct (key_is k "headless"); [destruct v; reflexivity | ].
  destruct (key_is k "verbose"); [destruct v; reflexivity | ].
  reflexivity.
Qed.

Lemma decode_members_forget (ms : list (string * JSON)) :
  has_key "persist_window" ms = false ->
  forall (r : MainGo.Request) (e : bool),
    TypeGo.decode_members ms (forget r) e
    = (forget (fst (MainGo.decode_members ms r e)),
       snd (MainGo.decode_members ms r e)).
Proof.
  induction ms as [|[k v] ms IH]; intros Hno r e.
  - reflexivity.
  - simpl in Hno. apply orb_false_iff in Hno. destruct Hno as [Hk Hms].
    cbn [TypeGo.decode_members MainGo.decode_members].
    rewrite (decode_member_forget r k v Hk).
    destruct (MainGo.decode_member r k v) as [r' e']. cbn [fst snd].
    apply IH. exact Hms.
Qed.

(** X11. For a line without a [persist_window] key the loops of the
    two variants build the same request (up to the field [type.go]
    does not have), fall back on the same lines, and hand the same
    command to the host. *)
Theorem X11_mains_agree_without_persist_window (w : World) (line : string)
    (scanned : option JSON) :
  has_key "persist_window" (members_of scanned) = false ->
  TypeGo.request_of_line line scanned = forget (MainGo.request_of_line line scanned)
  /\ run_cmd (TypeGo.executeCommand_run w (TypeGo.request_of_line line scanned))
     = run_cmd (MainGo.executeCommand_run w (MainGo.request_of_line line scanned)).
Proof.
  intros Hno.
  assert (H : TypeGo.request_of_line line scanned
              = forget (MainGo.request_of_line line scanned)).
  { unfold TypeGo.request_of_line, MainGo.request_of_line.
    destruct scanned as [[| | | | |ms]|]; try reflexivity.
    cbn [members_of] in Hno. unfold TypeGo.Unmarshal, MainGo.Unmarshal.
    change TypeGo.zero_Request with (forget MainGo.zero_Request).
    rewrite (decode_members_forget ms Hno).
    destruct (MainGo.decode_members ms MainGo.zero_Request false) as [r e].
    cbn [fst snd]. destruct e; reflexivity. }
  split; [exact H | ].
  rewrite H, MainGo_run_cmd, TypeGo_run_cmd. reflexivity.
Qed.

Lemma X11_mains_agree_without_persist_window_witness :
  has_key "persist_window"
    (members_of (Some (JObject [("command", JString "dir"); ("TYPE", JString "ps")])))
  = false
  /\ TypeGo.request_of_line line_ps
       (Some (JObject [("command", JString "dir"); ("TYPE", JString "ps")]))
     = {| TypeGo.Command := "dir"; TypeGo.Type_ := "ps"; TypeGo.Headless := false;
          TypeGo.Verbose := false |}.
Proof.
  split; [reflexivity | ].
  rewrite (proj1 (X11_mains_agree_without_persist_window (fixed_host "windows" [] None 0)
                    line_ps
                    (Some (JObject [("command", JString "dir"); ("TYPE", JString "ps")]))
                    eq_refl)).
  reflexivity.
Defined.

(** ** The normaliser *)

Lemma has_bom_marks (data : list byte) :
  has_bom data = ((2 <=? len data) && is_bom_le data) || ((2 <=? len data) && is_bom_be data).
Proof.
  unfold has_bom, is_bom_le, is_bom_be, at_.
  destruct data as [|b0 [|b1 rest]]; [reflexivity | reflexivity | ].
  rewrite len_cons2. reflexivity.
Qed.

Lemma isUTF16_marked (data : list byte) : has_bom data = true -> isUTF16 data = true.
Proof.
  rewrite has_bom_marks. unfold isUTF16. intros H.
  destruct ((2 <=? len data) && is_bom_le data); [reflexivity | ].
  cbn [orb] in H. rewrite H. reflexivity.
Qed.

Lemma isUTF16_unmarked (data : list byte) :
  has_bom data = false ->
  isUTF16 data
  = if (len data mod 2 =? 0) && (10 <? len data) then
      Float64.gt
        (Float64.div (Float64.of_int (zero_odd_count data))
           (Float64.of_int (len data / 2)))
        Float64.c0_3
    else false.
Proof.
  rewrite has_bom_marks. unfold isUTF16. intros H.
  apply orb_false_iff in H. destruct H as [H1 H2]. rewrite H1, H2.
  now rewrite count_nulls_spec.
Qed.

Lemma zero_over_anything (y : spec_float) :
  Float64.gt (Float64.div (Float64.of_int 0) y) Float64.c0_3 = false.
Proof. destruct y as [[|]|[|]| |[|] m e]; reflexivity. Qed.

Lemma filter_none {A : Type} (f : A -> bool) (l : list A) :
  (forall x, In x l -> f x = false) -> filter f l = [].
Proof.
  induction l as [|a l IH]; intros H; [reflexivity | ].
  cbn [filter]. rewrite (H a (or_introl eq_refl)). apply IH.
  intros x Hx. apply H. now right.
Qed.

Lemma zero_odd_count_none (data : list byte) :
  no_odd_zero data -> zero_odd_count data = 0.
Proof.
  intros H. unfold zero_odd_count. rewrite filter_none; [reflexivity | ].
  intros i Hi. apply in_seq in Hi.
  destruct (Nat.odd i) eqn:Hodd; [ | reflexivity]. cbn [andb].
  destruct (Byte.eqb (at_ data i) x00) eqn:E; [ | reflexivity].
  apply Byte.byte_dec_bl in E. exfalso. apply (H i Hodd); [lia | exact E].
Qed.

Lemma no_zero_not_utf16 (data : list byte) :
  has_bom data = false -> no_odd_zero data -> isUTF16 data = false.
Proof.
  intros Hm Hz.
  rewrite (isUTF16_unmarked data Hm), (zero_odd_count_none data Hz).
  destruct ((len data mod 2 =? 0) && (10 <? len data)); [ | reflexivity].
  apply zero_over_anything.
Qed.

(** X12. Bytes without a mark and without a zero byte at an odd
    position, as every text in ASCII or UTF-8 without NUL characters
    is, are never classified as UTF-16, whatever their length:
    [processOutput] returns them as they are. *)
Theorem X12_text_without_zero_bytes_passes (data : list byte) (verbose : bool)
    (b : Builder) :
  has_bom data = false -> no_odd_zero data ->
  isUTF16 data = false
  /\ fst (processOutput data verbose b) = string_of_list_byte data.
Proof.
  intros Hm Hz. pose proof (no_zero_not_utf16 data Hm Hz) as Hu.
  split; [exact Hu | ].
  rewrite processOutput_text. unfold normalized. now rewrite Hu.
Qed.

Lemma X12_text_without_zero_bytes_passes_witness :
  has_bom sample_ascii = false
  /\ no_odd_zero sample_ascii
  /\ isUTF16 sample_ascii = false.
Proof.
  assert (Hz : no_odd_zero sample_ascii).
  { intros i _ Hi.
    do 12 (destruct i as [|i]; [cbn; discriminate | ]).
    cbn in Hi. lia. }
  split; [reflexivity | split; [exact Hz | ]].
  exact (proj1 (X12_text_without_zero_bytes_passes sample_ascii false [] eq_refl Hz)).
Defined.

Lemma utf16_encode_bmp (text : list Z) :
  Forall (fun c => c < 0x10000) text -> utf16_encode text = text.
Proof.
  unfold utf16_encode. induction 1 as [|c text Hc _ IH]; [reflexivity | ].
  cbn [flat_map]. rewrite IH. unfold utf16_units.
  replace (c <? 0x10000) with true by (symmetry; apply Z.ltb_lt; exact Hc).
  reflexivity.
Qed.

Lemma latin1_high_byte (c : Z) : latin1 c -> byte_of_Z (Z.shiftr c 8) = x00.
Proof.
  intros Hc. rewrite Z.shiftr_div_pow2 by lia.
  change (2 ^ 8) with 256. rewrite Z.div_small by exact Hc. reflexivity.
Qed.

(** Counting from an even position, with zero at every odd position *)
Lemma count_all_zero (data : list byte) :
  forall (j i : nat),
    Nat.even i = true ->
    (forall k, (k < j)%nat -> at_ data (S (i + 2 * k)) = x00) ->
    List.length
      (filter (fun i => Nat.odd i && Byte.eqb (at_ data i) x00) (seq i (2 * j)))
    = j.
Proof.
  induction j as [|j IH]; intros i Hev Hz; [reflexivity | ].
  replace (2 * S j)%nat with (S (S (2 * j))) by lia.
  cbn [seq filter].
  rewrite <- Nat.negb_even, Hev. cbn [negb andb].
  rewrite Nat.odd_succ, Hev. cbn [andb].
  pose proof (Hz 0%nat ltac:(lia)) as H0.
  replace (i + 2 * 0)%nat with i in H0 by lia. rewrite H0.
  change (Byte.eqb x00 x00) with true. cbn [List.length]. f_equal.
  apply IH.
  - cbn [Nat.even]. exact Hev.
  - intros k Hk. specialize (Hz (S k) ltac:(lia)).
    replace (S (S i) + 2 * k)%nat with (i + 2 * S k)%nat by lia. exact Hz.
Qed.

Lemma latin1_odd_bytes (text : list Z) :
  Forall latin1 text ->
  forall k, (k < List.length text)%nat ->
    at_ (flat_map (unit_bytes true) text) (S (2 * k)) = x00.
Proof.
  induction 1 as [|c text Hc _ IH]; intros k Hk; [cbn in Hk; lia | ].
  cbn [flat_map unit_bytes app]. destruct k as [|k].
  - cbn [at_ nth Nat.mul]. now apply latin1_high_byte.
  - replace (S (2 * S k)) with (S (S (S (2 * k)))) by lia.
    unfold at_ in *. cbn [nth]. apply IH. cbn in Hk. lia.
Qed.

(** X13. UTF-16 output without a mark is recognised when it is long
    enough: for a text of at least six characters of Latin-1, the
    little-endian UTF-16 bytes are classified as UTF-16 and
    [processOutput] returns the text. *)
Theorem X13_unmarked_latin1_is_decoded (text : list Z) (verbose : bool) (b : Builder) :
  Forall latin1 text ->
  6 <= Z.of_nat (List.length text) < 2 ^ 52 ->
  isUTF16 (utf16_bytes true text) = true
  /\ fst (processOutput (utf16_bytes true text) verbose b) = go_string text.
Proof.
  intros Ht Hn.
  assert (Hs : Forall scalar_value text).
  { eapply Forall_impl; [ | exact Ht]. unfold latin1, scalar_value. intros; lia. }
  assert (Hb : Forall (fun c => c < 0x10000) text).
  { eapply Forall_impl; [ | exact Ht]. unfold latin1. intros; lia. }
  assert (Hm : starts_with_mark text = false).
  { destruct Ht as [|c text Hc _]; [reflexivity | ]. cbn [starts_with_mark].
    unfold latin1 in Hc. apply orb_false_iff. split; apply Z.eqb_neq; lia. }
  pose proof (no_mark_in_text text Hs Hm) as Hnb.
  assert (Hlen : len (utf16_bytes true text) = 2 * Z.of_nat (List.length text)).
  { unfold len, utf16_bytes. rewrite utf16_encode_bmp, length_unit_bytes by exact Hb. lia. }
  assert (Hcnt : zero_odd_count (utf16_bytes true text) = Z.of_nat (List.length text)).
  { unfold zero_odd_count. f_equal.
    assert (Hl : List.length (utf16_bytes true text) = (2 * List.length text)%nat)
      by (unfold len in Hlen; lia).
    rewrite Hl. apply count_all_zero; [reflexivity | ].
    intros k Hk. unfold utf16_bytes. rewrite utf16_encode_bmp by exact Hb.
    cbn [Nat.add]. now apply latin1_odd_bytes. }
  assert (Hu : isUTF16 (utf16_bytes true text) = true).
  { rewrite (isUTF16_unmarked _ Hnb), Hlen, Hcnt.
    rewrite Z.mul_comm, Z.mod_mul, Z.div_mul by lia. cbn [Z.eqb andb].
    replace (10 <? Z.of_nat (List.length text) * 2) with true
      by (symmetry; apply Z.ltb_lt; lia).
    rewrite float_ratio_gt by lia. apply Z.ltb_lt. lia. }
  split; [exact Hu | ].
  rewrite processOutput_text. unfold normalized. rewrite Hu.
  rewrite decodeUTF16_no_mark by exact Hnb.
  unfold utf16_bytes.
  rewrite decode_units_of_bytes, Decode_encode by (try apply utf16_encode_ok; assumption).
  reflexivity.
Qed.

Lemma X13_unmarked_latin1_is_decoded_witness :
  Forall latin1 sample_latin1
  /\ 6 <= Z.of_nat (List.length sample_latin1) < 2 ^ 52
  /\ fst (processOutput (utf16_bytes true sample_latin1) false []) = go_string sample_latin1.
Proof.
  assert (Ht : Forall latin1 sample_latin1)
    by (unfold sample_latin1, latin1; repeat constructor; lia).
  assert (Hn : 6 <= Z.of_nat (List.length sample_latin1) < 2 ^ 52)
    by (split; [cbn; lia | reflexivity]).
  split; [exact Ht | split; [exact Hn | ]].
  exact (proj2 (X13_unmarked_latin1_is_decoded sample_latin1 false [] Ht Hn)).
Defined.

Lemma processOutput_nonempty (data : list byte) (verbose : bool) (b : Builder) :
  data <> [] ->
  processOutput data verbose b
  = if isUTF16 data then
      (decodeUTF16 data,
       if verbose
       then WriteString b ("UTF-16 encoding detected, decoding..." ++ nl)
       else b)
    else
      (string_of_list_byte data,
       if verbose then WriteString b ("Using standard UTF-8 processing" ++ nl) else b).
Proof.
  intros Hne. unfold processOutput.
  destruct (len data =? 0) eqn:E; [ | reflexivity].
  apply len_zero in E. contradiction.
Qed.

(** X14. Output that begins with a byte-order mark is always decoded:
    for every text, [processOutput] applied to either mark followed by
    the UTF-16 bytes of the text in that byte order returns the text,
    whatever its length, and with [verbose] on it appends the one line
    that tells of the decoding to the trace. *)
Theorem X14_marked_output_is_decoded (text : list Z) (littleEndian verbose : bool)
    (b : Builder) :
  Forall scalar_value text ->
  let mark := if littleEndian then [xff; xfe] else [xfe; xff] in
  processOutput (mark ++ utf16_bytes littleEndian text) verbose b
  = (go_string text,
     if verbose
     then WriteString b ("UTF-16 encoding detected, decoding..." ++ nl)
     else b).
Proof.
  intros Ht mark. pose proof (utf16_encode_ok text Ht) as Hok.
  assert (Hu : isUTF16 (mark ++ utf16_bytes littleEndian text)%list = true)
    by (apply isUTF16_marked; unfold mark; destruct littleEndian; reflexivity).
  rewrite processOutput_nonempty by (unfold mark; destruct littleEndian; discriminate).
  rewrite Hu. f_equal.
  unfold mark, utf16_bytes, go_string. destruct littleEndian; cbn [app].
  - rewrite decodeUTF16_mark_le, decode_units_of_bytes, Decode_encode by assumption.
    reflexivity.
  - rewrite decodeUTF16_mark_be, decode_units_of_bytes, Decode_encode by assumption.
    reflexivity.
Qed.

Lemma X14_marked_output_is_decoded_witness :
  Forall scalar_value sample_text
  /\ fst (processOutput ([xfe; xff] ++ utf16_bytes false sample_text) false [])
     = go_string sample_text.
Proof.
  assert (Ht : Forall scalar_value sample_text)
    by (unfold sample_text, scalar_value; repeat constructor; lia).
  split; [exact Ht | ].
  rewrite (X14_marked_output_is_decoded sample_text false false [] Ht). reflexivity.
Defined.

Lemma pairs_ind (P : list byte -> Prop) :
  P [] -> (forall a, P [a]) -> (forall a c rest, P rest -> P (a :: c :: rest)) ->
  forall l, P l.
Proof.
  intros H0 H1 H2 l.
  assert (H : P l /\ forall a, P (a :: l)).
  { induction l as [|x l [IHl IHc]]; [split; [exact H0 | exact H1] | ].
    split; [apply IHc | intros a; apply H2; exact IHl]. }
  exact (proj1 H).
Qed.

Lemma at_swap_pairs (data : list byte) :
  forall i : nat,
    (i * 2 + 1 < List.length data)%nat ->
    at_ (swap_pairs data) (i * 2) = at_ data (i * 2 + 1)
    /\ at_ (swap_pairs data) (i * 2 + 1) = at_ data (i * 2).
Proof.
  induction data as [|a|a c rest IH] using pairs_ind; intros i Hi;
    [cbn in Hi; lia | cbn in Hi; lia | ].
  cbn [swap_pairs]. destruct i as [|i].
  - split; reflexivity.
  - replace (S i * 2)%nat with (S (S (i * 2))) by lia.
    replace (S (S (i * 2)) + 1)%nat with (S (S (i * 2 + 1))) by lia.
    unfold at_ in *. cbn [nth]. apply IH. cbn in Hi. lia.
Qed.

Lemma length_swap_pairs (data : list byte) :
  List.length (swap_pairs data) = List.length data.
Proof.
  induction data as [|a|a c rest IH] using pairs_ind; try reflexivity.
  cbn [swap_pairs List.length]. now rewrite IH.
Qed.

(** X15. The two byte orders differ by the order within each pair
    only: for an even number of bytes after the mark, decoding them as
    big-endian (after FE FF) gives the same text as decoding the bytes
    with every pair exchanged as little-endian (after FF FE). *)
Theorem X15_big_endian_is_swapped_little_endian (data : list byte) :
  Z.even (len data) = true ->
  decodeUTF16 (xfe :: xff :: data) = decodeUTF16 (xff :: xfe :: swap_pairs data).
Proof.
  intros Hev. rewrite decodeUTF16_mark_le, decodeUTF16_mark_be.
  unfold decode_units, len. rewrite length_swap_pairs.
  fold (len data). rewrite even_mod2, Hev. cbn [negb].
  do 2 f_equal. apply map_ext_in. intros i Hi. apply in_seq in Hi.
  assert (Hlt : (i * 2 + 1 < List.length data)%nat).
  { destruct Hi as [_ Hi]. cbn [Nat.add] in Hi.
    assert (Heven : len data = 2 * (len data / 2)).
    { pose proof (Z.div_mod (len data) 2 ltac:(lia)) as Hd.
      rewrite Zmod_even, Hev in Hd. lia. }
    unfold len in *. lia. }
  destruct (at_swap_pairs data i Hlt) as [E0 E1].
  unfold code_unit. rewrite E0, E1. reflexivity.
Qed.

Lemma X15_big_endian_is_swapped_little_endian_witness :
  Z.even (len [x00; x41; x26; x3a]) = true
  /\ decodeUTF16 [xfe; xff; x00; x41; x26; x3a] = decodeUTF16 [xff; xfe; x41; x00; x3a; x26].
Proof.
  split; [reflexivity | ].
  apply (X15_big_endian_is_swapped_little_endian [x00; x41; x26; x3a]). reflexivity.
Defined.

(** ** Trimming *)

Lemma bytes_of_string_of_list_byte (l : list byte) :
  bytes_of_string (string_of_list_byte l) = map u8 l.
Proof.
  unfold bytes_of_string, string_of_list_byte.
  rewrite list_ascii_of_string_of_list_ascii, map_map.
  apply map_ext. intros b. unfold ord. now rewrite byte_of_ascii_of_byte.
Qed.

Lemma string_of_Zs_u8 (l : list byte) :
  Utf8.string_of_Zs (map u8 l) = string_of_list_byte l.
Proof.
  unfold string_of_list_byte. induction l as [|b l IH]; [reflexivity | ].
  cbn [map Utf8.string_of_Zs string_of_list_ascii].
  rewrite IH. unfold chr. now rewrite byte_of_Z_u8.
Qed.

Lemma skip_ascii_drop (l : list byte) :
  Forall (fun b => ascii_byte b = true) l ->
  skip_ascii (map u8 l) = (map u8 (drop_spaces l), false).
Proof.
  induction 1 as [|b l Hb _ IH]; [reflexivity | ].
  cbn [map skip_ascii drop_spaces]. unfold ascii_byte in Hb.
  apply Z.ltb_lt in Hb. unfold Utf8.RuneSelf.
  replace (128 <=? u8 b) with false by (symmetry; apply Z.leb_gt; exact Hb).
  unfold space_byte. destruct (asciiSpace (u8 b)); [exact IH | reflexivity].
Qed.

Lemma drop_spaces_ascii (l : list byte) :
  Forall (fun b => ascii_byte b = true) l ->
  Forall (fun b => ascii_byte b = true) (drop_spaces l).
Proof.
  induction 1 as [|b l Hb Hl IH]; [constructor | ].
  cbn [drop_spaces]. destruct (space_byte b); [exact IH | now constructor].
Qed.

Lemma drop_spaces_split (l : list byte) :
  exists pre,
    l = (pre ++ drop_spaces l)%list
    /\ Forall (fun b => space_byte b = true) pre
    /\ match drop_spaces l with
       | b :: _ => space_byte b = false
       | [] => True
       end.
Proof.
  induction l as [|b l (pre & E & Hpre & Hhd)].
  - exists []. repeat split. constructor.
  - cbn [drop_spaces]. destruct (space_byte b) eqn:Eb.
    + exists (b :: pre). cbn [app]. rewrite <- E. repeat split; [ | exact Hhd].
      now constructor.
    + exists []. repeat split; [constructor | exact Eb].
Qed.

(** [strings.TrimSpace] on ASCII text: white space dropped at both
    ends *)
Lemma TrimSpace_ascii (l : list byte) :
  Forall (fun b => ascii_byte b = true) l ->
  TrimSpace (string_of_list_byte l)
  = string_of_list_byte (rev (drop_spaces (rev (drop_spaces l)))).
Proof.
  intros Hl. unfold TrimSpace, TrimSpace_bytes.
  rewrite bytes_of_string_of_list_byte, (skip_ascii_drop l Hl).
  rewrite <- map_rev, skip_ascii_drop.
  - rewrite <- map_rev. apply string_of_Zs_u8.
  - apply Forall_rev. now apply drop_spaces_ascii.
Qed.

Lemma ascii_not_utf16 (l : list byte) :
  Forall (fun b => ascii_byte b = true) l -> Forall (fun b => b <> x00) l ->
  isUTF16 l = false.
Proof.
  intros Hascii Hnz. apply no_zero_not_utf16.
  - destruct l as [|b0 [|b1 rest]]; try reflexivity.
    inversion Hascii as [|? ? H0 Hr]; subst.
    unfold ascii_byte in H0. apply Z.ltb_lt in H0.
    unfold has_bom. apply orb_false_iff.
    split; apply andb_false_iff; left;
      (destruct (Byte.eqb b0 _) eqn:E; [ | reflexivity]);
      apply Byte.byte_dec_bl in E; subst b0; vm_compute in H0; discriminate.
  - intros i _ Hi. rewrite Forall_forall in Hnz. apply Hnz. now apply nth_In.
Qed.

(** X16. Output in ASCII without NUL characters comes back with its
    white space (tab, line feed, vertical tab, form feed, carriage
    return, space) removed at both ends and nothing else changed: the
    captured bytes are white space, then the bytes of [Output], then
    white space, and [Output] neither begins nor ends with white
    space. Both variants give this [Output]. *)
Theorem X16_ascii_output_is_trimmed (w : World) (req : MainGo.Request) :
  let captured := fst (CombinedOutput w (run_cmd (MainGo.executeCommand_run w req))) in
  Forall (fun b => ascii_byte b = true) captured ->
  Forall (fun b => b <> x00) captured ->
  exists pre kept suf,
    captured = (pre ++ kept ++ suf)%list
    /\ Forall (fun b => space_byte b = true) pre
    /\ Forall (fun b => space_byte b = true) suf
    /\ match kept with b :: _ => space_byte b = false | [] => True end
    /\ match rev kept with b :: _ => space_byte b = false | [] => True end
    /\ Output (MainGo.executeCommand w req) = string_of_list_byte kept
    /\ Output (TypeGo.executeCommand w (forget req)) = string_of_list_byte kept.
Proof.
  cbv zeta. rewrite MainGo_run_cmd.
  destruct (MainGo_response_fields w req) as (Ho & _).
  destruct (TypeGo_response_fields w (forget req)) as (Ho' & _).
  cbv zeta in Ho, Ho'. cbn [forget TypeGo.Command TypeGo.Type_ TypeGo.Headless] in Ho'.
  set (out := fst (CombinedOutput w _)) in *.
  intros Hascii Hnz.
  pose proof (ascii_not_utf16 out Hascii Hnz) as Hu.
  destruct (drop_spaces_split out) as (pre & E1 & Hpre & Hhd1).
  destruct (drop_spaces_split (rev (drop_spaces out))) as (pre2 & E2 & Hpre2 & Hhd2).
  set (d2 := drop_spaces (rev (drop_spaces out))) in *.
  assert (Ed : drop_spaces out = (rev d2 ++ rev pre2)%list).
  { rewrite <- (rev_involutive (drop_spaces out)), E2, rev_app_distr. reflexivity. }
  exists pre, (rev d2), (rev pre2).
  split; [rewrite <- Ed; exact E1 | ].
  split; [exact Hpre | ].
  split; [apply Forall_rev; exact Hpre2 | ].
  split; [ | split; [rewrite rev_involutive; exact Hhd2 | ]].
  - rewrite Ed in Hhd1. destruct (rev d2) as [|b k] eqn:Ek; [exact I | exact Hhd1].
  - rewrite Ho, Ho'. unfold normalized. rewrite Hu.
    rewrite (TrimSpace_ascii out Hascii). fold d2. split; reflexivity.
Qed.

Lemma X16_ascii_output_is_trimmed_witness :
  Forall (fun b => ascii_byte b = true) [x20; x68; x69; x0d; x0a]
  /\ Forall (fun b => b <> x00) [x20; x68; x69; x0d; x0a]
  /\ exists pre kept suf,
       [x20; x68; x69; x0d; x0a] = (pre ++ kept ++ suf)%list
       /\ Forall (fun b => space_byte b = true) pre
       /\ Forall (fun b => space_byte b = true) suf
       /\ match kept with b :: _ => space_byte b = false | [] => True end
       /\ match rev kept with b :: _ => space_byte b = false | [] => True end
       /\ Output (MainGo.executeCommand
                    (fixed_host "windows" [x20; x68; x69; x0d; x0a] None 1)
                    {| MainGo.Command := "echo hi"; MainGo.Type_ := "cmd";
                       MainGo.Headless := true; MainGo.Verbose := false;
                       MainGo.PersistWindow := false |})
          = string_of_list_byte kept
       /\ Output (TypeGo.executeCommand
                    (fixed_host "windows" [x20; x68; x69; x0d; x0a] None 1)
                    {| TypeGo.Command := "echo hi"; TypeGo.Type_ := "cmd";
                       TypeGo.Headless := true; TypeGo.Verbose := false |})
          = string_of_list_byte kept.
Proof.
  assert (Ha : Forall (fun b => ascii_byte b = true) [x20; x68; x69; x0d; x0a])
    by (repeat constructor).
  assert (Hz : Forall (fun b => b <> x00) [x20; x68; x69; x0d; x0a])
    by (repeat constructor; discriminate).
  split; [exact Ha | split; [exact Hz | ]].
  exact (X16_ascii_output_is_trimmed
           (fixed_host "windows" [x20; x68; x69; x0d; x0a] None 1)
           {| MainGo.Command := "echo hi"; MainGo.Type_ := "cmd";
              MainGo.Headless := true; MainGo.Verbose := false;
              MainGo.PersistWindow := false |} Ha Hz).
Defined.

Lemma drop_spaces_all (l : list byte) :
  Forall (fun b => space_byte b = true) l -> drop_spaces l = [].
Proof.
  induction 1 as [|b l Hb _ IH]; [reflexivity | ].
  cbn [drop_spaces]. now rewrite Hb.
Qed.

Lemma space_is_ascii (b : byte) :
  space_byte b = true -> ascii_byte b = true /\ b <> x00.
Proof.
  unfold space_byte, asciiSpace, ascii_byte. intros H.
  rewrite !orb_true_iff in H. split.
  - apply Z.ltb_lt. repeat destruct H as [H | H]; apply Z.eqb_eq in H; lia.
  - intros ->. vm_compute in H. repeat destruct H as [H | H]; discriminate.
Qed.

(** X17. A command whose captured output is empty or white space only
    (tab, line feed, vertical tab, form feed, carriage return, space)
    gets the empty [Output], in both variants. *)
Theorem X17_blank_output_is_empty (w : World) (req : MainGo.Request) :
  Forall (fun b => space_byte b = true)
    (fst (CombinedOutput w (run_cmd (MainGo.executeCommand_run w req)))) ->
  Output (MainGo.executeCommand w req) = EmptyString
  /\ Output (TypeGo.executeCommand w (forget req)) = EmptyString.
Proof.
  rewrite MainGo_run_cmd.
  destruct (MainGo_response_fields w req) as (Ho & _).
  destruct (TypeGo_response_fields w (forget req)) as (Ho' & _).
  cbv zeta in Ho, Ho'. cbn [forget TypeGo.Command TypeGo.Type_ TypeGo.Headless] in Ho'.
  set (out := fst (CombinedOutput w _)) in *.
  intros Hsp.
  assert (Hascii : Forall (fun b => ascii_byte b = true) out).
  { eapply Forall_impl; [ | exact Hsp]. intros b Hb. now apply space_is_ascii. }
  assert (Hnz : Forall (fun b => b <> x00) out).
  { eapply Forall_impl; [ | exact Hsp]. intros b Hb. now apply space_is_ascii. }
  rewrite Ho, Ho'. unfold normalized. rewrite (ascii_not_utf16 out Hascii Hnz).
  rewrite (TrimSpace_ascii out Hascii), (drop_spaces_all out Hsp).
  split; reflexivity.
Qed.

Lemma X17_blank_output_is_empty_witness :
  Forall (fun b => space_byte b = true) [x0d; x0a]
  /\ Output (MainGo.executeCommand (fixed_host "windows" [x0d; x0a] None 1)
               {| MainGo.Command := "echo."; MainGo.Type_ := "cmd";
                  MainGo.Headless := true; MainGo.Verbose := false;
                  MainGo.PersistWindow := false |})
     = EmptyString.
Proof.
  assert (Hs : Forall (fun b => space_byte b = true) [x0d; x0a])
    by (repeat constructor).
  split; [exact Hs | ].
  exact (proj1 (X17_blank_output_is_empty (fixed_host "windows" [x0d; x0a] None 1)
                  {| MainGo.Command := "echo."; MainGo.Type_ := "cmd";
                     MainGo.Headless := true; MainGo.Verbose := false;
                     MainGo.PersistWindow := false |} Hs)).
Defined.

(** ** Well-formed results *)

Lemma DecodeRune_scalar (r1 r2 : Z) : scalar_value (Utf16.DecodeRune r1 r2).
Proof.
  unfold Utf16.DecodeRune, Utf16.surr1, Utf16.surr2, Utf16.surr3, Utf16.surrSelf,
    Utf16.replacementChar, scalar_value.
  destruct ((0xd800 <=? r1) && (r1 <? 0xdc00) && (0xdc00 <=? r2) && (r2 <? 0xe000)) eqn:E;
    [ | lia].
  rewrite !andb_true_iff in E. destruct E as [[[H1 H2] H3] H4].
  apply Z.leb_le in H1, H3. apply Z.ltb_lt in H2, H4.
  rewrite Z.shiftl_mul_pow2 by lia.
  rewrite lor_concat by (change (2 ^ 10) with 1024; lia).
  change (2 ^ 10) with 1024. lia.
Qed.

Lemma Decode_scalar (n : nat) :
  forall us : list Z,
    (List.length us <= n)%nat -> Forall unit_ok us ->
    Forall scalar_value (Utf16.Decode us)
    /\ (List.length (Utf16.Decode us) <= List.length us)%nat.
Proof.
  induction n as [|n IH]; intros us Hn Hok.
  - destruct us; [split; [constructor | cbn; lia] | cbn in Hn; lia].
  - destruct us as [|r rest]; [split; [constructor | cbn; lia] | ].
    inversion Hok as [|? ? Hr Hrest]; subst. cbn [List.length] in Hn.
    cbn [Utf16.Decode]. unfold Utf16.surr1, Utf16.surr3, Utf16.replacementChar.
    destruct ((r <? 0xd800) || (0xe000 <=? r)) eqn:E.
    + destruct (IH rest ltac:(lia) Hrest) as [Hs Hl].
      split; [ | cbn [List.length]; lia].
      constructor; [ | exact Hs]. unfold scalar_value, unit_ok in *.
      apply orb_true_iff in E. destruct E as [E | E]; [apply Z.ltb_lt in E | apply Z.leb_le in E]; lia.
    + destruct rest as [|r2 rest'].
      * split; [repeat constructor; unfold scalar_value; lia | cbn; lia].
      * inversion Hrest as [|? ? Hr2 Hrest']; subst. cbn [List.length] in Hn.
        assert (Hn1 : (List.length rest' <= n)%nat) by lia.
        assert (Hn2 : (List.length (r2 :: rest') <= n)%nat) by (cbn [List.length]; lia).
        destruct (IH rest' Hn1 Hrest') as [Hs1 Hl1].
        destruct (IH (r2 :: rest') Hn2 Hrest) as [Hs2 Hl2].
        cbn [List.length] in Hl2.
        match goal with
        | |- context [if ?c then _ else _] => destruct c
        end.
        -- split; [ | cbn [List.length]; lia].
           constructor; [apply DecodeRune_scalar | exact Hs1].
        -- split; [ | cbn [List.length]; lia].
           constructor; [unfold scalar_value; lia | exact Hs2].
Qed.

Lemma decodeUTF16_strip_units (data : list byte) :
  exists le : bool, decodeUTF16 data = decode_units le (strip_bom data).
Proof.
  unfold strip_bom. destruct (has_bom data) eqn:Hb.
  - destruct data as [|b0 [|b1 rest]]; try discriminate Hb.
    cbn [has_bom] in Hb. cbn [skipn].
    destruct (Byte.eqb b0 xff && Byte.eqb b1 xfe) eqn:E1.
    + apply andb_true_iff in E1. destruct E1 as [E0 E1].
      apply Byte.byte_dec_bl in E0, E1. subst. exists true. apply decodeUTF16_mark_le.
    + cbn [orb] in Hb. apply andb_true_iff in Hb. destruct Hb as [E0 E2].
      apply Byte.byte_dec_bl in E0, E2. subst. exists false. apply decodeUTF16_mark_be.
  - exists true. now apply decodeUTF16_no_mark.
Qed.

(** X18. Whatever the bytes, when an even number of them is left after
    the mark [decodeUTF16] returns well-formed text: the Go string of
    a sequence of Unicode scalar values (unpaired surrogates having
    become U+FFFD), with at most one character for every two bytes. *)
Theorem X18_decoded_text_is_well_formed (data : list byte) :
  Z.even (len (strip_bom data)) = true ->
  exists text : list Z,
    Forall scalar_value text
    /\ decodeUTF16 data = go_string text
    /\ Z.of_nat (List.length text) <= len (strip_bom data) / 2.
Proof.
  intros Hev. destruct (decodeUTF16_strip_units data) as [le E].
  set (d := strip_bom data) in *.
  set (us := map (code_unit le d) (seq 0 (Z.to_nat (len d / 2)))).
  assert (Hok : Forall unit_ok us).
  { unfold us. apply Forall_forall. intros u Hu. apply in_map_iff in Hu.
    destruct Hu as (i & <- & _). apply code_unit_ok. }
  destruct (Decode_scalar (List.length us) us (le_n _) Hok) as [Hs Hl].
  exists (Utf16.Decode us). split; [exact Hs | split].
  - rewrite E. unfold decode_units. rewrite even_mod2, Hev. reflexivity.
  - unfold us in Hl. rewrite length_map, length_seq in Hl.
    assert (0 <= len d / 2) by (apply Z.div_pos; unfold len; lia).
    fold us in Hl. lia.
Qed.

Lemma X18_decoded_text_is_well_formed_witness :
  Z.even (len (strip_bom [xff; xfe; x00; xd8; x41; x00])) = true
  /\ exists text : list Z,
       Forall scalar_value text
       /\ decodeUTF16 [xff; xfe; x00; xd8; x41; x00] = go_string text
       /\ Z.of_nat (List.length text) <= len (strip_bom [xff; xfe; x00; xd8; x41; x00]) / 2.
Proof.
  split; [reflexivity | ].
  exact (X18_decoded_text_is_well_formed [xff; xfe; x00; xd8; x41; x00] eq_refl).
Defined.

(** ** A request without a type *)

(** X19. For a request object that decodes without error and has no
    [type] key, [Type_] is decoded as the empty string, and the
    request is dispatched as the same object with ["type": "cmd"]
    added: the same command is handed to the host on every host, the
    [Output], [Error] and [Duration] of the responses are equal, and
    with [verbose] off the responses are equal. (With [verbose] on the
    trace shows the type as it was sent.) *)
Theorem X19_type_omitted_is_cmd (w : World) (line line' : string)
    (ms1 ms2 : list (string * JSON)) :
  has_key "type" (ms1 ++ ms2) = false ->
  snd (MainGo.Unmarshal (JObject (ms1 ++ ms2)) MainGo.zero_Request) = false ->
  let r := MainGo.request_of_line line (Some (JObject (ms1 ++ ms2))) in
  let r' :=
    MainGo.request_of_line line'
      (Some (JObject (ms1 ++ ("type", JString "cmd") :: ms2))) in
  MainGo.Type_ r = EmptyString
  /\ r' = MainGo.set_Type r "cmd"
  /\ run_cmd (MainGo.executeCommand_run w r) = run_cmd (MainGo.executeCommand_run w r')
  /\ Output (MainGo.executeCommand w r) = Output (MainGo.executeCommand w r')
  /\ Error (MainGo.executeCommand w r) = Error (MainGo.executeCommand w r')
  /\ Duration (MainGo.executeCommand w r) = Duration (MainGo.executeCommand w r')
  /\ (if MainGo.Verbose r then True
      else MainGo.executeCommand w r = MainGo.executeCommand w r').
Proof.
  intros Hno Hok r r'.
  destruct (Unmarshal_insert_type ms1 ms2 Hno) as [Hins Hty]. cbv zeta in Hins, Hty.
  assert (Hr : r = fst (MainGo.Unmarshal (JObject (ms1 ++ ms2)) MainGo.zero_Request)).
  { unfold r, MainGo.request_of_line.
    destruct (MainGo.Unmarshal (JObject (ms1 ++ ms2)) MainGo.zero_Request) as [q e].
    cbn [snd] in Hok. subst e. reflexivity. }
  assert (Hr' : r' = MainGo.set_Type r "cmd").
  { unfold r', MainGo.request_of_line. rewrite Hins, Hok, Hr. reflexivity. }
  assert (Ht : MainGo.Type_ r = EmptyString) by (rewrite Hr; exact Hty).
  assert (Hc : dispatch (GOOS w) (MainGo.Type_ r) (MainGo.Command r) (MainGo.Headless r)
               = dispatch (GOOS w) (MainGo.Type_ r') (MainGo.Command r')
                   (MainGo.Headless r')).
  { rewrite Hr', Ht. apply dispatch_empty_type. }
  destruct (MainGo_response_fields w r) as (Ho & He & Hd).
  destruct (MainGo_response_fields w r') as (Ho' & He' & Hd').
  cbv zeta in Ho, He, Hd, Ho', He', Hd'. rewrite <- Hc in Ho', He', Hd'.
  split; [exact Ht | split; [exact Hr' | split; [ | split; [ | split; [ | split]]]]].
  - rewrite !MainGo_run_cmd. exact Hc.
  - now rewrite Ho, Ho'.
  - now rewrite He, He'.
  - now rewrite Hd, Hd'.
  - destruct (MainGo.Verbose r) eqn:Hv; [exact I | ].
    apply Response_ext.
    + now rewrite Ho, Ho'.
    + now rewrite He, He'.
    + now rewrite Hd, Hd'.
    + rewrite !MainGo_quiet_debug; [reflexivity | | exact Hv].
      rewrite Hr'. exact Hv.
Qed.

Lemma X19_type_omitted_is_cmd_witness :
  has_key "type" ([("command", JString "echo hi")] ++ []) = false
  /\ snd (MainGo.Unmarshal (JObject ([("command", JString "echo hi")] ++ []))
            MainGo.zero_Request) = false
  /\ MainGo.executeCommand (fixed_host "windows" [x68; x69; x0d; x0a] None 3)
       (MainGo.request_of_line line_plain
          (Some (JObject ([("command", JString "echo hi")] ++ []))))
     = MainGo.executeCommand (fixed_host "windows" [x68; x69; x0d; x0a] None 3)
         (MainGo.request_of_line line_typed
            (Some (JObject ([("command", JString "echo hi")]
                            ++ [("type", JString "cmd")])))).
Proof.
  split; [reflexivity | split; [reflexivity | ]].
  apply (X19_type_omitted_is_cmd (fixed_host "windows" [x68; x69; x0d; x0a] None 3)
           line_plain line_typed [("command", JString "echo hi")] []
           eq_refl eq_refl).
Defined.
